(** * CampaignIQ: scoring rules, data preparation and decile analysis

    A shallow embedding of the analytic core of the prototype
    ([scoring.py], [data_preparation.py], [analysis.py]), of the column
    names of [data_utils.py] and of the retry loop of [snowflake_utils.py],
    together with the properties stated for them.

    Conventions of the embedding.
    - A pandas cell is a number, a string or a missing value ([NaN]).
      Floating-point numbers are read as exact rationals ([Q]), so a
      property stated "within floating tolerance" becomes an equality;
      [int] values are [Z]. The one place where the rounding of a float
      operation decides an integer, [int(a * b)], is computed in binary64
      (module [Float64]).
    - A [Series] carries its dtype next to its cells, a [DataFrame] is an
      ordered list of labelled columns together with its number of rows.
      Rows are positions: every frame of the pipeline has the default
      index. [get_column] reads the first column stored under a label;
      where the preparation reads a label that its own indicator columns
      may have duplicated, the failure of that read is written out.
    - A Python exception is a value of type [exn]; code that may raise
      returns a [result]. Error messages are kept up to the values
      interpolated into them.
    - Logging, progress callbacks and the writes to the warehouse are left
      out: they do not enter any computed value.
    - Library behaviour follows pandas 2: grouping by a categorical keeps
      the categories that hold no row. *)

From Stdlib Require Import List String Ascii ZArith QArith Qabs Qround Qpower Bool Lia Arith.
From Stdlib Require Import DecimalString Sorted Permutation Lqa.
Import ListNotations.

Open Scope Z_scope.
Open Scope string_scope.

(* ================================================================== *)
(** * Part I: the embedding *)
(* ================================================================== *)

(** ** Exceptions *)

Module Py.

Inductive exn : Type :=
| KeyError (key : string)
| TypeError
| AttributeError
| IndexError
| StopIteration
| OverflowError
| ValueError (msg : string).

Inductive result (A : Type) : Type :=
| Ok (a : A)
| Raise (e : exn).

Arguments Ok {A} a.
Arguments Raise {A} e.

Definition bind {A B : Type} (m : result A) (k : A -> result B) : result B :=
  match m with
  | Ok a => k a
  | Raise e => Raise e
  end.

(** [try: ... except Exception as e: raise ValueError(...)]. *)
Definition reraise {A : Type} (m : result A) (k : exn -> exn) : result A :=
  match m with
  | Ok a => Ok a
  | Raise e => Raise (k e)
  end.

Fixpoint mapM {A B : Type} (f : A -> result B) (l : list A) : result (list B) :=
  match l with
  | [] => Ok []
  | a :: l' => bind (f a) (fun b => bind (mapM f l') (fun bs => Ok (b :: bs)))
  end.

(** [str(n)] of an integer. *)
Definition str_of_Z (n : Z) : string := NilZero.string_of_int (Z.to_int n).

End Py.

Import Py.

Notation "x <- m ;; k" := (Py.bind m (fun x => k))
  (at level 61, m at next level, right associativity).

(** ** Rational helpers *)

Definition Qlt_bool (x y : Q) : bool := negb (Qle_bool y x).

(** Python's [int(x)] on a float: truncation toward zero. *)
Definition Qtruncate (x : Q) : Z := Z.quot (Qnum x) (Z.pos (Qden x)).

(** Nearest integer, ties to even (Python's [round(x)]). *)
Definition Qround_half_even (x : Q) : Z :=
  let f := Qfloor x in
  let r := (x - inject_Z f)%Q in
  if Qlt_bool r (1 # 2) then f
  else if Qlt_bool (1 # 2) r then f + 1
  else if Z.even f then f else f + 1.

(** ** Binary floating point

    The numbers of the program are binary64 floats, read throughout as the
    exact rationals they stand for. Where the program turns a product of
    floats into an integer the rounding of the product decides the result,
    so there the float operation is written out: the exact product is
    rounded to the nearest float, ties to the even significand, and a
    result beyond the largest float is an infinity. *)

Module Float64.

(** [floor(log2 |q|)], for [q] other than 0: it is the difference of the
    binary lengths of numerator and denominator, or one less. *)
Definition ilog2 (q : Q) : Z :=
  let e := (Z.log2 (Z.abs (Qnum q)) - Z.log2 (Z.pos (Qden q)))%Z in
  if Qle_bool (2 ^ e) (Qabs q) then e else (e - 1)%Z.

(** The gap between neighbouring floats at [q]: 52 binary places below the
    leading digit, and the gap 2^-1074 for all subnormal numbers. *)
Definition ulp (q : Q) : Q := (2 ^ (Z.max (ilog2 q) (-1022) - 52))%Q.

(** The float nearest to [q]. *)
Definition round (q : Q) : Q :=
  if Qeq_bool q 0 then 0%Q
  else (inject_Z (Qround_half_even (q / ulp q)) * ulp q)%Q.

Definition finite (q : Q) : bool := Qlt_bool (Qabs q) (2 ^ 1024).

(** [a * b] on floats; [None] is an infinity. *)
Definition mul (a b : Q) : option Q :=
  let r := round (a * b) in
  if finite r then Some r else None.

(** [float(n)], as it happens when an [int] meets a float. *)
Definition of_int (n : Z) : Q := round (inject_Z n).

(** [int(x)] of a float: truncation toward zero; an infinity has no
    integer value. *)
Definition to_int (x : option Q) : result Z :=
  match x with
  | Some q => Ok (Qtruncate q)
  | None => Raise OverflowError
  end.

(** [int(a * b)] *)
Definition truncated_product (a b : Q) : result Z := to_int (mul a b).

End Float64.

(** ** Pandas cells, series and frames *)

Module Pandas.

Inductive cell : Type :=
| Num (q : Q)
| Str (s : string)
| NaN.

Inductive dtype : Type := float64 | int64 | object.

Record Series : Type := mkSeries { dtype_of : dtype; values : list cell }.

Record DataFrame : Type := mkDataFrame {
  nrows : nat;                          (* len(df) *)
  columns : list (string * Series)      (* df.columns with the data *)
}.

Definition isna (c : cell) : bool :=
  match c with NaN => true | _ => false end.

Definition notna (c : cell) : bool := negb (isna c).

Definition is_str (c : cell) : bool := match c with Str _ => true | _ => false end.
Definition is_num (c : cell) : bool := match c with Num _ => true | _ => false end.

(** [label in df.columns] *)
Definition has_column (label : string) (df : DataFrame) : bool :=
  existsb (fun p => fst p =? label) (columns df).

(** A label held by several columns: [df[label]] is then a frame, not a
    series. *)
Definition duplicated (label : string) (df : DataFrame) : bool :=
  Nat.ltb 1 (List.length (filter (fun p => fst p =? label) (columns df))).

(** [df[label]] for a single label: the column stored under it (the first
    one, should the label be duplicated). *)
Definition get_column (label : string) (df : DataFrame) : result Series :=
  match find (fun p => fst p =? label) (columns df) with
  | Some p => Ok (snd p)
  | None => Raise (KeyError label)
  end.

(** [series == 1], elementwise. A string or a missing value is not 1. *)
Definition eq_one (c : cell) : bool :=
  match c with Num q => Qeq_bool q 1 | _ => false end.

(** [series > t], elementwise. A missing value compares false; a string
    against a float is a [TypeError]. *)
Definition gt_cell (t : Q) (c : cell) : result bool :=
  match c with
  | Num q => Ok (Qlt_bool t q)
  | NaN => Ok false
  | Str _ => Raise TypeError
  end.

(** [scores[mask] += adjustment] *)
Fixpoint add_where (mask : list bool) (adjustment : Z) (scores : list Z) : list Z :=
  match scores, mask with
  | s :: scores', m :: mask' =>
      (if m then s + adjustment else s) :: add_where mask' adjustment scores'
  | _, _ => scores
  end.

End Pandas.

Import Pandas.

(** ** The analysis configuration (a Python dict) *)

Module Config.

(** The value stored under ['range'] in a variable's details: the rule
    generator reads it as a dict with optional ['min'] and ['max']; the
    configuration page stores a two-element list. *)
Inductive range_value : Type :=
| RangeDict (min max : option Q)
| RangeList (bounds : list Q).

(** One entry of [config['variable_details']]; an absent key is [None]
    (or [false] for the flag read through its truth value). *)
Record details : Type := mkDetails {
  type_ : option string;
  has_order : bool;
  value_order : option (list string);
  direction : option string;
  range : option range_value
}.

(** [{}] *)
Definition no_details : details := mkDetails None false None None None.

Record t : Type := mkConfig {
  target_variable : string;
  categorical_variables : list string;
  numerical_variables : list string;
  variable_details : list (string * details);
  source_table : option string
}.

(** [config['variable_details'].get(name, {})] *)
Definition get_details (config : t) (name : string) : details :=
  match find (fun p => fst p =? name) (variable_details config) with
  | Some p => snd p
  | None => no_details
  end.

End Config.

(** ** scoring.py *)

Module Scoring.

(** *** The rule evaluator *)

(** A scoring rule is a dict with the keys [variable], [condition],
    [adjustment], [description] and, for threshold rules, [threshold]. *)
Record rule : Type := mkRule {
  variable : string;
  condition : string;
  threshold : option Q;
  adjustment : Z;
  description : string
}.

Definition is_base (r : rule) : bool := variable r =? "BASE".

(** [next(rule for rule in rules if rule['variable'] == 'BASE')] *)
Definition base_rule (rules : list rule) : result rule :=
  match find is_base rules with
  | Some r => Ok r
  | None => Raise StopIteration
  end.

(** [df[variable].dtype in ['float64', 'int64']] *)
Definition numeric_dtype (d : dtype) : bool :=
  match d with float64 | int64 => true | object => false end.

(** The mask of one rule on one column; [None] when the condition is of
    neither kind (the [else: continue] branch). *)
Definition rule_mask (r : rule) (col : Series) : result (option (list bool)) :=
  if prefix ">" (condition r) then
    match threshold r with
    | None => Raise (KeyError "threshold")
    | Some t => mask <- mapM (gt_cell t) (values col) ;; Ok (Some mask)
    end
  else if condition r =? "present" then
    if numeric_dtype (dtype_of col)
    then Ok (Some (map eq_one (values col)))
    else Ok (Some (map notna (values col)))
  else Ok None.

(** The body of [for rule in rules:], threading [scores]. *)
Definition apply_rule (df : DataFrame) (r : rule) (scores : list Z) : result (list Z) :=
  if is_base r then Ok scores
  else if negb (has_column (variable r) df) then Ok scores
  else
    col <- get_column (variable r) df ;;
    om <- rule_mask r col ;;
    match om with
    | Some mask => Ok (add_where mask (adjustment r) scores)
    | None => Ok scores
    end.

Fixpoint apply_rules (df : DataFrame) (rules : list rule) (scores : list Z)
  : result (list Z) :=
  match rules with
  | [] => Ok scores
  | r :: rules' => scores' <- apply_rule df r scores ;; apply_rules df rules' scores'
  end.

Definition apply_scoring_rules (df : DataFrame) (rules : list rule) : result (list Z) :=
  b <- base_rule rules ;;
  apply_rules df rules (repeat (adjustment b) (nrows df)).

(** *** The rule generator *)

(** [s.split('_')[0]] *)
Fixpoint before_underscore (s : string) : string :=
  match s with
  | EmptyString => EmptyString
  | String c s' => if Ascii.eqb c "_" then EmptyString else String c (before_underscore s')
  end.

(** ['_'.join(s.split('_')[1:])] *)
Fixpoint after_underscore (s : string) : string :=
  match s with
  | EmptyString => EmptyString
  | String c s' => if Ascii.eqb c "_" then s' else after_underscore s'
  end.

(** ['_' in s] *)
Fixpoint has_underscore (s : string) : bool :=
  match s with
  | EmptyString => false
  | String c s' => Ascii.eqb c "_" || has_underscore s'
  end.

(** A non-missing Python scalar, as [Series.min()] returns one. *)
Inductive scalar : Type :=
| SNum (q : Q)
| SStr (s : string).

Definition Qmin_b (a b : Q) : Q := if Qle_bool a b then a else b.
Definition Qmax_b (a b : Q) : Q := if Qle_bool a b then b else a.
Definition smin (a b : string) : string := if String.leb a b then a else b.
Definition smax (a b : string) : string := if String.leb a b then b else a.

(** [Series.min()] and [Series.max()], missing values skipped, on a column
    whose non-missing cells are [c :: cs]. Comparing a string with a number
    is a [TypeError]; so is a column of strings with a missing value, which
    pandas replaces by an infinite float before comparing. *)
Fixpoint extremum (fq : Q -> Q -> Q) (fs : string -> string -> string)
    (acc : scalar) (cs : list cell) : result scalar :=
  match cs with
  | [] => Ok acc
  | NaN :: cs' => extremum fq fs acc cs'
  | Num q :: cs' =>
      match acc with
      | SNum a => extremum fq fs (SNum (fq a q)) cs'
      | SStr _ => Raise TypeError
      end
  | Str s :: cs' =>
      match acc with
      | SStr a => extremum fq fs (SStr (fs a s)) cs'
      | SNum _ => Raise TypeError
      end
  end.

Definition series_extremum (fq : Q -> Q -> Q) (fs : string -> string -> string)
    (col : Series) (c : cell) (cs : list cell) : result scalar :=
  if existsb is_str (values col) && existsb isna (values col) then Raise TypeError
  else
    match c with
    | Num q => extremum fq fs (SNum q) cs
    | Str s => extremum fq fs (SStr s) cs
    | NaN => Raise TypeError          (* not reached: [c] is a non-missing cell *)
    end.

(** [var_range = var_config.get('range', {})] read through [.get]: the
    configured ['min'] and ['max'], when [var_range] is a dict. *)
Definition range_entries (r : option Config.range_value)
  : result (option Q * option Q) :=
  match r with
  | None => Ok (None, None)
  | Some (Config.RangeDict lo hi) => Ok (lo, hi)
  | Some (Config.RangeList _) => Raise AttributeError     (* a list has no .get *)
  end.

(** [var_range.get(key, default)] with the default already evaluated. *)
Definition range_get (configured : option Q) (default : scalar) : scalar :=
  match configured with
  | Some q => SNum q
  | None => default
  end.

(** [min_val + f * (max_val - min_val)] *)
Definition threshold_at (f : Q) (min_val max_val : scalar) : result Q :=
  match min_val, max_val with
  | SNum lo, SNum hi => Ok (lo + f * (hi - lo))%Q
  | _, _ => Raise TypeError
  end.

Section Generator.

(** [f'{x:.2f}']: the two-decimal rendering of a float, which only enters
    the display strings of a rule. *)
Variable format_2f : Q -> string.

Definition threshold_rule (feature_name var_base : string) (t : Q) (adj : Z) : rule :=
  {| variable := feature_name;
     condition := "> " ++ format_2f t;
     threshold := Some t;
     adjustment := adj;
     description := "If " ++ var_base ++ " is above " ++ format_2f t |}.

(** [int(coefficient * scale_factor)] and [int(adjustment * 0.7)],
    [int(adjustment * 0.3)]: products of floats, truncated. *)
Definition base_adjustment (coefficient : Q) (scale_factor : Z) : result Z :=
  Float64.truncated_product coefficient (Float64.of_int scale_factor).

Definition share (adjustment : Z) (fraction : Q) : result Z :=
  Float64.truncated_product (Float64.of_int adjustment) (Float64.round fraction).

(** The two rules of a numerical feature (the body of the
    [if var_type == 'numerical':] branch). *)
Definition numerical_rules (df : DataFrame) (var_config : Config.details)
    (feature_name var_base : string) (adjustment : Z) : result (list rule) :=
  col <- get_column feature_name df ;;
  match filter notna (values col) with
  | [] => Ok []                       (* pd.notna(df[feature_name]).any() is False *)
  | c :: cs =>
      entries <- range_entries (Config.range var_config) ;;
      let (cfg_min, cfg_max) := entries in
      col_min <- series_extremum Qmin_b smin col c cs ;;
      let min_val := range_get cfg_min col_min in
      col_max <- series_extremum Qmax_b smax col c cs ;;
      let max_val := range_get cfg_max col_max in
      high_threshold <- threshold_at (7 # 10) min_val max_val ;;
      high_adj <- share adjustment (7 # 10) ;;
      med_threshold <- threshold_at (3 # 10) min_val max_val ;;
      med_adj <- share adjustment (3 # 10) ;;
      Ok [ threshold_rule feature_name var_base high_threshold high_adj;
           threshold_rule feature_name var_base med_threshold med_adj ]
  end.

(** The body of [for feature_idx, feature_name in enumerate(feature_names):]
    as the list of rules it appends. *)
Definition feature_rules (df : DataFrame) (config : Config.t) (scale_factor : Z)
    (feature_name : string) (coefficient : Q) : result (list rule) :=
  if Qlt_bool (Qabs coefficient) (1 # 100) then Ok []
  else
    let var_base := before_underscore feature_name in
    let var_config := Config.get_details config var_base in
    let var_type :=
      match Config.type_ var_config with Some ty => ty | None => "categorical" end in
    adjustment <- base_adjustment coefficient scale_factor ;;
    if var_type =? "numerical" then
      numerical_rules df var_config feature_name var_base adjustment
    else if has_underscore feature_name then
      Ok [ {| variable := feature_name;
              condition := "present";
              threshold := None;
              adjustment := adjustment;
              description := "If " ++ var_base ++ " is " ++ after_underscore feature_name |} ]
    else
      Ok [ {| variable := feature_name;
              condition := "present";
              threshold := None;
              adjustment := adjustment;
              description := "If " ++ feature_name ++ " is present" |} ].

(** The loop over [enumerate(feature_names)]; [model_coefficients[feature_idx]]
    is an [IndexError] when the coefficients run out. *)
Fixpoint feature_loop (df : DataFrame) (config : Config.t) (scale_factor : Z)
    (feature_names : list string) (model_coefficients : list Q)
  : result (list rule) :=
  match feature_names with
  | [] => Ok []
  | feature_name :: names' =>
      match model_coefficients with
      | [] => Raise IndexError
      | coefficient :: coefs' =>
          rs <- feature_rules df config scale_factor feature_name coefficient ;;
          rest <- feature_loop df config scale_factor names' coefs' ;;
          Ok (rs ++ rest)%list
      end
  end.

Definition base_score_rule (base_score : Z) : rule :=
  {| variable := "BASE";
     condition := "always";
     threshold := None;
     adjustment := base_score;
     description := "Start with base score" |}.

Definition generate_scoring_rules_with (df : DataFrame) (model_coefficients : list Q)
    (feature_names : list string) (config : Config.t)
    (base_score scale_factor : Z) : result (list rule) :=
  rs <- feature_loop df config scale_factor feature_names model_coefficients ;;
  Ok (base_score_rule base_score :: rs).

(** The call with the default [base_score=1000, scale_factor=1000]. *)
Definition generate_scoring_rules (df : DataFrame) (model_coefficients : list Q)
    (feature_names : list string) (config : Config.t) : result (list rule) :=
  generate_scoring_rules_with df model_coefficients feature_names config 1000 1000.

End Generator.

End Scoring.

(** ** data_preparation.py *)

Module DataPreparation.

(** *** Columns of floats

    After [pd.to_numeric(..., errors='coerce')] a column holds floats only;
    [None] is the missing value. *)

Definition float_col : Type := list (option Q).

Definition present (xs : float_col) : list Q :=
  flat_map (fun x => match x with Some q => [q] | None => [] end) xs.

Definition fold_extremum (f : Q -> Q -> Q) (qs : list Q) : option Q :=
  match qs with
  | [] => None
  | q :: qs' => Some (fold_left f qs' q)
  end.

(** [series.max()] and [series.min()]: missing values are skipped, and the
    result is missing when nothing is left. *)
Definition col_max (xs : float_col) : option Q := fold_extremum Scoring.Qmax_b (present xs).
Definition col_min (xs : float_col) : option Q := fold_extremum Scoring.Qmin_b (present xs).

Fixpoint insert_sorted (q : Q) (l : list Q) : list Q :=
  match l with
  | [] => [q]
  | h :: t => if Qle_bool q h then q :: l else h :: insert_sorted q t
  end.

Fixpoint sort (l : list Q) : list Q :=
  match l with
  | [] => []
  | h :: t => insert_sorted h (sort t)
  end.

(** [series.median()]: the middle value of the sorted non-missing values,
    or the mean of the two middle ones. *)
Definition median (xs : float_col) : option Q :=
  let s := sort (present xs) in
  let n := List.length s in
  match n with
  | O => None
  | _ =>
      if Nat.even n
      then Some ((nth (n / 2 - 1) s 0 + nth (n / 2) s 0) / 2)%Q
      else Some (nth (n / 2) s 0%Q)
  end.

(** [max_val - series] *)
Definition invert (max_val : option Q) (xs : float_col) : float_col :=
  map (fun x => match max_val, x with
                | Some m, Some v => Some (m - v)%Q
                | _, _ => None
                end) xs.

(** [series.fillna(median_val)]; filling with a missing value fills nothing. *)
Definition fillna (fill : option Q) (xs : float_col) : float_col :=
  match fill with
  | Some m => map (fun x => match x with Some v => Some v | None => Some m end) xs
  | None => xs
  end.

(** [if min_val != max_val: series = (series - min_val) / (max_val - min_val)];
    a missing bound differs from everything, itself included. *)
Definition scale (xs : float_col) : float_col :=
  match col_min xs, col_max xs with
  | Some lo, Some hi =>
      if Qeq_bool lo hi then xs
      else map (fun x => match x with
                         | Some v => Some ((v - lo) / (hi - lo))%Q
                         | None => None
                         end) xs
  | _, _ => map (fun _ => None) xs
  end.

Definition lower_is_better : string := "Lower values are better".

(** The numeric part of the loop body once the column is parsed:
    inversion, median imputation, min-max scaling. *)
Definition inverted (direction : option string) (parsed : float_col) : float_col :=
  match direction with
  | Some d => if d =? lower_is_better then invert (col_max parsed) parsed else parsed
  | None => parsed
  end.

Definition imputed (direction : option string) (parsed : float_col) : float_col :=
  let series := inverted direction parsed in
  fillna (median series) series.

Definition transform_numeric (direction : option string) (parsed : float_col) : float_col :=
  scale (imputed direction parsed).

Definition to_cell (x : option Q) : cell :=
  match x with Some q => Num q | None => NaN end.

Definition float_series (xs : float_col) : Series :=
  mkSeries float64 (map to_cell xs).

(** *** Frames *)

(** [df[label] = series]: the column is replaced in place, or appended. *)
Fixpoint set_in (label : string) (s : Series) (cols : list (string * Series))
  : list (string * Series) :=
  match cols with
  | [] => [(label, s)]
  | (l, old) :: cols' =>
      if l =? label then (l, s) :: cols' else (l, old) :: set_in label s cols'
  end.

Definition set_column (label : string) (s : Series) (df : DataFrame) : DataFrame :=
  mkDataFrame (nrows df) (set_in label s (columns df)).

Definition mem (s : string) (l : list string) : bool :=
  existsb (String.eqb s) l.

(** [df.drop(columns=labels)]: every label must be a column. *)
Definition drop (labels : list string) (df : DataFrame) : result DataFrame :=
  match find (fun l => negb (has_column l df)) labels with
  | Some l => Raise (KeyError l)
  | None =>
      Ok (mkDataFrame (nrows df)
            (filter (fun p => negb (mem (fst p) labels)) (columns df)))
  end.

(** [df[labels]]: for each label in turn, the columns stored under it. *)
Definition select_one (df : DataFrame) (label : string) : result (list (string * Series)) :=
  match filter (fun p => fst p =? label) (columns df) with
  | [] => Raise (KeyError label)
  | cs => Ok cs
  end.

Definition select (labels : list string) (df : DataFrame) : result DataFrame :=
  picked <- mapM (select_one df) labels ;;
  Ok (mkDataFrame (nrows df) (List.concat picked)).

Definition column_names (df : DataFrame) : list string := map fst (columns df).

(** Equality of two cells as values ([==], with missing values grouped
    together as [unique] does). *)
Definition cell_eqb (a b : cell) : bool :=
  match a, b with
  | Num p, Num q => Qeq_bool p q
  | Str s, Str t => s =? t
  | NaN, NaN => true
  | _, _ => false
  end.

(** [series.unique()]: the distinct values in order of first appearance. *)
Fixpoint unique_acc (seen : list cell) (vs : list cell) : list cell :=
  match vs with
  | [] => []
  | v :: vs' =>
      if existsb (cell_eqb v) seen then unique_acc seen vs'
      else v :: unique_acc (v :: seen) vs'
  end.

Definition unique (vs : list cell) : list cell := unique_acc [] vs.

(** *** Strings *)

(** The characters kept by [.replace('[^0-9.-]', '', regex=True)]. *)
Definition numeric_char (a : ascii) : bool :=
  let n := nat_of_ascii a in
  ((48 <=? n)%nat && (n <=? 57)%nat) || Ascii.eqb a "." || Ascii.eqb a "-".

Fixpoint strip_non_numeric (s : string) : string :=
  match s with
  | EmptyString => EmptyString
  | String a s' =>
      if numeric_char a then String a (strip_non_numeric s') else strip_non_numeric s'
  end.

Definition lower_char (a : ascii) : ascii :=
  let n := nat_of_ascii a in
  if ((65 <=? n)%nat && (n <=? 90)%nat)%bool then ascii_of_nat (n + 32) else a.

(** [s.lower()] on the letters that matter for the membership test below. *)
Fixpoint lower (s : string) : string :=
  match s with
  | EmptyString => EmptyString
  | String a s' => String (lower_char a) (lower s')
  end.

Fixpoint insert_string (x : string) (l : list string) : list string :=
  match l with
  | [] => [x]
  | h :: t => if String.leb x h then x :: l else h :: insert_string x t
  end.

Fixpoint sort_strings (l : list string) : list string :=
  match l with
  | [] => []
  | h :: t => insert_string h (sort_strings t)
  end.

(** *** The transformer *)

Section Transformer.

(** Two Python primitives are taken as given: [str(x)] of a number and the
    string-to-float conversion of [pd.to_numeric] ([None] when the string
    does not parse). *)
Variable str_of_number : Q -> string.
Variable to_numeric_string : string -> option Q.

(** [str(x)] *)
Definition py_str (c : cell) : string :=
  match c with
  | Str s => s
  | Num q => str_of_number q
  | NaN => "nan"
  end.

(** [series.fillna('MISSING')] *)
Definition fill_missing (col : Series) : Series :=
  mkSeries (if existsb isna (values col) then object else dtype_of col)
           (map (fun c => match c with NaN => Str "MISSING" | _ => c end) (values col)).

(** [value_map = {val: idx for idx, val in enumerate(value_order)}] followed by
    [value_map.get(key, -1)]: a value listed twice keeps its last index. *)
Fixpoint value_map_get (value_order : list string) (key : string) (idx found : Z) : Z :=
  match value_order with
  | [] => found
  | val :: rest =>
      value_map_get rest key (idx + 1) (if val =? key then idx else found)
  end.

Definition rank_of (value_order : list string) (c : cell) : cell :=
  Num (inject_Z (value_map_get value_order (py_str c) 0 (-1))).

Definition ordered_codes (value_order : list string) (col : Series) : Series :=
  mkSeries int64 (map (rank_of value_order) (values col)).

(** The categories of [pd.get_dummies]: the distinct values, numbers in
    increasing order first, then strings in increasing order. *)
Definition levels (vs : list cell) : list cell :=
  let u := unique vs in
  (map Num (sort (flat_map (fun c => match c with Num q => [q] | _ => [] end) u))
   ++ map Str (sort_strings (flat_map (fun c => match c with Str s => [s] | _ => [] end) u)))%list.

Definition indicator (level c : cell) : cell :=
  if cell_eqb c level then Num 1 else Num 0.

(** [pd.get_dummies(series, prefix=col).astype(float)] *)
Definition get_dummies (prefix : string) (col : Series) : list (string * Series) :=
  map (fun level =>
         (prefix ++ "_" ++ py_str level,
          mkSeries float64 (map (indicator level) (values col))))
      (levels (values col)).

(** One turn of [for col in config['categorical_variables']:], threading the
    frame and the list [categorical_dummies]. *)
Definition categorical_step (config : Config.t) (col : string)
    (st : DataFrame * list (string * Series))
  : result (DataFrame * list (string * Series)) :=
  let (df_prep, categorical_dummies) := st in
  let details := Config.get_details config col in
  s <- get_column col df_prep ;;
  let filled := fill_missing s in
  let df_prep := set_column col filled df_prep in
  if Config.has_order details then
    match Config.value_order details with
    | None => Raise (KeyError "value_order")
    | Some value_order =>
        Ok (set_column col (ordered_codes value_order filled) df_prep, categorical_dummies)
    end
  else
    Ok (df_prep, (categorical_dummies ++ get_dummies col filled)%list).

Fixpoint categorical_loop (config : Config.t) (cols : list string)
    (st : DataFrame * list (string * Series))
  : result (DataFrame * list (string * Series)) :=
  match cols with
  | [] => Ok st
  | col :: cols' =>
      st' <- categorical_step config col st ;;
      categorical_loop config cols' st'
  end.

(** [pd.to_numeric(series.astype(str).replace('[^0-9.-]', '', regex=True),
    errors='coerce')] *)
Definition parse_cell (c : cell) : option Q :=
  to_numeric_string (strip_non_numeric (py_str c)).

Definition parse_column (col : Series) : float_col :=
  map parse_cell (values col).

(** [df_prep[col].head().tolist()], the first use of the column in the loop
    body: the label must be a column, and a label that an indicator column
    duplicated selects a frame, which has no [tolist]. *)
Definition numerical_column (col : string) (df_prep : DataFrame) : result Series :=
  if duplicated col df_prep then Raise AttributeError else get_column col df_prep.

(** One turn of [for col in config['numerical_variables']:]; whatever is
    raised inside is raised again as a [ValueError] naming the column. *)
Definition numerical_step (config : Config.t) (col : string) (df_prep : DataFrame)
  : result DataFrame :=
  let details := Config.get_details config col in
  reraise
    (s <- numerical_column col df_prep ;;
     Ok (set_column col
           (float_series (transform_numeric (Config.direction details) (parse_column s)))
           df_prep))
    (fun _ => ValueError ("Failed to process column " ++ col)).

Fixpoint numerical_loop (config : Config.t) (cols : list string) (df_prep : DataFrame)
  : result DataFrame :=
  match cols with
  | [] => Ok df_prep
  | col :: cols' =>
      df' <- numerical_step config col df_prep ;;
      numerical_loop config cols' df'
  end.

(** [str(x).lower() in ['1', 'true', 'yes', 'y', 't']] *)
Definition truthy (c : cell) : bool :=
  mem (lower (py_str c)) ["1"; "true"; "yes"; "y"; "t"].

(** Membership of a value drawn from [series.unique()] in [{0, 1, np.nan}]:
    a missing value taken out of the array is a float object of its own,
    neither identical nor equal to [np.nan], and is not found. *)
Definition in_zero_one_nan (c : cell) : bool :=
  match c with
  | Num q => Qeq_bool q 0 || Qeq_bool q 1
  | _ => false
  end.

(** Step 3, on the target column. *)
Definition prepare_target (col : Series) : result Series :=
  let target_values := unique (values col) in
  if (2 <? List.length target_values)%nat
  then Raise (ValueError "Target variable must be binary")
  else
    match dtype_of col with
    | object =>
        Ok (mkSeries int64 (map (fun c => if truthy c then Num 1 else Num 0) (values col)))
    | _ =>
        (* pd.to_numeric leaves a numeric column as it is *)
        if forallb in_zero_one_nan (unique (values col))
        then Ok col
        else Raise (ValueError "Target values must be binary (0/1)")
    end.

(** *** The validator *)

(** [pd.to_numeric(series)] succeeds. *)
Definition coercible (col : Series) : bool :=
  forallb (fun c => match c with
                    | Str s => match to_numeric_string s with Some _ => true | None => false end
                    | _ => true
                    end) (values col).

Definition in_zero_one (c : cell) : bool :=
  match c with
  | Num q => Qeq_bool q 0 || Qeq_bool q 1
  | _ => false
  end.

(** [series.nunique()]: the number of distinct non-missing values. *)
Definition nunique (col : Series) : nat :=
  List.length (unique (filter notna (values col))).

(** [df.isnull().sum().any()] *)
Definition null_counts_any (df : DataFrame) : bool :=
  existsb (fun p => existsb isna (values (snd p))) (columns df).

(** The list [non_numeric] of the columns on which [pd.to_numeric(df[col])]
    raises: a value does not convert, or [df[col]] is a frame because the
    label is duplicated. *)
Definition non_numeric (df : DataFrame) : list string :=
  map fst (filter (fun p => duplicated (fst p) df || negb (coercible (snd p)))
             (columns df)).

(** [[col for col in df.columns if df[col].nunique() == 1]] *)
Definition constant_cols (df : DataFrame) : list string :=
  map fst (filter (fun p => (nunique (snd p) =? 1)%nat) (columns df)).

Definition validate_prepared_data (df : DataFrame) (config : Config.t) : result unit :=
  let target := Config.target_variable config in
  (* Check for missing values *)
  if null_counts_any df
  then Raise (ValueError "Dataset contains missing values")
  else
    (* Check that all columns are numeric *)
    match non_numeric df with
    | _ :: _ => Raise (ValueError "Non-numeric values found")
    | [] =>
        (* Validate target variable *)
        tcol <- get_column target df ;;
        let unique_targets := unique (values tcol) in
        (* sorted(...) compares the values with one another *)
        if existsb is_str unique_targets && existsb is_num unique_targets
        then Raise TypeError
        else if negb (forallb in_zero_one unique_targets)
        then Raise (ValueError "Target must be binary (0/1)")
        else
          (* Check for constant columns *)
          match constant_cols df with
          | _ :: _ => Raise (ValueError "Constant columns found")
          | [] => Ok tt       (* correlated pairs are only logged *)
          end
    end.

(** *** prepare_analysis_data *)

(** The target as step 3 first reads it:
    [df_prep[target_var].value_counts()] groups a frame by its labels and
    raises when the target label is duplicated. *)
Definition target_column (target_var : string) (df_prep : DataFrame) : result Series :=
  if duplicated target_var df_prep
  then Raise (ValueError ("Grouper for '" ++ target_var ++ "' not 1-dimensional"))
  else get_column target_var df_prep.

Definition has_prefix_of (categorical : list string) (col : string) : bool :=
  existsb (fun cat => prefix (cat ++ "_") col) categorical.

Definition prepare_analysis_data (df : DataFrame) (config : Config.t) : result DataFrame :=
  (* 1. Handle categorical variables *)
  st <- categorical_loop config (Config.categorical_variables config) (df, []) ;;
  let (df_prep, categorical_dummies) := st in
  let df_prep := mkDataFrame (nrows df_prep) (columns df_prep ++ categorical_dummies)%list in
  (* 2. Handle numerical variables *)
  df_prep <- numerical_loop config (Config.numerical_variables config) df_prep ;;
  (* 3. Handle target variable *)
  let target_var := Config.target_variable config in
  tcol <- target_column target_var df_prep ;;
  tcol' <- prepare_target tcol ;;
  let df_prep := set_column target_var tcol' df_prep in
  (* 4. Drop original categorical columns *)
  df_prep <- drop (Config.categorical_variables config) df_prep ;;
  (* 5. Keep only relevant columns *)
  let keep_cols :=
    (target_var :: Config.numerical_variables config
     ++ filter (has_prefix_of (Config.categorical_variables config)) (column_names df_prep))%list in
  df_prep <- select keep_cols df_prep ;;
  (* 6. Validation *)
  _ <- validate_prepared_data df_prep config ;;
  Ok df_prep.

End Transformer.

End DataPreparation.

(** ** analysis.py *)

Module Analysis.

(** *** Decile binning: [pd.qcut(x, q=10, labels=[...])] *)

(** The quantile at [k]/10 (the points of [np.linspace(0, 1, 11)]) of the
    sorted values, by linear interpolation between the two neighbouring
    order statistics. *)
Definition quantile (sorted : list Q) (k : nat) : Q :=
  let n := List.length sorted in
  let pos := (inject_Z (Z.of_nat k) / 10 * inject_Z (Z.of_nat (n - 1)))%Q in
  let lo := Z.to_nat (Qfloor pos) in
  let frac := (pos - inject_Z (Qfloor pos))%Q in
  let a := nth lo sorted 0%Q in
  let b := nth (lo + 1) sorted 0%Q in
  (a + frac * (b - a))%Q.

Definition bin_edges (x : list Q) : list Q :=
  map (quantile (DataPreparation.sort x)) (seq 0 11).

(** [len(algos.unique(bins)) < len(bins)]: two edges coincide. *)
Fixpoint has_duplicates (l : list Q) : bool :=
  match l with
  | [] => false
  | q :: l' => existsb (Qeq_bool q) l' || has_duplicates l'
  end.

(** [bins.searchsorted(v, side='left')] on increasing [bins]. *)
Definition searchsorted_left (bins : list Q) (v : Q) : nat :=
  List.length (filter (fun b => Qlt_bool b v) bins).

(** The bin of one value: the lowest edge belongs to the first bin, and a
    value outside the edges has no bin. Bins are numbered from 0. *)
Definition bin_of (bins : list Q) (v : Q) : option nat :=
  let id :=
    if Qeq_bool v (hd 0%Q bins) then 1%nat else searchsorted_left bins v in
  if (id =? 0)%nat || (id =? List.length bins)%nat then None else Some (id - 1)%nat.

Definition qcut (x : list Q) : result (list (option nat)) :=
  match x with
  | [] => Raise (ValueError "Bin edges must be unique")
  | _ =>
      let bins := bin_edges x in
      if has_duplicates bins then Raise (ValueError "Bin edges must be unique")
      else Ok (map (bin_of bins) x)
  end.

Definition decile_labels : list string :=
  ["D1"; "D2"; "D3"; "D4"; "D5"; "D6"; "D7"; "D8"; "D9"; "D10"].

Definition label_of (code : option nat) : option string :=
  match code with
  | Some k => nth_error decile_labels k
  | None => None
  end.

(** *** The decile table *)

Definition code_eqb (a b : option nat) : bool :=
  match a, b with
  | Some i, Some j => (i =? j)%nat
  | None, None => true
  | _, _ => false
  end.

(** [deciles.unique()]: the labels in order of first appearance. *)
Fixpoint unique_codes (seen : list (option nat)) (codes : list (option nat))
  : list (option nat) :=
  match codes with
  | [] => []
  | c :: codes' =>
      if existsb (code_eqb c) seen then unique_codes seen codes'
      else c :: unique_codes (c :: seen) codes'
  end.

(** The target values of the rows that fall in bin [k]. *)
Fixpoint group (k : nat) (codes : list (option nat)) (y : list Q) : list Q :=
  match codes, y with
  | c :: codes', v :: y' =>
      if code_eqb c (Some k) then v :: group k codes' y' else group k codes' y'
  | _, _ => []
  end.

Definition Qsum (l : list Q) : Q := fold_right Qplus 0%Q l.

(** A float that may be not-a-number (or infinite): [None]. *)
Definition fdiv (a b : option Q) : option Q :=
  match a, b with
  | Some p, Some q => if Qeq_bool q 0 then None else Some (p / q)%Q
  | _, _ => None
  end.

(** [series.mean()] *)
Definition mean (l : list Q) : option Q :=
  match l with
  | [] => None
  | _ => Some (Qsum l / inject_Z (Z.of_nat (List.length l)))%Q
  end.

Record DecileRecord : Type := mkDecile {
  decile : option string;
  count : nat;
  response_rate : option Q;
  lift : option Q
}.

(** One row of the frame: the label, count and mean sitting at position [i]
    of their columns, with the lift computed from the mean. *)
Definition table_row (baseline_rate : option Q)
    (row : option nat * (nat * option Q)) : DecileRecord :=
  let '(label, (n, rate)) := row in
  mkDecile (label_of label) n rate (fdiv rate baseline_rate).

(** Lines 289-300 of [run_analysis]: the frame is built from three columns,
    the array [deciles.unique()] of the labels in order of appearance and
    the two group-by results, indexed by the ten categories in their order;
    the array is placed by position and must be as long as that index. *)
Definition response_rates (y probs : list Q) : result (list DecileRecord) :=
  deciles <- qcut probs ;;
  if negb (List.length y =? List.length deciles)%nat
  then Raise (ValueError "Grouper and axis must be same length")
  else
    let labels := unique_codes [] deciles in
    let counts := map (fun k => List.length (group k deciles y)) (seq 0 10) in
    let rates := map (fun k => mean (group k deciles y)) (seq 0 10) in
    if negb (List.length labels =? 10)%nat
    then Raise (ValueError "array length does not match index length")
    else
      let baseline_rate := mean y in
      Ok (map (table_row baseline_rate) (combine labels (combine counts rates))).

(** *** The result object *)

Record FeatureRow : Type := mkFeatureRow {
  fr_variable : string;
  importance : Q;
  coefficient : Q;
  effect : string
}.

Inductive analysis_result : Type :=
| Success (metrics : list (string * option Q))
          (feature_importance : list FeatureRow)
          (scoring_rules : list string)
          (response_rates : list DecileRecord)
| Failure (error : exn).

Definition format_rule_description (r : Scoring.rule) : string :=
  if Scoring.variable r =? "BASE"
  then "Start with " ++ str_of_Z (Scoring.adjustment r) ++ " points"
  else
    let direction := if (0 <? Scoring.adjustment r)%Z then "Add" else "Subtract" in
    let points := Z.abs (Scoring.adjustment r) in
    Scoring.description r ++ ", " ++ direction ++ " " ++ str_of_Z points ++ " points".

Definition interpret_feature_importance (rows : list FeatureRow) : list FeatureRow :=
  map (fun r => mkFeatureRow (fr_variable r) (importance r) (coefficient r)
                  (if Qlt_bool 0 (coefficient r) then "positive" else "negative"))
      rows.

Section Pipeline.

Variable str_of_number : Q -> string.
Variable to_numeric_string : string -> option Q.
Variable format_2f : Q -> string.

(** The fitted classifier enters through what the pipeline reads from it:
    from the feature frame and the target, the coefficients (one per
    feature), the feature-importance rows in their sorted order, and the
    predicted probability of every row. *)
Variable fit : DataFrame -> list cell -> result (list Q * list FeatureRow * list Q).

Definition target_number (c : cell) : result Q :=
  match c with
  | Num q => Ok q
  | _ => Raise TypeError
  end.

(** The body of the [try:] block, from the loaded table on; the writes to
    the warehouse are left out. *)
Definition run_analysis_body (df : DataFrame) (config : Config.t)
  : result analysis_result :=
  match Config.source_table config with
  | None => Raise (ValueError "Source table not specified in configuration")
  | Some source_table =>
      (* [if not source_table:] also refuses the empty string *)
      if source_table =? ""
      then Raise (ValueError "Source table not specified in configuration")
      else if (nrows df =? 0)%nat then Raise (ValueError "Table is empty")
      else
        df_prep <- reraise
                     (DataPreparation.prepare_analysis_data
                        str_of_number to_numeric_string df config)
                     (fun _ => ValueError "Data preparation failed") ;;
        let target_var := Config.target_variable config in
        y <- get_column target_var df_prep ;;
        X <- DataPreparation.drop [target_var] df_prep ;;
        if (nrows X <? 100)%nat
        then Raise (ValueError "Insufficient data for analysis. Minimum 100 rows required")
        else
          fitted <- fit X (values y) ;;
          let '(coef, importance_rows, regression_scores) := fitted in
          let feature_importance := interpret_feature_importance importance_rows in
          scoring_rules <- Scoring.generate_scoring_rules format_2f df_prep coef
                             (DataPreparation.column_names X) config ;;
          simple_scores <- Scoring.apply_scoring_rules df_prep scoring_rules ;;
          y_values <- mapM target_number (values y) ;;
          response_rates <- response_rates y_values regression_scores ;;
          let baseline_rate := mean y_values in
          let top_decile_rate := last (map response_rate response_rates) None in
          Ok (Success [("baseline_rate", baseline_rate);
                       ("top_decile_rate", top_decile_rate)]
                      feature_importance
                      (map format_rule_description scoring_rules)
                      response_rates)
  end.

(** [except Exception as e: return {'success': False, 'error': str(e)}] *)
Definition run_analysis (df : DataFrame) (config : Config.t) : analysis_result :=
  match run_analysis_body df config with
  | Ok r => r
  | Raise e => Failure e
  end.

End Pipeline.

End Analysis.

(** ** scoring.py: score ranges *)

Module ScoreRanges.

Definition labels : list string := ["Very Low"; "Low"; "Medium"; "High"; "Very High"].

(** [scores.min()] and [scores.max()] of a series of integers; missing when
    the series is empty. *)
Definition min_of (scores : list Z) : option Z :=
  match scores with
  | [] => None
  | s :: rest => Some (fold_left Z.min rest s)
  end.

Definition max_of (scores : list Z) : option Z :=
  match scores with
  | [] => None
  | s :: rest => Some (fold_left Z.max rest s)
  end.

(** The six edges: one below the minimum, four steps of a fifth of the
    spread, one above the maximum. *)
Definition bins (min_score max_score : Z) : list Q :=
  let range_size := ((inject_Z max_score - inject_Z min_score) / 5)%Q in
  [ inject_Z (min_score - 1);
    inject_Z min_score + range_size;
    inject_Z min_score + 2 * range_size;
    inject_Z min_score + 3 * range_size;
    inject_Z min_score + 4 * range_size;
    inject_Z (max_score + 1) ]%Q.

(** [(np.diff(bins) < 0).any()] *)
Fixpoint decreases (l : list Q) : bool :=
  match l with
  | a :: (b :: _) as rest => Qlt_bool b a || decreases rest
  | _ => false
  end.

(** The bin of a score, right edge included; a score outside the edges
    has none. *)
Definition cut (edges : list Q) (score : Z) : option nat :=
  let id := Analysis.searchsorted_left edges (inject_Z score) in
  if (id =? 0)%nat || (id =? List.length edges)%nat then None else Some (id - 1)%nat.

(** The scores that fall in bin [k]. *)
Definition members (edges : list Q) (scores : list Z) (k : nat) : list Z :=
  filter (fun s => Analysis.code_eqb (cut edges s) (Some k)) scores.

(** [.round(1)]: to the nearest tenth, ties to the even tenth. *)
Definition round1 (q : Q) : Q := (inject_Z (Qround_half_even (q * 10)) / 10)%Q.

Record range_row : Type := mkRow {
  count : nat;
  min_score : option Z;
  max_score : option Z;
  avg_score : option Q;
  percentage : Q
}.

Definition mean_of (group : list Z) : option Q :=
  match group with
  | [] => None
  | _ => Some (round1 (inject_Z (fold_right Z.add 0 group)
                       / inject_Z (Z.of_nat (List.length group))))
  end.

Definition stats (total : nat) (group : list Z) : range_row :=
  mkRow (List.length group) (min_of group) (max_of group) (mean_of group)
        (round1 (inject_Z (Z.of_nat (List.length group))
                 / inject_Z (Z.of_nat total) * 100)).

(** [get_score_ranges]: the frame of statistics, as the row found under
    each label (the order in which the frame lists its rows is not
    represented). *)
Definition get_score_ranges (scores : list Z) : result (list (string * range_row)) :=
  match min_of scores, max_of scores with
  | Some min_score, Some max_score =>
      let edges := bins min_score max_score in
      if decreases edges then Raise (ValueError "bins must increase monotonically.")
      else if Analysis.has_duplicates edges
      then Raise (ValueError "Bin edges must be unique")
      else
        Ok (combine labels
              (map (fun k => stats (List.length scores) (members edges scores k))
                   (seq 0 5)))
  | _, _ => Raise (ValueError "Bin edges must be unique")   (* no score: every edge is missing *)
  end.

End ScoreRanges.

(** ** data_utils.py: column names *)

Module DataUtils.

Definition underscore : ascii := "_"%char.

(** The class [[a-zA-Z0-9]]. *)
Definition is_alnum (a : ascii) : bool :=
  let n := nat_of_ascii a in
  ((48 <=? n)%nat && (n <=? 57)%nat)
  || ((65 <=? n)%nat && (n <=? 90)%nat)
  || ((97 <=? n)%nat && (n <=? 122)%nat).

(** [re.sub(r'[^a-zA-Z0-9]', '_', s)] *)
Fixpoint replace_special (s : string) : string :=
  match s with
  | EmptyString => EmptyString
  | String a s' => String (if is_alnum a then a else underscore) (replace_special s')
  end.

Definition starts_with_underscore (s : string) : bool :=
  match s with
  | String a _ => Ascii.eqb a underscore
  | EmptyString => false
  end.

(** [re.sub(r'_+', '_', s)]: of a run of underscores the last one is kept. *)
Fixpoint collapse_underscores (s : string) : string :=
  match s with
  | EmptyString => EmptyString
  | String a s' =>
      if Ascii.eqb a underscore && starts_with_underscore s'
      then collapse_underscores s'
      else String a (collapse_underscores s')
  end.

(** [s.strip('_')], from the left and from the right. *)
Fixpoint lstrip (s : string) : string :=
  match s with
  | EmptyString => EmptyString
  | String a s' => if Ascii.eqb a underscore then lstrip s' else s
  end.

Fixpoint rstrip (s : string) : string :=
  match s with
  | EmptyString => EmptyString
  | String a s' =>
      match rstrip s' with
      | EmptyString => if Ascii.eqb a underscore then EmptyString else String a EmptyString
      | r => String a r
      end
  end.

Definition strip (s : string) : string := rstrip (lstrip s).

(** The inner function [normalize_name]; [str.lower] is taken on the
    letters A to Z, which is what it does on an ASCII name. *)
Definition normalize_name (name : string) : string :=
  let normalized := replace_special (DataPreparation.lower name) in
  let normalized := collapse_underscores normalized in
  strip normalized.

(** A dictionary with string keys and values: the items in insertion
    order; setting a key that is there replaces its value in place. *)
Definition dict : Type := list (string * string).

Fixpoint dict_set (k v : string) (d : dict) : dict :=
  match d with
  | [] => [(k, v)]
  | (k', v') :: d' =>
      if k' =? k then (k', v) :: d' else (k', v') :: dict_set k v d'
  end.

Definition dict_get (k : string) (d : dict) : option string :=
  option_map snd (find (fun p => fst p =? k) d).

(** [{col: normalize_name(col) for col in df.columns}] *)
Definition name_mapping_of (cols : list string) : dict :=
  fold_left (fun d col => dict_set col (normalize_name col) d) cols [].

(** [{v: k for k, v in name_mapping.items()}] *)
Definition reverse_mapping_of (name_mapping : dict) : dict :=
  fold_left (fun d item => dict_set (snd item) (fst item) d) name_mapping [].

(** [df.rename(columns=name_mapping)] *)
Definition rename (name_mapping : dict) (df : DataFrame) : DataFrame :=
  mkDataFrame (nrows df)
    (map (fun p => (match dict_get (fst p) name_mapping with
                    | Some n => n
                    | None => fst p
                    end, snd p)) (columns df)).

Definition normalize_column_names (df : DataFrame) : DataFrame * dict * dict :=
  let name_mapping := name_mapping_of (map fst (columns df)) in
  let reverse_mapping := reverse_mapping_of name_mapping in
  let df_normalized := rename name_mapping df in
  (df_normalized, name_mapping, reverse_mapping).

End DataUtils.

(** ** snowflake_utils.py: execute_with_retry

    The warehouse driver is outside the program. Each call made to it
    either returns or raises, and what it does is given by a [world]: the
    answer to the call made when [n] calls have been made before it. The
    calls are logged with their answers. *)

Module Snowflake.

(** An exception raised by the driver: a [connector.errors.OperationalError]
    or any other [Exception]; [id] tells exceptions apart. *)
Inductive fault : Type :=
| Operational (id : nat)
| Other (id : nat).

Inductive call : Type :=
| Cursor                      (* conn.cursor() *)
| Execute (sql : string)      (* cursor.execute(sql, params) *)
| ExecuteMany (sql : string)  (* cursor.executemany(sql, params) *)
| Commit                      (* conn.commit() *)
| Rollback                    (* conn.rollback() *)
| Close                       (* cursor.close() *)
| Connect.                    (* init_connection() *)

Definition event : Type := (call * option fault)%type.

Definition world : Type := nat -> call -> option fault.

Definition invoke (w : world) (c : call) (log : list event)
  : option fault * list event :=
  let r := w (List.length log) c in
  (r, (log ++ [(c, r)])%list).

(** [sql.replace('?', '%s')] *)
Fixpoint replace_placeholders (sql : string) : string :=
  match sql with
  | EmptyString => EmptyString
  | String a s =>
      if Ascii.eqb a "?"
      then String "%" (String "s" (replace_placeholders s))
      else String a (replace_placeholders s)
  end.

Inductive outcome : Type :=
| ReturnCursor            (* return cursor *)
| ReturnNone              (* return None *)
| Raises (e : fault).

(** The body of the outer [try:]: [None] when [return cursor] is reached
    and the [finally:] clause lets it through, otherwise the exception
    that leaves the block. *)
Definition attempt (w : world) (sql : string) (many : bool) (log : list event)
  : option fault * list event :=
  let (r, log) := invoke w Cursor log in
  match r with
  | Some e => (Some e, log)
  | None =>
      (* try: execute, commit *)
      let (body, log) :=
        let (r, log) := invoke w (if many then ExecuteMany sql else Execute sql) log in
        match r with
        | Some e => (Some e, log)
        | None => invoke w Commit log
        end in
      (* except Exception as e: conn.rollback(); raise *)
      let (in_flight, log) :=
        match body with
        | None => (None, log)
        | Some e =>
            let (r, log) := invoke w Rollback log in
            (Some (match r with Some e2 => e2 | None => e end), log)
        end in
      (* finally: cursor.close() *)
      let (r, log) := invoke w Close log in
      (match r with Some e3 => Some e3 | None => in_flight end, log)
  end.

(** [for attempt in range(max_retries):] with [remaining] turns to go; the
    last turn is the one with [attempt == max_retries - 1]. *)
Fixpoint retry_loop (w : world) (sql : string) (many : bool) (remaining : nat)
    (log : list event) : outcome * list event :=
  match remaining with
  | O => (ReturnNone, log)
  | S k =>
      let (r, log) := attempt w sql many log in
      match r with
      | None => (ReturnCursor, log)
      | Some (Other id) => (Raises (Other id), log)
      | Some (Operational id) =>
          match k with
          | O => (Raises (Operational id), log)
          | S _ =>
              let (r, log) := invoke w Connect log in
              match r with
              | Some e => (Raises e, log)
              | None => retry_loop w sql many k log
              end
          end
      end
  end.

(** [many] is [isinstance(params, list)]. *)
Definition execute_with_retry (w : world) (sql : string) (many : bool)
    (max_retries : Z) : outcome * list event :=
  retry_loop w (replace_placeholders sql) many (Z.to_nat max_retries) [].

End Snowflake.

(** ** Vocabulary of the statements

    The notions in which the properties of Part II are phrased. *)

Import Scoring.

(** The predicate of a rule on row [i], in the words of the specification:
    a threshold rule holds when the column value exceeds the threshold, a
    [present] rule when the value is 1 (float64 and int64 columns) or
    non-missing (other columns); a rule on an absent column, or of another
    kind, never holds. *)
Definition predicate_holds (df : DataFrame) (r : rule) (i : nat) : bool :=
  match find (fun p => fst p =? variable r) (columns df) with
  | None => false
  | Some (_, col) =>
      let c := nth i (values col) NaN in
      if prefix ">" (condition r) then
        match threshold r, c with
        | Some t, Num q => Qlt_bool t q
        | _, _ => false
        end
      else if condition r =? "present" then
        if numeric_dtype (dtype_of col) then eq_one c else notna c
      else false
  end.

Definition contribution (df : DataFrame) (i : nat) (r : rule) : Z :=
  if negb (is_base r) && predicate_holds df r i then adjustment r else 0.

(** [score(row) = baseAdjustment + sum(adjustment of the non-base rules
    whose predicate holds on row)] *)
Definition additive_score (df : DataFrame) (rules : list rule) (b : Z) (i : nat) : Z :=
  b + fold_right Z.add 0 (map (contribution df i) rules).

(** What a rule set must satisfy for the evaluator not to raise: a threshold
    rule on a column of the frame carries its threshold, and that column
    holds no string. *)
Definition threshold_ready (df : DataFrame) (r : rule) : bool :=
  is_base r
  || match find (fun p => fst p =? variable r) (columns df) with
     | None => true
     | Some (_, col) =>
         negb (prefix ">" (condition r))
         || match threshold r with
            | Some _ => forallb (fun c => negb (is_str c)) (values col)
            | None => false
            end
     end.

(** The observed range of a column: its least and greatest number. *)
Definition observed_min (col : Series) (lo : Q) : Prop :=
  In (Num lo) (values col) /\ forall q, In (Num q) (values col) -> (lo <= q)%Q.

Definition observed_max (col : Series) (hi : Q) : Prop :=
  In (Num hi) (values col) /\ forall q, In (Num q) (values col) -> (q <= hi)%Q.

Definition bound_from (configured : option Q) (observed : Q -> Prop) (b : Q) : Prop :=
  match configured with
  | Some m => b = m
  | None => observed b
  end.

Definition var_type_of (config : Config.t) (feature_name : string) : string :=
  match Config.type_ (Config.get_details config (before_underscore feature_name)) with
  | Some ty => ty
  | None => "categorical"
  end.

Definition present_rule (feature_name : string) (adj : Z) (text : string) : rule :=
  mkRule feature_name "present" None adj text.




(** A frame none of whose cells is a string. *)
Definition no_strings (df : DataFrame) : bool :=
  forallb (fun p => forallb (fun c => negb (is_str c)) (values (snd p))) (columns df).

(** A rule as the evaluator reads it: a threshold rule with its threshold,
    or a [present] rule. *)
Definition evaluable (r : rule) : Prop :=
  (prefix ">" (condition r) = true /\ exists t, threshold r = Some t)
  \/ (condition r = "present" /\ threshold r = None).

(** A frame every column of which holds one cell per row. *)
Definition uniform_columns (df : DataFrame) : bool :=
  forallb (fun p => (List.length (values (snd p)) =? nrows df)%nat) (columns df).

(** The characters of a normalized column name. *)
Definition name_char (a : ascii) : bool :=
  let n := nat_of_ascii a in
  ((48 <=? n)%nat && (n <=? 57)%nat)
  || ((97 <=? n)%nat && (n <=? 122)%nat)
  || Ascii.eqb a DataUtils.underscore.

Fixpoint all_chars (p : ascii -> bool) (s : string) : bool :=
  match s with
  | EmptyString => true
  | String a s' => p a && all_chars p s'
  end.

Fixpoint no_double_underscore (s : string) : bool :=
  match s with
  | EmptyString => true
  | String a s' =>
      negb (Ascii.eqb a DataUtils.underscore && DataUtils.starts_with_underscore s')
      && no_double_underscore s'
  end.

Fixpoint ends_with_underscore (s : string) : bool :=
  match s with
  | EmptyString => false
  | String a EmptyString => Ascii.eqb a DataUtils.underscore
  | String _ s' => ends_with_underscore s'
  end.

(** Counting the calls of a log. *)
Definition count (p : Snowflake.event -> bool) (log : list Snowflake.event) : nat :=
  List.length (filter p log).

Definition is_cursor (e : Snowflake.event) : bool :=
  match fst e with Snowflake.Cursor => true | _ => false end.

Definition is_opened (e : Snowflake.event) : bool :=
  match e with (Snowflake.Cursor, None) => true | _ => false end.

Definition is_close (e : Snowflake.event) : bool :=
  match fst e with Snowflake.Close => true | _ => false end.

Definition is_connect (e : Snowflake.event) : bool :=
  match fst e with Snowflake.Connect => true | _ => false end.

Definition is_rollback (e : Snowflake.event) : bool :=
  match fst e with Snowflake.Rollback => true | _ => false end.

Definition is_commit (e : Snowflake.event) : bool :=
  match fst e with Snowflake.Commit => true | _ => false end.

Definition statement_of (e : Snowflake.event) : option string :=
  match fst e with
  | Snowflake.Execute s | Snowflake.ExecuteMany s => Some s
  | _ => None
  end.

Definition is_statement (e : Snowflake.event) : bool :=
  match statement_of e with Some _ => true | None => false end.

(** A statement or a commit that raised. *)
Definition is_failed_work (e : Snowflake.event) : bool :=
  match e with
  | (Snowflake.Execute _, Some _) | (Snowflake.ExecuteMany _, Some _)
  | (Snowflake.Commit, Some _) => true
  | _ => false
  end.

(** ** Sample data

    Concrete frames, rule sets and configurations on which the definitions
    above are evaluated in Part II, with plain-decimal instances of the
    Python primitives that the transformer and the generator take as
    given. *)

Module Samples.

Definition two_digits (n : Z) : string :=
  if (n <? 10)%Z then "0" ++ str_of_Z n else str_of_Z n.

(** Two-decimal rendering: round half to even on the hundredths. *)
Definition two_decimals (q : Q) : string :=
  let h := Qround_half_even (Qabs q * 100) in
  (if Qlt_bool q 0 then "-" else "")
  ++ str_of_Z (h / 100) ++ "." ++ two_digits (h mod 100).

(** Integers print as their digits, other numbers with two decimals. *)
Definition decimal_str (q : Q) : string :=
  if Qeq_bool q (inject_Z (Qfloor q)) then str_of_Z (Qfloor q) else two_decimals q.

Definition digit_of (a : ascii) : option Z :=
  let n := nat_of_ascii a in
  if ((48 <=? n)%nat && (n <=? 57)%nat)%bool then Some (Z.of_nat (n - 48)) else None.

Fixpoint parse_digits (s : string) (acc : Z) (scale : positive) (frac seen : bool)
  : option Q :=
  match s with
  | EmptyString => if seen then Some (acc # scale) else None
  | String a s' =>
      if Ascii.eqb a "." then
        if frac then None else parse_digits s' acc scale true seen
      else
        match digit_of a with
        | Some d =>
            parse_digits s' (acc * 10 + d) (if frac then scale * 10 else scale)%positive
                         frac true
        | None => None
        end
  end.

(** Plain decimal notation: an optional sign, digits, an optional point. *)
Definition parse_decimal (s : string) : option Q :=
  match s with
  | String "-" s' => option_map Qopp (parse_digits s' 0 1 false false)
  | _ => parse_digits s 0 1 false false
  end.



(** A frame whose numeric column is min-max scaled. *)
Definition scaled_frame : DataFrame :=
  mkDataFrame 3
    [ ("bought", mkSeries int64 [Num 1; Num 0; Num 1]);
      ("x", mkSeries float64 [Num 0; Num (1 # 2); Num 1]);
      ("region_east", mkSeries float64 [Num 1; Num 0; Num 0]) ].

Definition numerical (r : option Config.range_value) : Config.details :=
  Config.mkDetails (Some "numerical") false None (Some "Higher values are better") r.

(** [x] is numerical with a configured range of 10 to 50, given as a dict. *)
(** A prepared frame with a missing cell in [x] and a constant column [k]. *)
Definition flawed_frame : DataFrame :=
  mkDataFrame 3
    [ ("bought", mkSeries int64 [Num 1; Num 0; Num 1]);
      ("x", mkSeries float64 [Num 0; NaN; Num 1]);
      ("k", mkSeries float64 [Num 7; Num 7; Num 7]) ].

(** A raw table: a binary target, an ordered and an unordered categorical
    variable, a numerical variable written with currency signs, and a
    column that happens to start with [region_]. *)
Definition raw_frame : DataFrame :=
  mkDataFrame 4
    [ ("bought", mkSeries int64 [Num 1; Num 0; Num 1; Num 0]);
      ("tier", mkSeries object [Str "gold"; Str "silver"; NaN; Str "gold"]);
      ("region", mkSeries object [Str "east"; Str "west"; Str "east"; NaN]);
      ("spend", mkSeries object [Str "$10"; Str "$50"; Str "30"; Str "n/a"]);
      ("region_code", mkSeries float64 [Num 1; Num 2; Num 3; Num 4]) ].

Definition raw_config : Config.t :=
  Config.mkConfig "bought" ["tier"; "region"] ["spend"]
    [ ("tier", Config.mkDetails (Some "categorical") true (Some ["gold"; "silver"]) None None);
      ("region", Config.mkDetails (Some "categorical") false None None None);
      ("spend", Config.mkDetails (Some "numerical") false None
                  (Some "Lower values are better")
                  (Some (Config.RangeList [10; 50]%Q))) ]
    (Some "RAW_DATA.UPLOAD_1").

(** A hundred rows listed from the highest predicted probability (1.00)
    down to the lowest (0.01); the ten most probable rows responded. *)
Definition descending_probabilities : list Q :=
  map (fun i => Z.of_nat (100 - i) # 100) (seq 0 100).

Definition top_ten_respond : list Q :=
  map (fun i => if (i <? 10)%nat then 1%Q else 0%Q) (seq 0 100).

(** A loaded table of a hundred rows with the target [bought] and one
    numerical variable, its configuration, and a stand-in for the fitted
    model: one coefficient and the probabilities above. *)
Definition campaign_frame : DataFrame :=
  mkDataFrame 100
    [ ("bought", mkSeries int64 (map Num top_ten_respond));
      ("x", mkSeries float64 (map Num descending_probabilities)) ].

Definition campaign_config : Config.t :=
  Config.mkConfig "bought" [] ["x"] [ ("x", numerical None) ]
    (Some "RAW_DATA.UPLOAD_1").

Definition fitted_model (X : DataFrame) (y : list cell)
  : result (list Q * list Analysis.FeatureRow * list Q) :=
  Ok ([1 # 2]%Q, [Analysis.mkFeatureRow "x" (1 # 2) (1 # 2) ""], descending_probabilities).

Definition ranged_config : Config.t :=
  Config.mkConfig "bought" ["region"] ["x"]
    [ ("x", numerical (Some (Config.RangeDict (Some 10%Q) (Some 50%Q)))) ]
    (Some "RAW_DATA.UPLOAD_1").

End Samples.

(* ================================================================== *)
(** * Part II: properties *)
(* ================================================================== *)

(** ** The rule evaluator is additive (scoring.py) *)

Section EvaluatorFacts.

Lemma add_where_length mask adj scores :
  List.length (add_where mask adj scores) = List.length scores.
Proof.
  revert mask; induction scores as [|s scores IH]; intros [|m mask]; simpl; auto.
Qed.

Lemma add_where_nth mask adj scores i :
  (i < List.length scores)%nat ->
  nth i (add_where mask adj scores) 0 =
  nth i scores 0 + (if nth i mask false then adj else 0).
Proof.
  revert mask i; induction scores as [|s scores IH]; intros mask i Hi; simpl in Hi.
  - lia.
  - destruct mask as [|m mask]; destruct i as [|i]; simpl.
    + lia.
    + lia.
    + destruct m; lia.
    + apply IH; lia.
Qed.

Lemma mapM_gt_nth t vs mask i :
  mapM (gt_cell t) vs = Ok mask ->
  nth i mask false =
  match nth i vs NaN with Num q => Qlt_bool t q | _ => false end.
Proof.
  revert mask i; induction vs as [|c vs IH]; intros mask i H; simpl in H.
  - inversion H; subst; destruct i; reflexivity.
  - destruct (gt_cell t c) as [b|e] eqn:Hc; simpl in H; [|discriminate].
    destruct (mapM (gt_cell t) vs) as [bs|e] eqn:Hm; simpl in H; [|discriminate].
    inversion H; subst; clear H.
    destruct i as [|i]; simpl.
    + destruct c; simpl in Hc; inversion Hc; reflexivity.
    + apply IH; reflexivity.
Qed.

Lemma mapM_gt_total t vs :
  forallb (fun c => negb (is_str c)) vs = true ->
  exists mask, mapM (gt_cell t) vs = Ok mask.
Proof.
  induction vs as [|c vs IH]; simpl; intros H.
  - eexists; reflexivity.
  - apply andb_prop in H; destruct H as [Hc Hvs].
    destruct (IH Hvs) as [mask Hm]; rewrite Hm.
    destruct c; simpl in *; try discriminate; eexists; reflexivity.
Qed.

Lemma map_nth_false (f : cell -> bool) vs i :
  f NaN = false -> nth i (map f vs) false = f (nth i vs NaN).
Proof.
  intros Hf; rewrite <- Hf at 1; apply map_nth.
Qed.

Lemma get_column_find label df :
  get_column label df =
  match find (fun p => fst p =? label) (columns df) with
  | Some p => Ok (snd p)
  | None => Raise (KeyError label)
  end.
Proof. reflexivity. Qed.

Lemma has_column_find label df :
  has_column label df =
  match find (fun p => fst p =? label) (columns df) with
  | Some _ => true
  | None => false
  end.
Proof.
  unfold has_column; induction (columns df) as [|p cols IH]; simpl; auto.
  destruct (fst p =? label); simpl; auto.
Qed.

(** One rule adds its adjustment exactly on the rows where it contributes. *)
Lemma apply_rule_sound df r scores out :
  apply_rule df r scores = Ok out ->
  List.length out = List.length scores /\
  forall i, (i < List.length scores)%nat ->
            nth i out 0 = nth i scores 0 + contribution df i r.
Proof.
  unfold apply_rule, contribution, predicate_holds.
  destruct (is_base r) eqn:Hb; simpl.
  { intros H; inversion H; subst; split; [reflexivity | intros; lia]. }
  rewrite has_column_find, get_column_find.
  destruct (find (fun p => fst p =? variable r) (columns df)) as [[l col]|] eqn:Hf; simpl.
  2:{ intros H; inversion H; subst; split; [reflexivity | intros; lia]. }
  unfold rule_mask.
  destruct (prefix ">" (condition r)) eqn:Hp.
  - destruct (threshold r) as [t|]; simpl; [|discriminate].
    destruct (mapM (gt_cell t) (values col)) as [mask|e] eqn:Hm; simpl; [|discriminate].
    intros H; inversion H; subst; clear H.
    split; [apply add_where_length|].
    intros i Hi; rewrite add_where_nth by assumption.
    rewrite (mapM_gt_nth _ _ _ i Hm); reflexivity.
  - destruct (condition r =? "present") eqn:Hc; simpl.
    + destruct (numeric_dtype (dtype_of col)); simpl;
        intros H; inversion H; subst; clear H;
        (split; [apply add_where_length|]);
        intros i Hi; rewrite add_where_nth by assumption;
        rewrite map_nth_false by reflexivity; reflexivity.
    + intros H; inversion H; subst; split; [reflexivity | intros; lia].
Qed.

Lemma apply_rule_total df r scores :
  threshold_ready df r = true -> exists out, apply_rule df r scores = Ok out.
Proof.
  unfold threshold_ready, apply_rule.
  destruct (is_base r); simpl; [eexists; reflexivity|].
  rewrite has_column_find, get_column_find.
  destruct (find (fun p => fst p =? variable r) (columns df)) as [[l col]|]; simpl;
    [|eexists; reflexivity].
  unfold rule_mask.
  destruct (prefix ">" (condition r)); simpl.
  - destruct (threshold r) as [t|]; [|discriminate].
    intros H; destruct (mapM_gt_total t _ H) as [mask Hm]; rewrite Hm; simpl.
    eexists; reflexivity.
  - intros _. destruct (condition r =? "present"); simpl;
      [destruct (numeric_dtype (dtype_of col))|]; simpl; eexists; reflexivity.
Qed.

Lemma apply_rules_sound df rules : forall scores out,
  apply_rules df rules scores = Ok out ->
  List.length out = List.length scores /\
  forall i, (i < List.length scores)%nat ->
            nth i out 0 =
            nth i scores 0 + fold_right Z.add 0 (map (contribution df i) rules).
Proof.
  induction rules as [|r rules IH]; simpl; intros scores out H.
  - inversion H; subst; split; [reflexivity | intros; lia].
  - destruct (apply_rule df r scores) as [mid|e] eqn:Hr; simpl in H; [|discriminate].
    destruct (apply_rule_sound _ _ _ _ Hr) as [Hlen Hnth].
    destruct (IH _ _ H) as [Hlen' Hnth'].
    split; [congruence|].
    intros i Hi. rewrite Hnth' by (rewrite Hlen; assumption).
    rewrite Hnth by assumption. lia.
Qed.

Lemma apply_rules_total df rules : forall scores,
  forallb (threshold_ready df) rules = true ->
  exists out, apply_rules df rules scores = Ok out.
Proof.
  induction rules as [|r rules IH]; simpl; intros scores H.
  - eexists; reflexivity.
  - apply andb_prop in H; destruct H as [Hr Hrs].
    destruct (apply_rule_total df r scores Hr) as [mid Hmid]; rewrite Hmid; simpl.
    apply IH; assumption.
Qed.

End EvaluatorFacts.



(** ** The rule generator (scoring.py) *)

Section GeneratorFacts.

Variable format_2f : Q -> string.

Lemma Qmin_b_cases a b :
  (Qmin_b a b = a \/ Qmin_b a b = b) /\ (Qmin_b a b <= a)%Q /\ (Qmin_b a b <= b)%Q.
Proof.
  unfold Qmin_b. destruct (Qle_bool a b) eqn:H.
  - apply Qle_bool_iff in H. repeat split; auto; apply Qle_refl.
  - assert (~ (a <= b)%Q) by (rewrite <- Qle_bool_iff; congruence).
    repeat split; auto; [apply Qlt_le_weak, Qnot_le_lt; assumption | apply Qle_refl].
Qed.

Lemma Qmax_b_cases a b :
  (Qmax_b a b = a \/ Qmax_b a b = b) /\ (a <= Qmax_b a b)%Q /\ (b <= Qmax_b a b)%Q.
Proof.
  unfold Qmax_b. destruct (Qle_bool a b) eqn:H.
  - apply Qle_bool_iff in H. repeat split; auto; apply Qle_refl.
  - assert (~ (a <= b)%Q) by (rewrite <- Qle_bool_iff; congruence).
    repeat split; auto; [apply Qle_refl | apply Qlt_le_weak, Qnot_le_lt; assumption].
Qed.

Lemma extremum_min cs : forall a out,
  extremum Qmin_b smin (SNum a) cs = Ok out ->
  exists r, out = SNum r /\ (r = a \/ In (Num r) cs) /\ (r <= a)%Q
            /\ forall q, In (Num q) cs -> (r <= q)%Q.
Proof.
  induction cs as [|c cs IH]; simpl; intros a out H.
  - inversion H; subst. exists a; repeat split; auto; [apply Qle_refl | tauto].
  - destruct c as [q|s|]; [| discriminate |].
    + destruct (IH _ _ H) as [r [-> [Hin [Hle Hall]]]].
      destruct (Qmin_b_cases a q) as [Hc [Ha Hq]].
      exists r; repeat split.
      * destruct Hin as [->|Hin]; [destruct Hc as [->| ->]|]; auto.
      * eapply Qle_trans; eauto.
      * intros q' [E|Hin']; [inversion E; subst; eapply Qle_trans; eauto | auto].
    + destruct (IH _ _ H) as [r [-> [Hin [Hle Hall]]]].
      exists r; repeat split; auto.
      * destruct Hin; auto.
      * intros q' [E|Hin']; [discriminate | auto].
Qed.

Lemma extremum_max cs : forall a out,
  extremum Qmax_b smax (SNum a) cs = Ok out ->
  exists r, out = SNum r /\ (r = a \/ In (Num r) cs) /\ (a <= r)%Q
            /\ forall q, In (Num q) cs -> (q <= r)%Q.
Proof.
  induction cs as [|c cs IH]; simpl; intros a out H.
  - inversion H; subst. exists a; repeat split; auto; [apply Qle_refl | tauto].
  - destruct c as [q|s|]; [| discriminate |].
    + destruct (IH _ _ H) as [r [-> [Hin [Hle Hall]]]].
      destruct (Qmax_b_cases a q) as [Hc [Ha Hq]].
      exists r; repeat split.
      * destruct Hin as [->|Hin]; [destruct Hc as [->| ->]|]; auto.
      * eapply Qle_trans; eauto.
      * intros q' [E|Hin']; [inversion E; subst; eapply Qle_trans; eauto | auto].
    + destruct (IH _ _ H) as [r [-> [Hin [Hle Hall]]]].
      exists r; repeat split; auto.
      * destruct Hin; auto.
      * intros q' [E|Hin']; [discriminate | auto].
Qed.

Lemma extremum_str_not_num fq fs cs : forall a r,
  extremum fq fs (SStr a) cs <> Ok (SNum r).
Proof.
  induction cs as [|c cs IH]; simpl; intros a r H.
  - discriminate.
  - destruct c; [discriminate | eapply IH; eauto | eapply IH; eauto].
Qed.

Lemma in_non_missing (col : Series) c cs q :
  filter notna (values col) = c :: cs ->
  (In (Num q) (c :: cs) <-> In (Num q) (values col)).
Proof.
  intros H; rewrite <- H, filter_In; simpl; tauto.
Qed.

(** The minimum taken over the non-missing cells is the observed minimum. *)
Lemma series_min_observed (col : Series) c cs lo :
  filter notna (values col) = c :: cs ->
  series_extremum Qmin_b smin col c cs = Ok (SNum lo) ->
  observed_min col lo.
Proof.
  intros Hf H. unfold series_extremum in H.
  destruct (existsb is_str (values col) && existsb isna (values col)); [discriminate|].
  destruct c as [q|s|]; [| exfalso; eapply extremum_str_not_num; eauto | discriminate].
  destruct (extremum_min _ _ _ H) as [r [E [Hin [Hle Hall]]]].
  inversion E; subst r. split.
  - apply (in_non_missing col (Num q) cs lo Hf).
    destruct Hin as [->|Hin]; simpl; auto.
  - intros q' Hq'. apply (in_non_missing col (Num q) cs q' Hf) in Hq'.
    destruct Hq' as [E'|Hq']; [inversion E'; subst; assumption | auto].
Qed.

Lemma series_max_observed (col : Series) c cs hi :
  filter notna (values col) = c :: cs ->
  series_extremum Qmax_b smax col c cs = Ok (SNum hi) ->
  observed_max col hi.
Proof.
  intros Hf H. unfold series_extremum in H.
  destruct (existsb is_str (values col) && existsb isna (values col)); [discriminate|].
  destruct c as [q|s|]; [| exfalso; eapply extremum_str_not_num; eauto | discriminate].
  destruct (extremum_max _ _ _ H) as [r [E [Hin [Hle Hall]]]].
  inversion E; subst r. split.
  - apply (in_non_missing col (Num q) cs hi Hf).
    destruct Hin as [->|Hin]; simpl; auto.
  - intros q' Hq'. apply (in_non_missing col (Num q) cs q' Hf) in Hq'.
    destruct Hq' as [E'|Hq']; [inversion E'; subst; assumption | auto].
Qed.

Lemma threshold_at_inv f lo hi t :
  threshold_at f lo hi = Ok t ->
  exists a b, lo = SNum a /\ hi = SNum b /\ t = (a + f * (b - a))%Q.
Proof.
  destruct lo, hi; simpl; intros H; inversion H; eauto.
Qed.

(** What the numerical branch appends, when it appends anything. *)
Lemma numerical_rules_inv df vc name base adj rs :
  numerical_rules format_2f df vc name base adj = Ok rs ->
  rs <> [] ->
  exists col cfg_min cfg_max lo hi high_adj med_adj,
    get_column name df = Ok col
    /\ range_entries (Config.range vc) = Ok (cfg_min, cfg_max)
    /\ bound_from cfg_min (observed_min col) lo
    /\ bound_from cfg_max (observed_max col) hi
    /\ share adj (7 # 10) = Ok high_adj
    /\ share adj (3 # 10) = Ok med_adj
    /\ rs = [ threshold_rule format_2f name base (lo + (7 # 10) * (hi - lo))%Q high_adj;
              threshold_rule format_2f name base (lo + (3 # 10) * (hi - lo))%Q med_adj ].
Proof.
  unfold numerical_rules. intros H Hne.
  destruct (get_column name df) as [col|e] eqn:Hcol; simpl in H; [|discriminate].
  destruct (filter notna (values col)) as [|c cs] eqn:Hf.
  { inversion H; subst; contradiction. }
  destruct (range_entries (Config.range vc)) as [[cfg_min cfg_max]|e] eqn:Hr;
    simpl in H; [|discriminate].
  destruct (series_extremum Qmin_b smin col c cs) as [cmin|e] eqn:Hmin; simpl in H; [|discriminate].
  destruct (series_extremum Qmax_b smax col c cs) as [cmax|e] eqn:Hmax; simpl in H; [|discriminate].
  destruct (threshold_at (7 # 10) _ _) as [t1|e] eqn:Ht1; simpl in H; [|discriminate].
  destruct (share adj (7 # 10)) as [high_adj|e] eqn:Hhigh; simpl in H; [|discriminate].
  destruct (threshold_at (3 # 10) _ _) as [t2|e] eqn:Ht2; simpl in H; [|discriminate].
  destruct (share adj (3 # 10)) as [med_adj|e] eqn:Hmed; simpl in H; [|discriminate].
  inversion H; subst rs; clear H.
  destruct (threshold_at_inv _ _ _ _ Ht1) as [lo [hi [Hlo [Hhi E1]]]].
  destruct (threshold_at_inv _ _ _ _ Ht2) as [lo' [hi' [Hlo' [Hhi' E2]]]].
  rewrite Hlo in Hlo'; rewrite Hhi in Hhi'.
  inversion Hlo'; inversion Hhi'; subst lo' hi' t1 t2.
  exists col, cfg_min, cfg_max, lo, hi, high_adj, med_adj. repeat split; auto.
  - destruct cfg_min as [m|]; simpl in *.
    + inversion Hlo; reflexivity.
    + subst cmin. eapply series_min_observed; eauto.
  - destruct cfg_max as [m|]; simpl in *.
    + inversion Hhi; reflexivity.
    + subst cmax. eapply series_max_observed; eauto.
Qed.

Lemma observed_range_thresholds (col : Series) lo hi (f : Q) :
  observed_min col lo -> observed_max col hi ->
  (forall q, In (Num q) (values col) -> 0 <= q /\ q <= 1)%Q ->
  (0 <= f)%Q -> (f <= 1)%Q ->
  (0 <= lo + f * (hi - lo) /\ lo + f * (hi - lo) <= 1)%Q.
Proof.
  intros [Hlo_in Hlo] [Hhi_in Hhi] Hunit Hf0 Hf1.
  pose proof (Hunit _ Hlo_in) as [Hlo0 Hlo1].
  pose proof (Hunit _ Hhi_in) as [Hhi0 Hhi1].
  pose proof (Hlo _ Hhi_in) as Hle.
  split; nra.
Qed.

End GeneratorFacts.

Lemma Qlt_bool_iff x y : Qlt_bool x y = true <-> (x < y)%Q.
Proof.
  unfold Qlt_bool. rewrite negb_true_iff. split.
  - intros H. apply Qnot_le_lt. rewrite <- Qle_bool_iff. congruence.
  - intros H. destruct (Qle_bool y x) eqn:E; [|reflexivity].
    apply Qle_bool_iff in E. exfalso. eapply Qlt_not_le; eauto.
Qed.

Lemma Qlt_bool_false_iff x y : Qlt_bool x y = false <-> (y <= x)%Q.
Proof.
  unfold Qlt_bool. rewrite negb_false_iff. apply Qle_bool_iff.
Qed.

(** ** Rounding to the nearest float *)

Section FloatFacts.

Lemma Qround_half_even_error x :
  (Qabs (inject_Z (Qround_half_even x) - x) <= 1 # 2)%Q.
Proof.
  unfold Qround_half_even.
  pose proof (Qfloor_le x) as Hlo. pose proof (Qlt_floor x) as Hhi.
  rewrite inject_Z_plus in Hhi. change (inject_Z 1) with 1%Q in Hhi.
  apply Qabs_Qle_condition.
  destruct (Qlt_bool (x - inject_Z (Qfloor x)) (1 # 2)) eqn:E1.
  - apply Qlt_bool_iff in E1. split; lra.
  - apply Qlt_bool_false_iff in E1.
    assert (Hup : (- (1 # 2) <= inject_Z (Qfloor x + 1) - x
                   /\ inject_Z (Qfloor x + 1) - x <= 1 # 2)%Q).
    { rewrite inject_Z_plus. change (inject_Z 1) with 1%Q. split; lra. }
    destruct (Qlt_bool (1 # 2) (x - inject_Z (Qfloor x))) eqn:E2; [exact Hup|].
    apply Qlt_bool_false_iff in E2.
    destruct (Z.even (Qfloor x)); [split; lra | exact Hup].
Qed.

Lemma ilog2_lower q : ~ (q == 0)%Q -> (2 ^ Float64.ilog2 q <= Qabs q)%Q.
Proof.
  intros Hq. unfold Float64.ilog2.
  set (n := Z.abs (Qnum q)). set (d := Z.pos (Qden q)).
  destruct (Qle_bool (2 ^ (Z.log2 n - Z.log2 d)) (Qabs q)) eqn:E.
  - apply Qle_bool_iff. exact E.
  - clear E.
    assert (Hn : (0 < n)%Z).
    { unfold n. destruct q as [[|p|p] dq]; simpl; try lia.
      exfalso. apply Hq. reflexivity. }
    assert (Hd : (0 < d)%Z) by (unfold d; lia).
    pose proof (Z.log2_nonneg n) as Ha. pose proof (Z.log2_nonneg d) as Hb.
    destruct (Z.log2_spec n Hn) as [Hn1 _]. destruct (Z.log2_spec d Hd) as [_ Hd2].
    replace (Z.log2 n - Z.log2 d - 1)%Z with (Z.log2 n + - Z.succ (Z.log2 d))%Z by lia.
    rewrite Qpower_plus by discriminate. rewrite Qpower_opp.
    change 2%Q with (inject_Z 2).
    rewrite <- !Zpower_Qpower by lia.
    set (P := (2 ^ Z.log2 n)%Z) in *. set (R := (2 ^ Z.succ (Z.log2 d))%Z) in *.
    assert (HP : (0 < P)%Z) by (unfold P; apply Z.pow_pos_nonneg; lia).
    assert (HR : (0 < R)%Z) by lia.
    apply Qle_shift_div_r; [unfold Qlt; simpl; lia|].
    destruct q as [nq dq]. unfold Qabs, Qle, Qmult, inject_Z; simpl.
    rewrite Pos.mul_1_r. change (Z.abs nq) with n. change (Z.pos dq) with d.
    clearbody n d P R. nia.
Qed.

Lemma ulp_pos q : (0 < Float64.ulp q)%Q.
Proof. unfold Float64.ulp. apply Qpower_0_lt. reflexivity. Qed.

(** Rounding moves a number of magnitude at least 1 by no more than the
    fraction 2^-53 of itself. *)
Lemma round_error q :
  (1 <= Qabs q)%Q ->
  (Qabs (Float64.round q - q) <= Qabs q * (1 # 9007199254740992))%Q.
Proof.
  intros Hq.
  assert (Hnz : ~ (q == 0)%Q).
  { intros E. rewrite E in Hq. revert Hq. unfold Qle; simpl; lia. }
  unfold Float64.round.
  destruct (Qeq_bool q 0) eqn:E0; [apply Qeq_bool_iff in E0; contradiction|].
  pose proof (ulp_pos q) as Hu.
  pose proof (Qround_half_even_error (q / Float64.ulp q)) as Herr.
  set (u := Float64.ulp q) in *.
  set (m := inject_Z (Qround_half_even (q / u))) in *.
  assert (Hhalf : (Qabs (m * u - q) <= u * (1 # 2))%Q).
  { apply Qabs_Qle_condition in Herr. apply Qabs_Qle_condition.
    assert (Ediv : (q / u * u == q)%Q) by (field; lra).
    destruct Herr as [H1 H2]. split; nra. }
  eapply Qle_trans; [exact Hhalf|].
  assert (Hbin : (2 ^ Z.max (Float64.ilog2 q) (-1022) <= Qabs q)%Q).
  { destruct (Z.max_spec (Float64.ilog2 q) (-1022)) as [[_ ->]|[_ ->]].
    - eapply Qle_trans; [|exact Hq]. apply Qle_bool_iff. vm_compute. reflexivity.
    - apply ilog2_lower. exact Hnz. }
  unfold u, Float64.ulp.
  replace (Z.max (Float64.ilog2 q) (-1022) - 52)%Z
    with (Z.max (Float64.ilog2 q) (-1022) + -52)%Z by lia.
  rewrite Qpower_plus by discriminate.
  set (b := (2 ^ Z.max (Float64.ilog2 q) (-1022))%Q) in *.
  assert (Hb : (0 < b)%Q) by (unfold b; apply Qpower_0_lt; reflexivity).
  assert (Ec : (2 ^ (-52) * (1 # 2) == 1 # 9007199254740992)%Q)
    by (apply Qeq_bool_iff; vm_compute; reflexivity).
  rewrite <- Ec. nra.
Qed.

Lemma round_bounds q :
  (1 <= Qabs q)%Q ->
  (q - Qabs q * (1 # 9007199254740992) <= Float64.round q
   /\ Float64.round q <= q + Qabs q * (1 # 9007199254740992))%Q.
Proof.
  intros Hq. pose proof (round_error q Hq) as H.
  apply Qabs_Qle_condition in H. destruct H. split; lra.
Qed.

End FloatFacts.

(** ** The size and sign of the adjustments (scoring.py) *)

Section TruncationFacts.

Lemma Qtruncate_floor x : (0 <= x)%Q -> Qtruncate x = Qfloor x.
Proof.
  destruct x as [n d]. unfold Qle, Qtruncate, Qfloor; simpl. intros H.
  apply Z.quot_div_nonneg; lia.
Qed.

Lemma Qtruncate_opp x : Qtruncate (- x) = (- Qtruncate x)%Z.
Proof.
  destruct x as [n d]. unfold Qtruncate; simpl. apply Z.quot_opp_l. discriminate.
Qed.

Lemma Qtruncate_at_least (n : Z) x :
  (0 <= n)%Z -> (inject_Z n <= x)%Q -> (n <= Qtruncate x)%Z.
Proof.
  intros Hn Hx.
  assert (H0 : (0 <= x)%Q).
  { eapply Qle_trans; [|exact Hx]. unfold Qle; simpl. lia. }
  rewrite Qtruncate_floor by assumption.
  rewrite <- (Qfloor_Z n). apply Qfloor_resp_le. assumption.
Qed.

Lemma Qtruncate_at_most (n : Z) x :
  (0 <= x)%Q -> (x <= inject_Z n)%Q -> (Qtruncate x <= n)%Z.
Proof.
  intros H0 Hx. rewrite Qtruncate_floor by assumption.
  rewrite <- (Qfloor_Z n). apply Qfloor_resp_le. assumption.
Qed.

Lemma Qtruncate_between (lo hi : Z) x :
  (0 <= lo)%Z -> (inject_Z lo <= x)%Q -> (x <= inject_Z hi)%Q ->
  (lo <= Qtruncate x <= hi)%Z.
Proof.
  intros Hlo H1 H2. split; [apply Qtruncate_at_least; assumption|].
  apply Qtruncate_at_most; [|assumption].
  eapply Qle_trans; [|exact H1]. unfold Qle; simpl. lia.
Qed.

Lemma Qtruncate_between_neg (lo hi : Z) x :
  (hi <= 0)%Z -> (inject_Z lo <= x)%Q -> (x <= inject_Z hi)%Q ->
  (lo <= Qtruncate x <= hi)%Z.
Proof.
  intros Hhi H1 H2.
  assert (E : Qtruncate x = (- Qtruncate (- x))%Z) by (rewrite Qtruncate_opp; lia).
  assert (H := Qtruncate_between (- hi) (- lo) (- x) ltac:(lia)).
  rewrite !inject_Z_opp in H. rewrite E.
  destruct H; [lra | lra | lia].
Qed.

Lemma float_thousand : (Float64.of_int 1000 == 1000)%Q.
Proof. apply Qeq_bool_iff. vm_compute. reflexivity. Qed.

Lemma float_fractions :
  (29 # 100 <= Float64.round (7 # 10) /\ Float64.round (7 # 10) <= 71 # 100)%Q
  /\ (29 # 100 <= Float64.round (3 # 10) /\ Float64.round (3 # 10) <= 71 # 100)%Q.
Proof. repeat split; apply Qle_bool_iff; vm_compute; reflexivity. Qed.

Lemma truncated_product_inv a b n :
  Float64.truncated_product a b = Ok n ->
  Float64.mul a b = Some (Float64.round (a * b))
  /\ n = Qtruncate (Float64.round (a * b)).
Proof.
  unfold Float64.truncated_product, Float64.mul.
  destruct (Float64.finite _); simpl; intros H; inversion H. split; reflexivity.
Qed.

Lemma base_adjustment_positive c adj :
  (1 # 100 <= c)%Q -> base_adjustment c 1000 = Ok adj -> (9 <= adj)%Z.
Proof.
  intros Hc H. apply truncated_product_inv in H. destruct H as [_ ->].
  pose proof float_thousand as Ht.
  set (y := (c * Float64.of_int 1000)%Q).
  assert (Hy : (10 <= y)%Q) by (unfold y; rewrite Ht; lra).
  assert (Ha : (Qabs y == y)%Q) by (apply Qabs_pos; lra).
  destruct (round_bounds y) as [Hlo _]; [rewrite Ha; lra|].
  rewrite Ha in Hlo.
  apply Qtruncate_at_least; [lia|]. change (inject_Z 9) with 9%Q. lra.
Qed.

Lemma base_adjustment_negative c adj :
  (c <= - (1 # 100))%Q -> base_adjustment c 1000 = Ok adj -> (adj <= -9)%Z.
Proof.
  intros Hc H. apply truncated_product_inv in H. destruct H as [_ ->].
  pose proof float_thousand as Ht.
  set (y := (c * Float64.of_int 1000)%Q).
  assert (Hy : (y <= -10)%Q) by (unfold y; rewrite Ht; lra).
  assert (Ha : (Qabs y == - y)%Q) by (apply Qabs_neg; lra).
  destruct (round_bounds y) as [Hlo Hhi]; [rewrite Ha; lra|].
  rewrite Ha in Hlo, Hhi.
  set (r := Float64.round y) in *.
  assert (E : Qtruncate r = (- Qtruncate (- r))%Z) by (rewrite Qtruncate_opp; lia).
  rewrite E.
  assert (9 <= Qtruncate (- r))%Z; [|lia].
  apply Qtruncate_at_least; [lia|]. change (inject_Z 9) with 9%Q. lra.
Qed.

Lemma share_of_positive adj f s :
  (9 <= adj)%Z ->
  (29 # 100 <= Float64.round f /\ Float64.round f <= 71 # 100)%Q ->
  share adj f = Ok s -> (0 < s <= adj)%Z.
Proof.
  intros Hadj [Hf1 Hf2] H. apply truncated_product_inv in H. destruct H as [_ ->].
  set (A := inject_Z adj).
  assert (HA : (9 <= A)%Q) by (unfold A; rewrite <- (Qfloor_Z 9) at 1; unfold Qle; simpl; lia).
  assert (HabsA : (Qabs A == A)%Q) by (apply Qabs_pos; lra).
  destruct (round_bounds A) as [Ha1 Ha2]; [rewrite HabsA; lra|].
  rewrite HabsA in Ha1, Ha2. unfold Float64.of_int. fold A.
  set (a := Float64.round A) in *. set (d := Float64.round f) in *.
  set (z := (a * d)%Q).
  assert (Ha0 : (0 <= a)%Q) by lra.
  assert (Hd1 : ((29 # 100) * a <= d * a)%Q) by (apply Qmult_le_compat_r; assumption).
  assert (Hd2 : (d * a <= (71 # 100) * a)%Q) by (apply Qmult_le_compat_r; assumption).
  assert (Ez : (z == d * a)%Q) by (unfold z; ring).
  assert (Hz1 : (A * (99 # 100) * (29 # 100) <= z)%Q) by lra.
  assert (Hz2 : (z <= A * (101 # 100) * (71 # 100))%Q) by lra.
  assert (Habsz : (Qabs z == z)%Q) by (apply Qabs_pos; lra).
  destruct (round_bounds z) as [Hr1 Hr2]; [rewrite Habsz; lra|].
  rewrite Habsz in Hr1, Hr2.
  assert (Hb := Qtruncate_between 1 adj (Float64.round z) ltac:(lia)).
  change (inject_Z 1) with 1%Q in Hb. fold A in Hb.
  destruct Hb; [lra | lra | lia].
Qed.

Lemma share_of_negative adj f s :
  (adj <= -9)%Z ->
  (29 # 100 <= Float64.round f /\ Float64.round f <= 71 # 100)%Q ->
  share adj f = Ok s -> (adj <= s < 0)%Z.
Proof.
  intros Hadj [Hf1 Hf2] H. apply truncated_product_inv in H. destruct H as [_ ->].
  set (A := inject_Z adj).
  assert (HA : (A <= -9)%Q) by (unfold A; unfold Qle; simpl; lia).
  assert (HabsA : (Qabs A == - A)%Q) by (apply Qabs_neg; lra).
  destruct (round_bounds A) as [Ha1 Ha2]; [rewrite HabsA; lra|].
  rewrite HabsA in Ha1, Ha2. unfold Float64.of_int. fold A.
  set (a := Float64.round A) in *. set (d := Float64.round f) in *.
  set (z := (a * d)%Q).
  assert (Ha0 : (0 <= - a)%Q) by lra.
  assert (Hd1 : ((29 # 100) * - a <= d * - a)%Q) by (apply Qmult_le_compat_r; assumption).
  assert (Hd2 : (d * - a <= (71 # 100) * - a)%Q) by (apply Qmult_le_compat_r; assumption).
  assert (Ez : (z == - (d * - a))%Q) by (unfold z; ring).
  assert (Hz1 : (A * (101 # 100) * (71 # 100) <= z)%Q) by lra.
  assert (Hz2 : (z <= A * (99 # 100) * (29 # 100))%Q) by lra.
  assert (Habsz : (Qabs z == - z)%Q) by (apply Qabs_neg; lra).
  destruct (round_bounds z) as [Hr1 Hr2]; [rewrite Habsz; lra|].
  rewrite Habsz in Hr1, Hr2.
  assert (Hb := Qtruncate_between_neg adj (-1) (Float64.round z) ltac:(lia)).
  change (inject_Z (-1)) with (-1)%Q in Hb. fold A in Hb.
  destruct Hb; [lra | lra | lia].
Qed.

End TruncationFacts.

Lemma feature_loop_inv format_2f df config scale names : forall coefs rs,
  feature_loop format_2f df config scale names coefs = Ok rs ->
  exists per_feature,
    rs = List.concat per_feature
    /\ Forall2 (fun nc out =>
                  feature_rules format_2f df config scale (fst nc) (snd nc) = Ok out)
               (combine names coefs) per_feature
    /\ (List.length names <= List.length coefs)%nat.
Proof.
  induction names as [|name names IH]; simpl; intros coefs rs H.
  - inversion H; subst. exists []; repeat split; [constructor | lia].
  - destruct coefs as [|c coefs]; [discriminate|].
    destruct (feature_rules format_2f df config scale name c) as [out|e] eqn:Hout;
      simpl in H; [|discriminate].
    destruct (feature_loop format_2f df config scale names coefs) as [rest|e] eqn:Hrest;
      simpl in H; [|discriminate].
    inversion H; subst rs; clear H.
    destruct (IH _ _ Hrest) as [pf [-> [HF Hlen]]].
    exists (out :: pf); repeat split; simpl; [constructor; auto | lia].
Qed.

(** C5, as the code has it. The thresholds of a numerical feature are taken
    at 70% and 30% of a range whose ends are the ['min'] and ['max'] entries
    of the variable's configured range when they are present, and the least
    and greatest value of the prepared column otherwise. The two rules carry
    [int(adjustment * 0.7)] and [int(adjustment * 0.3)], where [adjustment]
    is [int(coefficient * 1000)] and each product is the product of floats,
    rounded to the nearest float before it is truncated toward zero: an
    adjustment of 90 gives 62 and 27. When the range is not configured and
    the column lies in [0,1], so do both thresholds. *)
Theorem numerical_thresholds_follow_range :
  forall (format_2f : Q -> string) (df : DataFrame) (config : Config.t)
         (name : string) (c : Q) (rs : list rule),
    var_type_of config name = "numerical" ->
    feature_rules format_2f df config 1000 name c = Ok rs ->
    rs <> [] ->
    let base := before_underscore name in
    exists col cfg_min cfg_max lo hi product adj high med,
      get_column name df = Ok col
      /\ range_entries (Config.range (Config.get_details config base)) = Ok (cfg_min, cfg_max)
      /\ bound_from cfg_min (observed_min col) lo
      /\ bound_from cfg_max (observed_max col) hi
      /\ Float64.mul c (Float64.of_int 1000) = Some product
      /\ adj = Qtruncate product
      /\ Float64.mul (Float64.of_int adj) (Float64.round (7 # 10)) = Some high
      /\ Float64.mul (Float64.of_int adj) (Float64.round (3 # 10)) = Some med
      /\ rs = [ threshold_rule format_2f name base (lo + (7 # 10) * (hi - lo))%Q
                  (Qtruncate high);
                threshold_rule format_2f name base (lo + (3 # 10) * (hi - lo))%Q
                  (Qtruncate med) ]
      /\ (cfg_min = None -> cfg_max = None ->
          (forall q, In (Num q) (values col) -> 0 <= q /\ q <= 1)%Q ->
          (0 <= lo + (7 # 10) * (hi - lo) /\ lo + (7 # 10) * (hi - lo) <= 1)%Q
          /\ (0 <= lo + (3 # 10) * (hi - lo) /\ lo + (3 # 10) * (hi - lo) <= 1)%Q).
Proof.
  intros format_2f df config name c rs Hty H Hne base.
  unfold feature_rules in H.
  destruct (Qlt_bool (Qabs c) (1 # 100)).
  { inversion H; subst; contradiction. }
  subst base. unfold var_type_of in Hty.
  destruct (Config.type_ (Config.get_details config (before_underscore name)))
    as [ty|] eqn:Et; [subst ty | discriminate].
  destruct (base_adjustment c 1000) as [adj|e] eqn:Hadj; simpl in H; [|discriminate].
  destruct (numerical_rules_inv _ _ _ _ _ _ _ H Hne)
    as [col [cfg_min [cfg_max [lo [hi [high_adj [med_adj
        [Hcol [Hr [Hlo [Hhi [Hhigh [Hmed Hrs]]]]]]]]]]]]].
  unfold base_adjustment, Float64.truncated_product in Hadj.
  destruct (Float64.mul c (Float64.of_int 1000)) as [product|] eqn:Hp;
    simpl in Hadj; [|discriminate].
  inversion Hadj; subst adj; clear Hadj.
  unfold share, Float64.truncated_product in Hhigh, Hmed.
  destruct (Float64.mul _ (Float64.round (7 # 10))) as [high|] eqn:Hh;
    simpl in Hhigh; [|discriminate].
  destruct (Float64.mul _ (Float64.round (3 # 10))) as [med|] eqn:Hm;
    simpl in Hmed; [|discriminate].
  inversion Hhigh; inversion Hmed; subst high_adj med_adj.
  exists col, cfg_min, cfg_max, lo, hi, product, (Qtruncate product), high, med.
  repeat split; auto;
    subst cfg_min cfg_max; simpl in Hlo, Hhi;
    eapply observed_range_thresholds; eauto; lra.
Qed.

Lemma numerical_thresholds_follow_range_witness :
  exists rs,
    feature_rules Samples.two_decimals Samples.scaled_frame Samples.ranged_config
      1000 "x" (Float64.round (9 # 100)) = Ok rs
    /\ map adjustment rs = [62; 27]
    /\ exists col cfg_min cfg_max lo hi product adj high med,
      get_column "x" Samples.scaled_frame = Ok col
      /\ range_entries
           (Config.range (Config.get_details Samples.ranged_config "x"))
         = Ok (cfg_min, cfg_max)
      /\ bound_from cfg_min (observed_min col) lo
      /\ bound_from cfg_max (observed_max col) hi
      /\ Float64.mul (Float64.round (9 # 100)) (Float64.of_int 1000) = Some product
      /\ adj = Qtruncate product
      /\ Float64.mul (Float64.of_int adj) (Float64.round (7 # 10)) = Some high
      /\ Float64.mul (Float64.of_int adj) (Float64.round (3 # 10)) = Some med
      /\ rs = [ threshold_rule Samples.two_decimals "x" "x" (lo + (7 # 10) * (hi - lo))%Q
                  (Qtruncate high);
                threshold_rule Samples.two_decimals "x" "x" (lo + (3 # 10) * (hi - lo))%Q
                  (Qtruncate med) ].
Proof.
  destruct (feature_rules Samples.two_decimals Samples.scaled_frame Samples.ranged_config
              1000 "x" (Float64.round (9 # 100))) as [rs|e] eqn:Hrs;
    [|vm_compute in Hrs; discriminate].
  exists rs. split; [reflexivity|].
  split; [vm_compute in Hrs; inversion Hrs; reflexivity|].
  destruct (numerical_thresholds_follow_range Samples.two_decimals Samples.scaled_frame
              Samples.ranged_config "x" (Float64.round (9 # 100)) rs eq_refl Hrs)
    as [col [cfg_min [cfg_max [lo [hi [product [adj [high [med
        [H1 [H2 [H3 [H4 [H5 [H6 [H7 [H8 [H9 _]]]]]]]]]]]]]]]]]].
  - vm_compute in Hrs. inversion Hrs. discriminate.
  - exists col, cfg_min, cfg_max, lo, hi, product, adj, high, med.
    repeat split; assumption.
Defined.

(** C5 fails as stated: with a configured range of 10 to 50 the thresholds
    of the scaled column [x] (values 0, 1/2, 1) are 38 and 22, outside
    [0,1] and not taken from the column. *)
Lemma thresholds_outside_unit_interval :
  (forall q, In (Num q) [Num 0; Num (1 # 2); Num 1] -> (0 <= q /\ q <= 1)%Q)
  /\ get_column "x" Samples.scaled_frame
     = Ok (mkSeries float64 [Num 0; Num (1 # 2); Num 1])
  /\ match feature_rules Samples.two_decimals Samples.scaled_frame
             Samples.ranged_config 1000 "x" (1 # 2) with
     | Ok [high; medium] =>
         exists t1 t2,
           threshold high = Some t1 /\ threshold medium = Some t2
           /\ (t1 == 38)%Q /\ (t2 == 22)%Q /\ ~ (t1 <= 1)%Q /\ ~ (t2 <= 1)%Q
     | _ => False
     end.
Proof.
  split; [|split].
  - intros q [E|[E|[E|[]]]]; inversion E; subst; split; discriminate.
  - reflexivity.
  - vm_compute. do 2 eexists. repeat split; try reflexivity; intros H; apply H; reflexivity.
Qed.

(** C6, as the code has it. The base adjustment of a feature whose
    coefficient has absolute value at least 0.01 is [int(coefficient * 1000)]:
    the product of floats, which is the float nearest to the exact product
    and so within the fraction 2^-53 of it, truncated toward zero and not
    rounded to the nearest integer. A feature of a variable that is not
    numerical gets one [present] rule carrying it, and every rule of the
    feature carries it or its share [int(adjustment * 0.7)] or
    [int(adjustment * 0.3)]. Should the product exceed every float, [int]
    raises. A feature whose coefficient is below 0.01 in absolute value
    gets no rule. The rule set is the base rule followed by the rules of
    the features in order. *)
Theorem base_adjustment_truncates :
  forall (format_2f : Q -> string) (df : DataFrame) (config : Config.t)
         (name : string) (c : Q),
    ((Qabs c < 1 # 100)%Q -> feature_rules format_2f df config 1000 name c = Ok [])
    /\ ((1 # 100 <= Qabs c)%Q ->
        (Float64.mul c (Float64.of_int 1000) = None ->
         feature_rules format_2f df config 1000 name c = Raise OverflowError)
        /\ (forall product,
               Float64.mul c (Float64.of_int 1000) = Some product ->
               let adj := Qtruncate product in
               (Qabs (product - c * 1000) <= Qabs (c * 1000) * (1 # 9007199254740992))%Q
               /\ (var_type_of config name <> "numerical" ->
                   exists text,
                     feature_rules format_2f df config 1000 name c
                     = Ok [present_rule name adj text])
               /\ (forall rs r,
                      feature_rules format_2f df config 1000 name c = Ok rs -> In r rs ->
                      variable r = name
                      /\ (adjustment r = adj
                          \/ share adj (7 # 10) = Ok (adjustment r)
                          \/ share adj (3 # 10) = Ok (adjustment r)))))
    /\ (forall coefs names rules,
           generate_scoring_rules format_2f df coefs names config = Ok rules ->
           exists per_feature,
             rules = base_score_rule 1000 :: List.concat per_feature
             /\ Forall2 (fun nc out =>
                           feature_rules format_2f df config 1000 (fst nc) (snd nc) = Ok out)
                        (combine names coefs) per_feature).
Proof.
  intros format_2f df config name c. split; [|split].
  - intros Hlt. unfold feature_rules.
    apply Qlt_bool_iff in Hlt. rewrite Hlt. reflexivity.
  - intros Hge. pose proof Hge as Hge'. apply Qlt_bool_false_iff in Hge.
    unfold feature_rules, var_type_of. rewrite Hge.
    unfold base_adjustment, Float64.truncated_product.
    set (ty := match Config.type_ (Config.get_details config (before_underscore name))
               with Some t => t | None => "categorical" end).
    split.
    + intros ->. reflexivity.
    + intros product Hp. rewrite Hp. split; [|split; simpl].
      * unfold Float64.mul in Hp.
        destruct (Float64.finite _); inversion Hp; subst product.
        pose proof float_thousand as Ht.
        set (y := (c * Float64.of_int 1000)%Q) in *.
        assert (Ey : (y == c * 1000)%Q) by (unfold y; rewrite Ht; reflexivity).
        assert (Ea : (Qabs y == Qabs (c * 1000))%Q) by (rewrite Ey; reflexivity).
        assert (Hbig : (1 <= Qabs y)%Q).
        { rewrite Ea, Qabs_Qmult. change (Qabs 1000) with 1000%Q. lra. }
        pose proof (round_error y Hbig) as Herr.
        apply Qabs_Qle_condition in Herr. apply Qabs_Qle_condition.
        rewrite <- Ea. destruct Herr. split; lra.
      * intros Hty. apply String.eqb_neq in Hty. rewrite Hty.
        destruct (has_underscore name); eexists; reflexivity.
      * intros rs r H Hin.
        destruct (ty =? "numerical") eqn:Hty.
        -- destruct rs as [|r0 rs0] eqn:Ers; [contradiction|].
           assert (Hne : rs <> []) by (subst rs; discriminate).
           rewrite <- Ers in H.
           destruct (numerical_rules_inv _ _ _ _ _ _ _ H Hne)
             as [col [cmin [cmax [lo [hi [high_adj [med_adj
                 [_ [_ [_ [_ [Hhigh [Hmed Hrs]]]]]]]]]]]]].
           rewrite Ers in Hrs. rewrite Hrs in Hin.
           destruct Hin as [<-|[<-|[]]]; simpl; auto.
        -- destruct (has_underscore name); inversion H; subst rs;
             destruct Hin as [<-|[]]; simpl; auto.
  - intros coefs names rules H.
    unfold generate_scoring_rules, generate_scoring_rules_with in H.
    destruct (feature_loop format_2f df config 1000 names coefs) as [rs|e] eqn:Hloop;
      simpl in H; [|discriminate].
    inversion H; subst rules; clear H.
    destruct (feature_loop_inv _ _ _ _ _ _ _ Hloop) as [pf [-> [HF _]]].
    exists pf; split; auto.
Qed.

Lemma base_adjustment_truncates_witness :
  feature_rules Samples.two_decimals Samples.scaled_frame Samples.ranged_config 1000
    "noise" (5 # 1000) = Ok []
  /\ (exists product text,
         Float64.mul (Float64.round (156 # 10000)) (Float64.of_int 1000) = Some product
         /\ Qtruncate product = 15
         /\ feature_rules Samples.two_decimals Samples.scaled_frame Samples.ranged_config
              1000 "region_east" (Float64.round (156 # 10000))
            = Ok [present_rule "region_east" (Qtruncate product) text])
  /\ (forall rs r,
         feature_rules Samples.two_decimals Samples.scaled_frame Samples.ranged_config
           1000 "x" (-(1 # 2)) = Ok rs ->
         In r rs ->
         variable r = "x"
         /\ (adjustment r = -500
             \/ share (-500) (7 # 10) = Ok (adjustment r)
             \/ share (-500) (3 # 10) = Ok (adjustment r))).
Proof.
  split; [|split].
  - apply (base_adjustment_truncates Samples.two_decimals Samples.scaled_frame
             Samples.ranged_config "noise" (5 # 1000)).
    reflexivity.
  - destruct (Float64.mul (Float64.round (156 # 10000)) (Float64.of_int 1000))
      as [product|] eqn:Hp; [|vm_compute in Hp; discriminate].
    destruct (proj1 (proj2 (base_adjustment_truncates Samples.two_decimals
                              Samples.scaled_frame Samples.ranged_config "region_east"
                              (Float64.round (156 # 10000)))))
      as [_ Hfinite]; [apply Qle_bool_iff; vm_compute; reflexivity|].
    destruct (Hfinite product Hp) as [_ [Hpresent _]].
    destruct Hpresent as [text Htext]; [discriminate|].
    exists product, text. split; [reflexivity|]. split; [|exact Htext].
    vm_compute in Hp. inversion Hp. reflexivity.
  - assert (Hp : Float64.mul (-(1 # 2)) (Float64.of_int 1000)
                 = Some (Float64.round (-(1 # 2) * Float64.of_int 1000)))
      by (vm_compute; reflexivity).
    assert (E : Qtruncate (Float64.round (-(1 # 2) * Float64.of_int 1000)) = -500)
      by (vm_compute; reflexivity).
    destruct (proj1 (proj2 (base_adjustment_truncates Samples.two_decimals
                              Samples.scaled_frame Samples.ranged_config "x"
                              (-(1 # 2)))))
      as [_ Hfinite]; [discriminate|].
    destruct (Hfinite _ Hp) as [_ [_ Hall]].
    intros rs r Hrs Hin. destruct (Hall rs r Hrs Hin) as [Hv Hadj].
    rewrite E in Hadj. split; assumption.
Defined.

(** C6 fails as stated: the coefficient 0.0156 gives the adjustment 15,
    where rounding the product to the nearest integer gives 16. *)
Lemma base_adjustment_is_not_rounded :
  (1 # 100 <= Qabs (Float64.round (156 # 10000)))%Q
  /\ feature_rules Samples.two_decimals Samples.scaled_frame Samples.ranged_config
       1000 "region_east" (Float64.round (156 # 10000))
     = Ok [present_rule "region_east" 15 "If region is east"]
  /\ exists product,
      Float64.mul (Float64.round (156 # 10000)) (Float64.of_int 1000) = Some product
      /\ Qround_half_even product = 16
      /\ Qtruncate product = 15.
Proof.
  split; [apply Qle_bool_iff; vm_compute; reflexivity|].
  split; [vm_compute; reflexivity|].
  eexists. split; [vm_compute; reflexivity|]. split; vm_compute; reflexivity.
Qed.

(** ** Numerical columns (data_preparation.py) *)

Section NumericFacts.

Import DataPreparation.

Lemma in_present q xs : In q (present xs) <-> In (Some q) xs.
Proof.
  unfold present. rewrite in_flat_map. split.
  - intros [[x|] [Hin Hq]]; simpl in Hq; [|contradiction].
    destruct Hq as [->|[]]; assumption.
  - intros H. exists (Some q); simpl; auto.
Qed.

Lemma fold_max_spec qs : forall q,
  let r := fold_left Qmax_b qs q in
  (r = q \/ In r qs) /\ (q <= r)%Q /\ forall x, In x qs -> (x <= r)%Q.
Proof.
  induction qs as [|h qs IH]; simpl; intros q.
  - repeat split; auto; [apply Qle_refl | tauto].
  - destruct (IH (Qmax_b q h)) as [Hin [Hle Hall]].
    destruct (Qmax_b_cases q h) as [Hc [Hq Hh]].
    repeat split.
    + destruct Hin as [->|Hin]; [destruct Hc as [->| ->]|]; auto.
    + eapply Qle_trans; eauto.
    + intros x [<-|Hx]; [eapply Qle_trans; eauto | auto].
Qed.

Lemma fold_min_spec qs : forall q,
  let r := fold_left Qmin_b qs q in
  (r = q \/ In r qs) /\ (r <= q)%Q /\ forall x, In x qs -> (r <= x)%Q.
Proof.
  induction qs as [|h qs IH]; simpl; intros q.
  - repeat split; auto; [apply Qle_refl | tauto].
  - destruct (IH (Qmin_b q h)) as [Hin [Hle Hall]].
    destruct (Qmin_b_cases q h) as [Hc [Hq Hh]].
    repeat split.
    + destruct Hin as [->|Hin]; [destruct Hc as [->| ->]|]; auto.
    + eapply Qle_trans; eauto.
    + intros x [<-|Hx]; [eapply Qle_trans; eauto | auto].
Qed.

Lemma col_max_spec xs q :
  In (Some q) xs ->
  exists M, col_max xs = Some M /\ In (Some M) xs
            /\ forall w, In (Some w) xs -> (w <= M)%Q.
Proof.
  intros Hq. apply in_present in Hq. unfold col_max, fold_extremum.
  destruct (present xs) as [|h qs] eqn:E; [contradiction|].
  destruct (fold_max_spec qs h) as [Hin [Hle Hall]].
  eexists; split; [reflexivity|]. split.
  - apply in_present. rewrite E. destruct Hin as [->|Hin]; simpl; auto.
  - intros w Hw. apply in_present in Hw. rewrite E in Hw.
    destruct Hw as [<-|Hw]; auto.
Qed.

Lemma col_min_spec xs q :
  In (Some q) xs ->
  exists m, col_min xs = Some m /\ In (Some m) xs
            /\ forall w, In (Some w) xs -> (m <= w)%Q.
Proof.
  intros Hq. apply in_present in Hq. unfold col_min, fold_extremum.
  destruct (present xs) as [|h qs] eqn:E; [contradiction|].
  destruct (fold_min_spec qs h) as [Hin [Hle Hall]].
  eexists; split; [reflexivity|]. split.
  - apply in_present. rewrite E. destruct Hin as [->|Hin]; simpl; auto.
  - intros w Hw. apply in_present in Hw. rewrite E in Hw.
    destruct Hw as [<-|Hw]; auto.
Qed.

Lemma col_min_some_in xs m : col_min xs = Some m -> In (Some m) xs.
Proof.
  unfold col_min, fold_extremum. intros H.
  destruct (present xs) as [|h qs] eqn:E; [discriminate|].
  inversion H; subst m. apply in_present. rewrite E.
  destruct (fold_min_spec qs h) as [[->|Hin] _]; simpl; auto.
Qed.

Lemma in_insert_sorted x q l : In x (insert_sorted q l) <-> x = q \/ In x l.
Proof.
  induction l as [|h t IH]; simpl.
  - intuition.
  - destruct (Qle_bool q h); simpl; rewrite ?IH; intuition.
Qed.

Lemma in_sort x l : In x (sort l) <-> In x l.
Proof.
  induction l as [|h t IH]; simpl; [tauto|].
  rewrite in_insert_sorted, IH. intuition.
Qed.

Lemma insert_sorted_length q l :
  List.length (insert_sorted q l) = S (List.length l).
Proof.
  induction l as [|h t IH]; simpl; auto.
  destruct (Qle_bool q h); simpl; auto.
Qed.

Lemma sort_length l : List.length (sort l) = List.length l.
Proof.
  induction l as [|h t IH]; simpl; auto.
  rewrite insert_sorted_length; auto.
Qed.

Lemma half_lt n : (0 < n)%nat -> (n / 2 < n)%nat.
Proof. intros H. apply Nat.div_lt; lia. Qed.

(** The median lies between any two bounds of the values present. *)
Lemma median_between xs lo hi q :
  In (Some q) xs ->
  (forall w, In (Some w) xs -> lo <= w /\ w <= hi)%Q ->
  exists m, median xs = Some m /\ (lo <= m /\ m <= hi)%Q.
Proof.
  intros Hq Hb. unfold median.
  assert (Hnth : forall k, (k < List.length (sort (present xs)))%nat ->
                           (lo <= nth k (sort (present xs)) 0 /\
                            nth k (sort (present xs)) 0 <= hi)%Q).
  { intros k Hk. apply Hb, in_present, in_sort. apply nth_In; assumption. }
  assert (Hpos : (0 < List.length (sort (present xs)))%nat).
  { rewrite sort_length. apply in_present in Hq.
    destruct (present xs); [contradiction | simpl; lia]. }
  set (s := sort (present xs)) in *.
  destruct (List.length s) as [|n'] eqn:En; [lia|].
  pose proof (half_lt (S n') ltac:(lia)) as Hhalf.
  destruct (Nat.even (S n')) eqn:Hev.
  - eexists; split; [reflexivity|].
    assert (Hk1 : (S n' / 2 - 1 < S n')%nat) by lia.
    destruct (Hnth _ Hk1) as [L1 U1]. destruct (Hnth _ Hhalf) as [L2 U2].
    split.
    + apply Qle_shift_div_l; [reflexivity | lra].
    + apply Qle_shift_div_r; [reflexivity | lra].
  - eexists; split; [reflexivity|]. apply Hnth; assumption.
Qed.

Lemma in_invert M xs x :
  In x (invert (Some M) xs) <->
  x = None /\ In None xs \/ exists w, x = Some (M - w)%Q /\ In (Some w) xs.
Proof.
  unfold invert. rewrite in_map_iff. split.
  - intros [[w|] [E H]]; subst; [right; eauto | left; auto].
  - intros [[-> H] | [w [-> H]]]; [exists None | exists (Some w)]; auto.
Qed.

Lemma nth_error_invert M xs j w :
  nth_error xs j = Some (Some w) ->
  nth_error (invert (Some M) xs) j = Some (Some (M - w)%Q).
Proof.
  intros H. unfold invert. rewrite nth_error_map, H. reflexivity.
Qed.

Lemma in_fillna m xs x :
  In x (fillna (Some m) xs) ->
  exists r, x = Some r /\ (In (Some r) xs \/ r = m).
Proof.
  unfold fillna. rewrite in_map_iff. intros [[v|] [E H]]; subst; eauto.
Qed.

Lemma in_fillna_keep m xs r : In (Some r) xs -> In (Some r) (fillna m xs).
Proof.
  intros H. destruct m as [m|]; simpl; [|assumption].
  apply in_map_iff. exists (Some r); auto.
Qed.

Lemma nth_error_fillna m xs j r :
  nth_error xs j = Some (Some r) -> nth_error (fillna m xs) j = Some (Some r).
Proof.
  intros H. destruct m as [m|]; simpl; [|assumption].
  rewrite nth_error_map, H. reflexivity.
Qed.

End NumericFacts.

Section ScalingFacts.

Import DataPreparation.

Lemma scale_nondegenerate xs lo hi :
  col_min xs = Some lo -> col_max xs = Some hi -> ~ (lo == hi)%Q ->
  scale xs = map (fun x => match x with
                           | Some v => Some ((v - lo) / (hi - lo))%Q
                           | None => None
                           end) xs.
Proof.
  intros Hlo Hhi Hne. unfold scale. rewrite Hlo, Hhi.
  destruct (Qeq_bool lo hi) eqn:E; [|reflexivity].
  apply Qeq_bool_iff in E. contradiction.
Qed.

Lemma scale_degenerate xs lo hi :
  col_min xs = Some lo -> col_max xs = Some hi -> (lo == hi)%Q -> scale xs = xs.
Proof.
  intros Hlo Hhi He. unfold scale. rewrite Hlo, Hhi.
  apply Qeq_bool_iff in He. rewrite He. reflexivity.
Qed.

Lemma unit_fraction r lo hi :
  (lo < hi)%Q -> (lo <= r)%Q -> (r <= hi)%Q ->
  (0 <= (r - lo) / (hi - lo) /\ (r - lo) / (hi - lo) <= 1)%Q.
Proof.
  intros Hlt Hl Hh. split.
  - apply Qle_shift_div_l; lra.
  - apply Qle_shift_div_r; lra.
Qed.

Lemma full_fraction r lo hi :
  (lo < hi)%Q -> (r == hi)%Q -> ((r - lo) / (hi - lo) == 1)%Q.
Proof.
  intros Hlt He. unfold Qdiv.
  assert (E : (r - lo == hi - lo)%Q) by lra.
  rewrite E. apply Qmult_inv_r. lra.
Qed.

End ScalingFacts.

(** The transformation of a parsed column: under "lower is better" with
    values that are not all equal, and in the degenerate case. *)
Lemma transform_numeric_cases :
  forall (parsed : DataPreparation.float_col),
    (forall (i : nat) (v : Q),
        nth_error parsed i = Some (Some v) ->
        (forall w, In (Some w) parsed -> (v <= w)%Q) ->
        (exists a b, In (Some a) parsed /\ In (Some b) parsed /\ ~ (a == b)%Q) ->
        let out :=
          DataPreparation.transform_numeric (Some DataPreparation.lower_is_better) parsed in
        (exists M,
            DataPreparation.col_max parsed = Some M
            /\ DataPreparation.inverted (Some DataPreparation.lower_is_better) parsed
               = DataPreparation.invert (Some M) parsed
            /\ (forall j w, nth_error parsed j = Some (Some w) ->
                            nth_error (DataPreparation.invert (Some M) parsed) j
                            = Some (Some (M - w)%Q))
            /\ out = DataPreparation.scale
                       (DataPreparation.fillna
                          (DataPreparation.median (DataPreparation.invert (Some M) parsed))
                          (DataPreparation.invert (Some M) parsed)))
        /\ (exists r, nth_error out i = Some (Some r) /\ (r == 1)%Q)
        /\ (forall x, In x out -> exists r, x = Some r /\ (0 <= r /\ r <= 1)%Q)
        /\ List.length out = List.length parsed)
    /\ (forall (direction : option string) (lo hi : Q),
           DataPreparation.col_min (DataPreparation.imputed direction parsed) = Some lo ->
           DataPreparation.col_max (DataPreparation.imputed direction parsed) = Some hi ->
           (lo == hi)%Q ->
           DataPreparation.transform_numeric direction parsed
           = DataPreparation.imputed direction parsed
           /\ forall x, In x (DataPreparation.imputed direction parsed) ->
                        exists r, x = Some r /\ (r == lo)%Q).
Proof.
  intros parsed. split.
  - intros i v Hi Hmin [a [b [Ha [Hb Hab]]]] out.
    assert (Hv : In (Some v) parsed) by (eapply nth_error_In; eauto).
    destruct (col_max_spec parsed v Hv) as [M [HM [HMin HMall]]].
    assert (HvM : (v < M)%Q).
    { pose proof (Hmin _ Ha). pose proof (Hmin _ Hb).
      pose proof (HMall _ Ha). pose proof (HMall _ Hb).
      destruct (Qlt_le_dec v M) as [|Hge]; [assumption|].
      exfalso. apply Hab. lra. }
    set (inv := DataPreparation.invert (Some M) parsed).
    assert (Hinv : DataPreparation.inverted (Some DataPreparation.lower_is_better) parsed = inv).
    { unfold DataPreparation.inverted. rewrite String.eqb_refl, HM. reflexivity. }
    assert (Hinv_b : forall w, In (Some w) inv -> (0 <= w /\ w <= M - v)%Q).
    { intros w Hw. apply in_invert in Hw.
      destruct Hw as [[E _]|[w0 [E Hw0]]]; [discriminate|].
      inversion E; subst w. pose proof (Hmin _ Hw0). pose proof (HMall _ Hw0). lra. }
    assert (Hinv_i : nth_error inv i = Some (Some (M - v)%Q))
      by (apply nth_error_invert; assumption).
    assert (Hinv_top : In (Some (M - v)%Q) inv) by (eapply nth_error_In; eauto).
    assert (Hinv_bot : In (Some (M - M)%Q) inv).
    { apply in_invert. right. eauto. }
    destruct (median_between inv 0 (M - v) _ Hinv_top Hinv_b)
      as [m [Hmed Hm]].
    set (filled := DataPreparation.fillna (Some m) inv).
    assert (Hfilled : forall x, In x filled ->
                                exists r, x = Some r /\ (0 <= r /\ r <= M - v)%Q).
    { intros x Hx. apply in_fillna in Hx.
      destruct Hx as [r [-> [Hr|Hr]]]; exists r; split; auto.
      subst r. assumption. }
    assert (Hf_top : In (Some (M - v)%Q) filled)
      by (apply in_fillna_keep; assumption).
    assert (Hf_bot : In (Some (M - M)%Q) filled)
      by (apply in_fillna_keep; assumption).
    destruct (col_min_spec filled _ Hf_top) as [lo [Hlo [Hlo_in Hlo_all]]].
    destruct (col_max_spec filled _ Hf_top) as [hi [Hhi [Hhi_in Hhi_all]]].
    assert (Hlo0 : (lo == 0)%Q).
    { destruct (Hfilled _ Hlo_in) as [r [E [L _]]]. inversion E; subst r.
      pose proof (Hlo_all _ Hf_bot). lra. }
    assert (Hhi1 : (hi == M - v)%Q).
    { destruct (Hfilled _ Hhi_in) as [r [E [_ U]]]. inversion E; subst r.
      pose proof (Hhi_all _ Hf_top). lra. }
    assert (Hlt : (lo < hi)%Q) by lra.
    assert (Hne : ~ (lo == hi)%Q) by lra.
    assert (Hout : out = map (fun x => match x with
                                       | Some w => Some ((w - lo) / (hi - lo))%Q
                                       | None => None
                                       end) filled).
    { unfold out, DataPreparation.transform_numeric, DataPreparation.imputed.
      rewrite Hinv, Hmed. apply scale_nondegenerate; assumption. }
    repeat split.
    + exists M. repeat split; auto.
      * intros j w Hj. apply nth_error_invert; assumption.
      * unfold out, DataPreparation.transform_numeric, DataPreparation.imputed.
        rewrite Hinv. reflexivity.
    + rewrite Hout. eexists. split.
      * rewrite nth_error_map.
        unfold filled. erewrite nth_error_fillna by eassumption.
        reflexivity.
      * apply full_fraction; [assumption | lra].
    + intros x Hx. rewrite Hout in Hx. apply in_map_iff in Hx.
      destruct Hx as [x0 [E Hx0]].
      destruct (Hfilled _ Hx0) as [r [-> [L U]]]. subst x.
      eexists; split; [reflexivity|].
      apply unit_fraction; [assumption | |].
      * apply Hlo_all; assumption.
      * apply Hhi_all; assumption.
    + rewrite Hout. unfold filled, inv, DataPreparation.fillna, DataPreparation.invert.
      rewrite !length_map. reflexivity.
  - intros direction lo hi Hlo Hhi He. split.
    + unfold DataPreparation.transform_numeric.
      eapply scale_degenerate; eauto.
    + intros x Hx.
      pose proof (col_min_some_in _ _ Hlo) as Hlo_in.
      destruct (col_min_spec _ _ Hlo_in) as [lo' [Hlo' [_ Hlo_all]]].
      destruct (col_max_spec _ _ Hlo_in) as [hi' [Hhi' [_ Hhi_all]]].
      rewrite Hlo in Hlo'; rewrite Hhi in Hhi'.
      inversion Hlo'; inversion Hhi'; subst lo' hi'.
      destruct x as [r|].
      * exists r; split; [reflexivity|].
        pose proof (Hlo_all _ Hx). pose proof (Hhi_all _ Hx). lra.
      * exfalso. unfold DataPreparation.imputed in *.
        set (series := DataPreparation.inverted direction parsed) in *.
        destruct (DataPreparation.median series) as [m|] eqn:Hmed.
        -- apply in_fillna in Hx. destruct Hx as [r [E _]]. discriminate.
        -- simpl in *.
           destruct (median_between series lo lo lo Hlo_in) as [m [Hm _]].
           ++ intros w Hw. pose proof (Hlo_all _ Hw). pose proof (Hhi_all _ Hw). lra.
           ++ congruence.
Qed.


(** ** Direction, imputation and scaling of a numerical column
    (data_preparation.py) *)

Section OrderFacts.

Import DataPreparation.

Lemma inverted_lower parsed v :
  In (Some v) parsed ->
  exists M, col_max parsed = Some M
            /\ inverted (Some lower_is_better) parsed = invert (Some M) parsed.
Proof.
  intros Hv. destruct (col_max_spec parsed v Hv) as [M [HM _]].
  exists M. split; [exact HM|].
  unfold inverted. rewrite String.eqb_refl, HM. reflexivity.
Qed.

Lemma inverted_other direction parsed :
  direction <> Some lower_is_better -> inverted direction parsed = parsed.
Proof.
  intros Hd. unfold inverted. destruct direction as [d|]; [|reflexivity].
  destruct (d =? lower_is_better) eqn:E; [|reflexivity].
  apply String.eqb_eq in E. subst d. contradiction.
Qed.

Lemma median_exists xs v : In (Some v) xs -> exists m, median xs = Some m.
Proof.
  intros Hv.
  destruct (col_min_spec xs v Hv) as [lo [_ [_ Hlo]]].
  destruct (col_max_spec xs v Hv) as [hi [_ [_ Hhi]]].
  destruct (median_between xs lo hi v Hv) as [m [Hm _]].
  - intros w Hw. split; [apply Hlo | apply Hhi]; assumption.
  - exists m. exact Hm.
Qed.

Lemma fillna_complete xs v :
  In (Some v) xs ->
  forall x, In x (fillna (median xs) xs) -> exists r, x = Some r.
Proof.
  intros Hv x Hx. destruct (median_exists xs v Hv) as [m Hm].
  rewrite Hm in Hx. apply in_fillna in Hx.
  destruct Hx as [r [-> _]]. exists r. reflexivity.
Qed.

Lemma scale_spec xs v :
  In (Some v) xs ->
  exists lo hi,
    (forall w, In (Some w) xs -> lo <= w /\ w <= hi)%Q
    /\ In (Some lo) xs /\ In (Some hi) xs
    /\ (((lo == hi)%Q /\ scale xs = xs)
        \/ ((lo < hi)%Q
            /\ scale xs = map (fun x => match x with
                                        | Some w => Some ((w - lo) / (hi - lo))%Q
                                        | None => None
                                        end) xs)).
Proof.
  intros Hv.
  destruct (col_min_spec xs v Hv) as [lo [Hlo [Hlo_in Hlo_all]]].
  destruct (col_max_spec xs v Hv) as [hi [Hhi [Hhi_in Hhi_all]]].
  exists lo, hi. split; [|split; [exact Hlo_in | split; [exact Hhi_in|]]].
  - intros w Hw. split; [apply Hlo_all | apply Hhi_all]; assumption.
  - destruct (Qeq_dec lo hi) as [E|E].
    + left. split; [exact E|]. eapply scale_degenerate; eauto.
    + right. pose proof (Hhi_all _ Hlo_in). split; [lra|].
      apply scale_nondegenerate; assumption.
Qed.

Lemma scaled_fraction_le a b lo hi :
  (lo < hi)%Q -> (a <= b)%Q -> ((a - lo) / (hi - lo) <= (b - lo) / (hi - lo))%Q.
Proof.
  intros Hlt Hab. unfold Qdiv. apply Qmult_le_compat_r; [lra|].
  apply Qinv_le_0_compat. lra.
Qed.

Lemma scale_monotone xs i j a b :
  nth_error xs i = Some (Some a) -> nth_error xs j = Some (Some b) -> (a <= b)%Q ->
  exists a' b',
    nth_error (scale xs) i = Some (Some a')
    /\ nth_error (scale xs) j = Some (Some b') /\ (a' <= b')%Q.
Proof.
  intros Hi Hj Hab.
  assert (Ha : In (Some a) xs) by (eapply nth_error_In; eauto).
  destruct (scale_spec xs a Ha) as [lo [hi [_ [_ [_ [[_ E]|[Hlt E]]]]]]]; rewrite E.
  - exists a, b. auto.
  - do 2 eexists. rewrite !nth_error_map, Hi, Hj. simpl.
    split; [reflexivity|]. split; [reflexivity|].
    apply scaled_fraction_le; assumption.
Qed.

Lemma scale_complete xs :
  (forall x, In x xs -> exists r, x = Some r) ->
  forall x, In x (scale xs) -> exists r, x = Some r.
Proof.
  intros Hall x Hx.
  assert (Hne : exists v, In (Some v) xs).
  { unfold scale in Hx.
    destruct (col_min xs), (col_max xs); try destruct (Qeq_bool _ _);
      try (apply in_map_iff in Hx; destruct Hx as [x0 [_ Hx0]]);
      try (destruct (Hall _ Hx0) as [r ->]; eauto);
      destruct (Hall _ Hx) as [r ->]; eauto. }
  destruct Hne as [v Hv].
  destruct (scale_spec xs v Hv) as [lo [hi [_ [_ [_ [[_ E]|[_ E]]]]]]]; rewrite E in Hx.
  - apply Hall; assumption.
  - apply in_map_iff in Hx. destruct Hx as [x0 [<- Hx0]].
    destruct (Hall _ Hx0) as [r ->]. eauto.
Qed.

Lemma scale_unit xs a b :
  In (Some a) xs -> In (Some b) xs -> ~ (a == b)%Q ->
  forall r, In (Some r) (scale xs) -> (0 <= r /\ r <= 1)%Q.
Proof.
  intros Ha Hb Hab r Hr.
  destruct (scale_spec xs a Ha) as [lo [hi [Hall [_ [_ [[He _]|[Hlt E]]]]]]].
  - exfalso. apply Hab. pose proof (Hall _ Ha). pose proof (Hall _ Hb). lra.
  - rewrite E in Hr. apply in_map_iff in Hr. destruct Hr as [[w|] [Hw Hin]]; [|discriminate].
    inversion Hw; subst r. destruct (Hall _ Hin).
    apply unit_fraction; assumption.
Qed.

Lemma all_missing_present xs :
  (forall x, In x xs -> x = None) -> present xs = [].
Proof.
  induction xs as [|x xs IH]; intros H; [reflexivity|].
  unfold present in *. simpl. rewrite (H x (or_introl eq_refl)). simpl.
  apply IH. intros y Hy. apply H. right. exact Hy.
Qed.

Lemma all_missing_stay_missing direction parsed :
  (forall x, In x parsed -> x = None) ->
  forall x, In x (transform_numeric direction parsed) -> x = None.
Proof.
  intros Hall x Hx.
  assert (Hinv : forall y, In y (inverted direction parsed) -> y = None).
  { intros y Hy. unfold inverted in Hy.
    destruct direction as [d|]; [destruct (d =? lower_is_better)|]; auto.
    unfold invert in Hy. apply in_map_iff in Hy. destruct Hy as [y0 [<- Hy0]].
    rewrite (Hall _ Hy0). destruct (col_max parsed); reflexivity. }
  unfold transform_numeric, imputed in Hx.
  assert (Hmed : median (inverted direction parsed) = None).
  { unfold median. rewrite (all_missing_present _ Hinv). reflexivity. }
  rewrite Hmed in Hx. simpl in Hx. unfold scale, col_min, col_max in Hx.
  rewrite (all_missing_present _ Hinv) in Hx. simpl in Hx.
  apply in_map_iff in Hx. destruct Hx as [_ [<- _]]. reflexivity.
Qed.

Lemma transform_numeric_length direction parsed :
  List.length (transform_numeric direction parsed) = List.length parsed.
Proof.
  assert (Hs : forall xs, List.length (scale xs) = List.length xs).
  { intros xs. unfold scale.
    destruct (col_min xs), (col_max xs); try destruct (Qeq_bool _ _);
      rewrite ?length_map; reflexivity. }
  assert (Hf : forall m xs, List.length (fillna m xs) = List.length xs).
  { intros [m|] xs; simpl; rewrite ?length_map; reflexivity. }
  assert (Hi : List.length (inverted direction parsed) = List.length parsed).
  { unfold inverted. destruct direction as [d|]; [destruct (d =? lower_is_better)|];
      unfold invert; rewrite ?length_map; reflexivity. }
  unfold transform_numeric, imputed. rewrite Hs, Hf, Hi. reflexivity.
Qed.

End OrderFacts.

Lemma constant_series_is_kept (series : DataPreparation.float_col) c v :
  In (Some v) series ->
  (forall w, In (Some w) series -> (w == c)%Q) ->
  DataPreparation.scale (DataPreparation.fillna (DataPreparation.median series) series)
  = DataPreparation.fillna (DataPreparation.median series) series
  /\ forall x,
      In x (DataPreparation.fillna (DataPreparation.median series) series) ->
      exists r, x = Some r /\ (r == c)%Q.
Proof.
  intros Hv Hall.
  destruct (median_between series c c v Hv) as [m [Hm [Hm1 Hm2]]].
  { intros w Hw. rewrite (Hall w Hw). split; apply Qle_refl. }
  rewrite Hm.
  assert (Hfilled : forall x, In x (DataPreparation.fillna (Some m) series) ->
                              exists r, x = Some r /\ (r == c)%Q).
  { intros x Hx. apply in_fillna in Hx. destruct Hx as [r [-> [Hr|Hr]]].
    - exists r. split; [reflexivity | apply Hall; exact Hr].
    - exists r. split; [reflexivity|]. subst r. lra. }
  split; [|exact Hfilled].
  assert (Hin : In (Some v) (DataPreparation.fillna (Some m) series))
    by (apply in_fillna_keep; exact Hv).
  destruct (scale_spec _ v Hin) as [lo [hi [_ [Hlo [Hhi [[_ E]|[Hlt _]]]]]]];
    [exact E|].
  exfalso.
  destruct (Hfilled _ Hlo) as [r1 [E1 H1]]. destruct (Hfilled _ Hhi) as [r2 [E2 H2]].
  inversion E1; inversion E2; subst r1 r2. lra.
Qed.

(** A column whose parsed values are all equal: scaling is skipped, and
    the column holds the constant of the inverted column. *)
Lemma constant_column_cases (direction : option string)
    (parsed : DataPreparation.float_col) k :
  In (Some k) parsed ->
  (forall w, In (Some w) parsed -> (w == k)%Q) ->
  DataPreparation.transform_numeric direction parsed
  = DataPreparation.imputed direction parsed
  /\ forall x, In x (DataPreparation.transform_numeric direction parsed) ->
       exists r, x = Some r
         /\ (direction = Some DataPreparation.lower_is_better -> (r == 0)%Q)
         /\ (direction <> Some DataPreparation.lower_is_better -> (r == k)%Q).
Proof.
  intros Hk Hall.
  unfold DataPreparation.transform_numeric, DataPreparation.imputed.
  assert (Hdec : {direction = Some DataPreparation.lower_is_better}
                 + {direction <> Some DataPreparation.lower_is_better})
    by (decide equality; apply string_dec).
  destruct Hdec as [Hd|Hd].
  - destruct (inverted_lower parsed k Hk) as [M [HM Hinv]].
    rewrite Hd, Hinv.
    assert (HMk : (M == k)%Q).
    { destruct (col_max_spec parsed k Hk) as [M' [HM' [Hin _]]].
      rewrite HM in HM'. inversion HM'; subst M'. apply Hall. exact Hin. }
    destruct (constant_series_is_kept (DataPreparation.invert (Some M) parsed) 0 (M - k))
      as [Hskip Hcells].
    + apply in_invert. right. eauto.
    + intros w Hw. apply in_invert in Hw.
      destruct Hw as [[E _]|[w0 [E Hw0]]]; [discriminate|].
      inversion E; subst w. rewrite (Hall w0 Hw0). lra.
    + split; [exact Hskip|]. intros x Hx. rewrite Hskip in Hx.
      destruct (Hcells x Hx) as [r [-> Hr]]. exists r.
      split; [reflexivity|]. split; [intros _; exact Hr | intros Hn; contradiction].
  - rewrite (inverted_other direction parsed Hd).
    destruct (constant_series_is_kept parsed k k Hk Hall) as [Hskip Hcells].
    split; [exact Hskip|]. intros x Hx. rewrite Hskip in Hx.
    destruct (Hcells x Hx) as [r [-> Hr]]. exists r.
    split; [reflexivity|]. split; [intros Hn; contradiction | intros _; exact Hr].
Qed.

Lemma get_set_column col s df :
  get_column col (DataPreparation.set_column col s df) = Ok s.
Proof.
  unfold get_column, DataPreparation.set_column; simpl.
  induction (columns df) as [|[l old] cols IH]; simpl.
  - rewrite String.eqb_refl. reflexivity.
  - destruct (l =? col) eqn:E; simpl; rewrite E; [reflexivity | exact IH].
Qed.

(** C7, as the code has it. The loop body for a numerical variable whose
    label names one column replaces the column by its transformed values;
    when an indicator column duplicated the label, the body fails and the
    failure is raised again as a [ValueError] naming the variable. When the variable is
    declared "lower is better" and its parsed values are not all equal,
    every value [w] is first inverted to [max - w], then missing values are
    imputed by the median and the column is min-max scaled: the row that
    held the least value ends at 1 and every value of the column ends in
    [0,1]. When the imputed column has its least value equal to its
    greatest, scaling is skipped. In particular, when the parsed values are
    all equal to one constant, scaling is skipped and every cell of the
    column holds the constant of the inverted column: 0 for a "lower is
    better" variable, whose values were inverted first, and the parsed
    constant for any other direction. *)
Theorem lower_is_better_minimum_scales_to_one :
  forall (str_of_number : Q -> string) (to_numeric_string : string -> option Q)
         (config : Config.t) (col : string) (df : DataFrame) (s : Series),
    get_column col df = Ok s ->
    let parsed := DataPreparation.parse_column str_of_number to_numeric_string s in
    let direction := Config.direction (Config.get_details config col) in
    let out := DataPreparation.transform_numeric direction parsed in
    (duplicated col df = false ->
     exists df',
       DataPreparation.numerical_step str_of_number to_numeric_string config col df
       = Ok df'
       /\ get_column col df' = Ok (DataPreparation.float_series out))
    /\ (duplicated col df = true ->
        DataPreparation.numerical_step str_of_number to_numeric_string config col df
        = Raise (ValueError ("Failed to process column " ++ col)))
    /\ (direction = Some DataPreparation.lower_is_better ->
        forall (i : nat) (v : Q),
          nth_error parsed i = Some (Some v) ->
          (forall w, In (Some w) parsed -> (v <= w)%Q) ->
          (exists a b, In (Some a) parsed /\ In (Some b) parsed /\ ~ (a == b)%Q) ->
          (exists M,
              DataPreparation.col_max parsed = Some M
              /\ (forall j w, nth_error parsed j = Some (Some w) ->
                              nth_error (DataPreparation.inverted direction parsed) j
                              = Some (Some (M - w)%Q))
              /\ out = DataPreparation.scale
                         (DataPreparation.fillna
                            (DataPreparation.median
                               (DataPreparation.inverted direction parsed))
                            (DataPreparation.inverted direction parsed)))
          /\ (exists r, nth_error out i = Some (Some r) /\ (r == 1)%Q)
          /\ (forall x, In x out -> exists r, x = Some r /\ (0 <= r /\ r <= 1)%Q)
          /\ List.length out = List.length parsed)
    /\ (forall lo hi,
           DataPreparation.col_min (DataPreparation.imputed direction parsed) = Some lo ->
           DataPreparation.col_max (DataPreparation.imputed direction parsed) = Some hi ->
           (lo == hi)%Q ->
           out = DataPreparation.imputed direction parsed
           /\ forall x, In x (DataPreparation.imputed direction parsed) ->
                        exists r, x = Some r /\ (r == lo)%Q)
    /\ (forall k,
           In (Some k) parsed ->
           (forall w, In (Some w) parsed -> (w == k)%Q) ->
           out = DataPreparation.imputed direction parsed
           /\ forall x, In x out ->
                exists r, x = Some r
                  /\ (direction = Some DataPreparation.lower_is_better -> (r == 0)%Q)
                  /\ (direction <> Some DataPreparation.lower_is_better -> (r == k)%Q)).
Proof.
  intros sn tn config col df s Hcol parsed direction out.
  destruct (transform_numeric_cases parsed) as [Hlower Hdegenerate].
  split; [|split; [|split; [|split]]].
  5:{ intros k Hk Hall. apply constant_column_cases; assumption. }
  - intros Hone.
    unfold DataPreparation.numerical_step, DataPreparation.numerical_column.
    rewrite Hone, Hcol. simpl.
    eexists. split; [reflexivity|]. apply get_set_column.
  - intros Hdup.
    unfold DataPreparation.numerical_step, DataPreparation.numerical_column.
    rewrite Hdup. reflexivity.
  - intros Hdir i v Hi Hmin Hvar.
    destruct (Hlower i v Hi Hmin Hvar) as [[M [HM [Hinv [Hnth Hout]]]] [Hone [Hunit Hlen]]].
    subst out. rewrite Hdir. repeat split; auto.
    exists M. rewrite Hinv. auto.
  - intros lo hi Hlo Hhi He. apply (Hdegenerate direction lo hi Hlo Hhi He).
Qed.

Lemma lower_is_better_minimum_scales_to_one_witness :
  (exists df',
      DataPreparation.numerical_step Samples.decimal_str Samples.parse_decimal
        Samples.raw_config "spend" Samples.raw_frame = Ok df'
      /\ exists out r,
          get_column "spend" df' = Ok (DataPreparation.float_series out)
          /\ nth_error out 0 = Some (Some r) /\ (r == 1)%Q)
  /\ DataPreparation.transform_numeric (Some DataPreparation.lower_is_better)
       (DataPreparation.parse_column Samples.decimal_str Samples.parse_decimal
          (mkSeries object [Str "5"; Str "?"; Str "5"]))
     = DataPreparation.imputed (Some DataPreparation.lower_is_better)
         (DataPreparation.parse_column Samples.decimal_str Samples.parse_decimal
            (mkSeries object [Str "5"; Str "?"; Str "5"])).
Proof.
  split.
  - destruct (lower_is_better_minimum_scales_to_one Samples.decimal_str
                Samples.parse_decimal Samples.raw_config "spend" Samples.raw_frame
                _ eq_refl) as [Hstepped [_ [Hlower _]]].
    destruct (Hstepped eq_refl) as [df' [Hstep Hget]].
    exists df'. split; [exact Hstep|].
    destruct (Hlower eq_refl 0%nat 10%Q eq_refl) as [_ [[r [Hr H1]] _]].
    + intros w [E|[E|[E|[E|[]]]]]; inversion E; subst; discriminate.
    + exists 10%Q, 50%Q. simpl. repeat split; auto. discriminate.
    + eexists. exists r. split; [exact Hget|]. split; [exact Hr | exact H1].
  - destruct (lower_is_better_minimum_scales_to_one Samples.decimal_str
                Samples.parse_decimal Samples.raw_config "spend"
                (mkDataFrame 3 [("spend", mkSeries object [Str "5"; Str "?"; Str "5"])])
                _ eq_refl) as [_ [_ [_ [Hdegenerate _]]]].
    destruct (Hdegenerate (5 - 5)%Q (5 - 5)%Q eq_refl eq_refl (Qeq_refl _))
      as [Hskip _].
    exact Hskip.
Defined.

(** C7 fails as stated: a "lower is better" column whose parsed values are
    all 5 is inverted before the test on its range, so it comes out as the
    constant 0, not as the constant 5. *)
Lemma constant_lower_is_better_column_becomes_zero :
  DataPreparation.parse_column Samples.decimal_str Samples.parse_decimal
    (mkSeries object [Str "5"; Str "?"; Str "5"])
  = [Some 5%Q; None; Some 5%Q]
  /\ map (option_map Qred)
       (DataPreparation.transform_numeric (Some DataPreparation.lower_is_better)
          (DataPreparation.parse_column Samples.decimal_str Samples.parse_decimal
             (mkSeries object [Str "5"; Str "?"; Str "5"])))
     = [Some 0%Q; Some 0%Q; Some 0%Q]
  /\ map (option_map Qred)
       (DataPreparation.transform_numeric (Some "Higher values are better")
          (DataPreparation.parse_column Samples.decimal_str Samples.parse_decimal
             (mkSeries object [Str "5"; Str "?"; Str "5"])))
     = [Some 5%Q; Some 5%Q; Some 5%Q].
Proof.
  split; [|split]; vm_compute; reflexivity.
Qed.

(** ** The target column (data_preparation.py) *)

Section TargetFacts.

Import DataPreparation.

Lemma cell_eqb_refl c : cell_eqb c c = true.
Proof.
  destruct c; simpl; [apply Qeq_bool_iff; reflexivity | apply String.eqb_refl | reflexivity].
Qed.

(** Every value of the column is represented in [unique()]. *)
Lemma unique_acc_represents vs : forall seen v,
  In v vs -> existsb (cell_eqb v) seen = false ->
  exists u, In u (unique_acc seen vs) /\ cell_eqb v u = true.
Proof.
  induction vs as [|w vs IH]; intros seen v Hin Hseen; [contradiction|].
  simpl. destruct Hin as [->|Hin].
  - rewrite Hseen. exists v. split; [left; reflexivity | apply cell_eqb_refl].
  - destruct (existsb (cell_eqb w) seen) eqn:Hw.
    + apply IH; assumption.
    + destruct (cell_eqb v w) eqn:Hvw.
      * exists w. split; [left; reflexivity | assumption].
      * destruct (IH (w :: seen) v Hin) as [u [Hu Hvu]].
        { simpl. rewrite Hvw, Hseen. reflexivity. }
        exists u. split; [right; assumption | assumption].
Qed.

Lemma three_distinct {A} (a b c : A) l :
  In a l -> In b l -> In c l -> a <> b -> a <> c -> b <> c ->
  (3 <= List.length l)%nat.
Proof.
  intros Ha Hb Hc Hab Hac Hbc.
  change 3%nat with (List.length [a; b; c]).
  apply NoDup_incl_length.
  - repeat constructor; simpl; intuition.
  - intros x [<-|[<-|[<-|[]]]]; assumption.
Qed.

(** A column holding 0, 1 and a missing value has three distinct values. *)
Lemma unique_zero_one_missing vs :
  In (Num 0) vs -> In (Num 1) vs -> In NaN vs ->
  (3 <= List.length (unique vs))%nat.
Proof.
  intros H0 H1 Hn. unfold unique.
  destruct (unique_acc_represents vs [] _ H0 eq_refl) as [u0 [Hu0 E0]].
  destruct (unique_acc_represents vs [] _ H1 eq_refl) as [u1 [Hu1 E1]].
  destruct (unique_acc_represents vs [] _ Hn eq_refl) as [un [Hun En]].
  apply (three_distinct u0 u1 un); auto.
  - intros ->. destruct u1 as [q| |]; simpl in *; try discriminate.
    apply Qeq_bool_iff in E0, E1. rewrite <- E0 in E1. discriminate.
  - intros ->. destruct un; simpl in *; discriminate.
  - intros ->. destruct un; simpl in *; discriminate.
Qed.

End TargetFacts.

(** C8 on the code: a numeric target whose values are 0, 1 and missing is
    rejected. [unique()] counts the missing value as a third value, so the
    first guard raises before the subset test is reached. *)
Theorem numeric_target_with_missing_is_rejected :
  forall (str_of_number : Q -> string) (dt : dtype) (vs : list cell),
    dt <> object ->
    In (Num 0) vs -> In (Num 1) vs -> In NaN vs ->
    DataPreparation.prepare_target str_of_number (mkSeries dt vs)
    = Raise (ValueError "Target variable must be binary").
Proof.
  intros sn dt vs Hdt H0 H1 Hn.
  unfold DataPreparation.prepare_target. simpl values.
  pose proof (unique_zero_one_missing vs H0 H1 Hn) as Hlen.
  apply Nat.ltb_lt in Hlen. rewrite Hlen. reflexivity.
Qed.

Lemma numeric_target_with_missing_is_rejected_witness :
  DataPreparation.prepare_target Samples.decimal_str
    (mkSeries float64 [Num 0; Num 1; NaN; Num 1])
  = Raise (ValueError "Target variable must be binary").
Proof.
  apply (numeric_target_with_missing_is_rejected Samples.decimal_str float64
           [Num 0; Num 1; NaN; Num 1]).
  - discriminate.
  - simpl; auto.
  - simpl; auto.
  - simpl; auto.
Defined.

(** The subset test on its own: a missing value taken from the column is
    not found among the allowed values, so a 0/missing target is rejected
    by it, while a 0/1 target without missing values passes unchanged. *)
Lemma numeric_target_subset_test :
  forall (str_of_number : Q -> string),
    DataPreparation.prepare_target str_of_number (mkSeries float64 [Num 0; NaN; Num 0])
    = Raise (ValueError "Target values must be binary (0/1)")
    /\ DataPreparation.prepare_target str_of_number
         (mkSeries float64 [Num 0; Num 1; Num 1])
       = Ok (mkSeries float64 [Num 0; Num 1; Num 1]).
Proof.
  intros str_of_number. split; reflexivity.
Qed.

(** ** The validator (data_preparation.py) *)

(** C9, as the code has it. The checks run in the order missing cells,
    non-numeric columns, target values, constant columns; the first one
    that fails raises, its error names that check alone, and the checks
    after it are not run. *)
Theorem validator_raises_first_failure :
  forall (to_numeric_string : string -> option Q) (df : DataFrame) (config : Config.t),
    let validate := DataPreparation.validate_prepared_data to_numeric_string df config in
    (DataPreparation.null_counts_any df = true ->
     validate = Raise (ValueError "Dataset contains missing values"))
    /\ (DataPreparation.null_counts_any df = false ->
        DataPreparation.non_numeric to_numeric_string df <> [] ->
        validate = Raise (ValueError "Non-numeric values found"))
    /\ (DataPreparation.null_counts_any df = false ->
        DataPreparation.non_numeric to_numeric_string df = [] ->
        forall tcol,
          get_column (Config.target_variable config) df = Ok tcol ->
          (existsb is_str (DataPreparation.unique (values tcol))
           && existsb is_num (DataPreparation.unique (values tcol)) = false
           ->
           forallb DataPreparation.in_zero_one (DataPreparation.unique (values tcol)) = false
           ->
           validate = Raise (ValueError "Target must be binary (0/1)"))
          /\ (forallb DataPreparation.in_zero_one (DataPreparation.unique (values tcol)) = true
              ->
              (DataPreparation.constant_cols df <> [] ->
               validate = Raise (ValueError "Constant columns found"))
              /\ (DataPreparation.constant_cols df = [] -> validate = Ok tt))).
Proof.
  intros tn df config validate. subst validate.
  unfold DataPreparation.validate_prepared_data.
  split; [|split].
  - intros ->. reflexivity.
  - intros -> Hnn.
    destruct (DataPreparation.non_numeric tn df); [contradiction | reflexivity].
  - intros -> -> tcol ->. simpl. split.
    + intros -> ->. reflexivity.
    + intros Hbin. rewrite Hbin.
      assert (Hmix : existsb is_str (DataPreparation.unique (values tcol))
                     && existsb is_num (DataPreparation.unique (values tcol))
                     = false).
      { apply andb_false_iff. left.
        apply not_true_iff_false. intros Hs.
        apply existsb_exists in Hs. destruct Hs as [c [Hc Hstr]].
        rewrite forallb_forall in Hbin. specialize (Hbin _ Hc).
        destruct c; simpl in *; discriminate. }
      rewrite Hmix. simpl. split.
      * intros Hc. destruct (DataPreparation.constant_cols df); [contradiction | reflexivity].
      * intros ->. reflexivity.
Qed.

Lemma validator_raises_first_failure_witness :
  DataPreparation.validate_prepared_data Samples.parse_decimal
    Samples.flawed_frame Samples.ranged_config
  = Raise (ValueError "Dataset contains missing values")
  /\ DataPreparation.validate_prepared_data Samples.parse_decimal
       Samples.scaled_frame Samples.ranged_config
     = Ok tt.
Proof.
  split.
  - apply (validator_raises_first_failure Samples.parse_decimal
             Samples.flawed_frame Samples.ranged_config).
    reflexivity.
  - destruct (validator_raises_first_failure Samples.parse_decimal
                Samples.scaled_frame Samples.ranged_config) as [_ [_ H]].
    destruct (H eq_refl eq_refl _ eq_refl) as [_ Hbinary].
    destruct (Hbinary eq_refl) as [_ Hpass].
    exact (Hpass eq_refl).
Defined.

(** C9 fails as stated: a frame with a missing cell and a constant column
    is rejected with the error of the missing-value check alone. *)
Lemma validator_stops_at_missing_values :
  DataPreparation.null_counts_any Samples.flawed_frame = true
  /\ DataPreparation.constant_cols Samples.flawed_frame = ["k"]
  /\ DataPreparation.validate_prepared_data Samples.parse_decimal
       Samples.flawed_frame Samples.ranged_config
     = Raise (ValueError "Dataset contains missing values").
Proof.
  repeat split.
Qed.

(** ** The columns kept by the transformer (data_preparation.py) *)

Section KeptColumns.

Import DataPreparation.

Lemma mem_In s l : mem s l = true <-> In s l.
Proof.
  unfold mem. rewrite existsb_exists. split.
  - intros [x [Hx E]]. apply String.eqb_eq in E. subst; assumption.
  - intros H. exists s. split; [assumption | apply String.eqb_refl].
Qed.

Lemma drop_names labels df out :
  drop labels df = Ok out ->
  forall n, In n (column_names out) -> In n (column_names df) /\ ~ In n labels.
Proof.
  unfold drop. destruct (find _ labels); [discriminate|].
  intros H; inversion H; subst out; clear H. unfold column_names; simpl.
  intros n Hn. apply in_map_iff in Hn. destruct Hn as [p [<- Hp]].
  apply filter_In in Hp. destruct Hp as [Hp Hm].
  split; [apply in_map; assumption|].
  intros Hin. apply mem_In in Hin. rewrite Hin in Hm. discriminate.
Qed.

Lemma select_one_names df label cs :
  select_one df label = Ok cs ->
  forall p, In p cs -> fst p = label /\ In (fst p) (column_names df).
Proof.
  unfold select_one.
  destruct (filter (fun p => fst p =? label) (columns df)) as [|c0 cs0] eqn:E;
    [discriminate|].
  intros H; inversion H; subst cs; clear H.
  intros p Hp. rewrite <- E in Hp. apply filter_In in Hp. destruct Hp as [Hp He].
  apply String.eqb_eq in He. split; [assumption | apply in_map; assumption].
Qed.

Lemma mapM_select_names df labels : forall picked,
  mapM (select_one df) labels = Ok picked ->
  forall p, In p (List.concat picked) ->
            In (fst p) labels /\ In (fst p) (column_names df).
Proof.
  induction labels as [|l labels IH]; simpl; intros picked H.
  - inversion H; subst; simpl; contradiction.
  - destruct (select_one df l) as [cs|e] eqn:Hl; simpl in H; [|discriminate].
    destruct (mapM (select_one df) labels) as [rest|e] eqn:Hr; simpl in H; [|discriminate].
    inversion H; subst picked; clear H. simpl.
    intros p Hp. apply in_app_or in Hp. destruct Hp as [Hp|Hp].
    + destruct (select_one_names _ _ _ Hl _ Hp) as [E Hin]. auto.
    + destruct (IH _ eq_refl _ Hp); auto.
Qed.

Lemma select_names labels df out :
  select labels df = Ok out ->
  forall n, In n (column_names out) -> In n labels /\ In n (column_names df).
Proof.
  unfold select.
  destruct (mapM (select_one df) labels) as [picked|e] eqn:Hp; simpl; [|discriminate].
  intros H; inversion H; subst out; clear H. unfold column_names at 1; simpl.
  intros n Hn. apply in_map_iff in Hn. destruct Hn as [p [<- Hin]].
  eapply mapM_select_names; eauto.
Qed.

End KeptColumns.

(** C10. Whenever the transformer returns a frame, no column of it bears the
    name of a declared ordered categorical variable: its rank codes were
    stored under the variable's own name (last part of the statement) and
    are dropped with the original categorical columns. Every column
    returned is the target, a declared numerical variable, or a column whose
    name starts with a declared categorical variable's name followed by an
    underscore. *)
Theorem ordered_categorical_leaves_no_column :
  forall (str_of_number : Q -> string) (to_numeric_string : string -> option Q)
         (df : DataFrame) (config : Config.t) (out : DataFrame),
    DataPreparation.prepare_analysis_data str_of_number to_numeric_string df config
    = Ok out ->
    (forall c,
        In c (Config.categorical_variables config) ->
        Config.has_order (Config.get_details config c) = true ->
        ~ In c (DataPreparation.column_names out))
    /\ (forall name,
           In name (DataPreparation.column_names out) ->
           name = Config.target_variable config
           \/ In name (Config.numerical_variables config)
           \/ exists cat,
               In cat (Config.categorical_variables config)
               /\ prefix (cat ++ "_") name = true)
    /\ (forall c order frame s dummies,
           Config.has_order (Config.get_details config c) = true ->
           Config.value_order (Config.get_details config c) = Some order ->
           get_column c frame = Ok s ->
           exists frame',
             DataPreparation.categorical_step str_of_number config c (frame, dummies)
             = Ok (frame', dummies)
             /\ get_column c frame'
                = Ok (DataPreparation.ordered_codes str_of_number order
                        (DataPreparation.fill_missing s))).
Proof.
  intros sn tn df config out H.
  unfold DataPreparation.prepare_analysis_data in H.
  destruct (DataPreparation.categorical_loop sn config _ _) as [[df1 dummies]|e];
    simpl in H; [|discriminate].
  destruct (DataPreparation.numerical_loop sn tn config _ _) as [df2|e];
    simpl in H; [|discriminate].
  destruct (DataPreparation.target_column _ df2) as [tcol|e]; simpl in H; [|discriminate].
  destruct (DataPreparation.prepare_target sn tcol) as [tcol'|e]; simpl in H; [|discriminate].
  destruct (DataPreparation.drop _ _) as [df4|e] eqn:Hdrop; simpl in H; [|discriminate].
  destruct (DataPreparation.select _ df4) as [df5|e] eqn:Hsel; simpl in H; [|discriminate].
  destruct (DataPreparation.validate_prepared_data tn df5 config) as [[]|e];
    simpl in H; [|discriminate].
  inversion H; subst out; clear H.
  pose proof (select_names _ _ _ Hsel) as Hkept.
  pose proof (drop_names _ _ _ Hdrop) as Hdropped.
  split; [|split].
  3:{ intros c order frame s pending Hord Hvo Hs.
      unfold DataPreparation.categorical_step. rewrite Hs. simpl. rewrite Hord, Hvo.
      eexists. split; [reflexivity | apply get_set_column]. }
  - intros c Hc _ Hin.
    destruct (Hkept _ Hin) as [_ Hin4].
    destruct (Hdropped _ Hin4) as [_ Hnot]. contradiction.
  - intros name Hin.
    destruct (Hkept _ Hin) as [Hkeep _].
    destruct Hkeep as [<-|Hkeep]; [left; reflexivity|].
    apply in_app_or in Hkeep. destruct Hkeep as [Hnum|Hpre]; [right; left; assumption|].
    right; right.
    apply filter_In in Hpre. destruct Hpre as [_ Hpre].
    unfold DataPreparation.has_prefix_of in Hpre.
    apply existsb_exists in Hpre. destruct Hpre as [cat [Hcat Hp]].
    exists cat; split; assumption.
Qed.

Lemma ordered_categorical_leaves_no_column_witness :
  exists out,
    DataPreparation.prepare_analysis_data Samples.decimal_str Samples.parse_decimal
      Samples.raw_frame Samples.raw_config = Ok out
    /\ DataPreparation.column_names out
       = ["bought"; "spend"; "region_code"; "region_MISSING"; "region_east"; "region_west"]
    /\ ~ In "tier" (DataPreparation.column_names out).
Proof.
  eexists. split; [vm_compute; reflexivity|]. split; [reflexivity|].
  eapply (ordered_categorical_leaves_no_column Samples.decimal_str Samples.parse_decimal
            Samples.raw_frame Samples.raw_config).
  - vm_compute; reflexivity.
  - simpl; auto.
  - reflexivity.
Defined.

(** ** The decile table (analysis.py) *)

Section SortFacts.

Import DataPreparation.

Lemma Qle_bool_false_lt q h : Qle_bool q h = false -> (h < q)%Q.
Proof.
  intros H. apply Qnot_le_lt. rewrite <- Qle_bool_iff. congruence.
Qed.

Lemma insert_sorted_sorted q l :
  StronglySorted Qle l -> StronglySorted Qle (insert_sorted q l).
Proof.
  induction 1 as [|h t Hs IH Hall]; simpl.
  - repeat constructor.
  - destruct (Qle_bool q h) eqn:E.
    + apply Qle_bool_iff in E. constructor; [constructor; assumption|].
      constructor; [assumption|].
      eapply Forall_impl; [|exact Hall]. intros x Hx. eapply Qle_trans; eauto.
    + apply Qle_bool_false_lt in E. constructor; [assumption|].
      apply Forall_forall. intros x Hx. apply in_insert_sorted in Hx.
      destruct Hx as [->|Hx]; [apply Qlt_le_weak; assumption|].
      rewrite Forall_forall in Hall; auto.
Qed.

Lemma sort_sorted l : StronglySorted Qle (sort l).
Proof.
  induction l as [|h t IH]; simpl; [constructor | apply insert_sorted_sorted; assumption].
Qed.

Lemma sorted_first_least s :
  StronglySorted Qle s -> forall x, In x s -> (nth 0 s 0 <= x)%Q.
Proof.
  intros Hs x Hx. destruct Hs as [|h t _ Hall]; [contradiction|]. simpl.
  destruct Hx as [<-|Hx]; [apply Qle_refl|].
  rewrite Forall_forall in Hall; auto.
Qed.

Lemma sorted_last_greatest s :
  StronglySorted Qle s -> forall x, In x s -> (x <= nth (List.length s - 1) s 0)%Q.
Proof.
  induction 1 as [|h t Hs IH Hall]; intros x Hx; [contradiction|].
  simpl. rewrite Nat.sub_0_r.
  destruct t as [|h' t'].
  - destruct Hx as [<-|[]]. apply Qle_refl.
  - assert (Hlast : forall y, In y (h' :: t') ->
                              (y <= nth (List.length t') (h' :: t') 0)%Q).
    { intros y Hy. specialize (IH y Hy). simpl in IH. rewrite Nat.sub_0_r in IH. exact IH. }
    destruct Hx as [<-|Hx]; [|apply Hlast; assumption].
    rewrite Forall_forall in Hall.
    eapply Qle_trans; [apply (Hall h'); simpl; auto | apply Hlast; simpl; auto].
Qed.

End SortFacts.

Section QcutFacts.

Import Analysis.

Lemma quantile_lowest s : (quantile s 0 == nth 0 s 0)%Q.
Proof.
  unfold quantile.
  set (pos := (inject_Z (Z.of_nat 0) / 10 * inject_Z (Z.of_nat (List.length s - 1)))%Q).
  assert (Hpos : (pos == 0)%Q) by (unfold pos; simpl; field).
  assert (Hfl : Qfloor pos = 0%Z) by (rewrite Hpos; reflexivity).
  rewrite Hfl. simpl Z.to_nat. simpl Nat.add.
  rewrite Hpos. simpl inject_Z. ring.
Qed.

Lemma quantile_highest s :
  (quantile s 10 == nth (List.length s - 1) s 0)%Q.
Proof.
  unfold quantile.
  set (n1 := (List.length s - 1)%nat).
  set (pos := (inject_Z (Z.of_nat 10) / 10 * inject_Z (Z.of_nat n1))%Q).
  assert (Hpos : (pos == inject_Z (Z.of_nat n1))%Q) by (unfold pos; simpl; field).
  assert (Hfl : Qfloor pos = Z.of_nat n1) by (rewrite Hpos; apply Qfloor_Z).
  rewrite Hfl, Nat2Z.id. rewrite Hpos. ring.
Qed.

Lemma bin_edges_shape x :
  bin_edges x =
  quantile (DataPreparation.sort x) 0
  :: (map (quantile (DataPreparation.sort x)) (seq 1 9)
      ++ [quantile (DataPreparation.sort x) 10])%list.
Proof. reflexivity. Qed.

Lemma edges_enclose x v :
  In v x ->
  (quantile (DataPreparation.sort x) 0 <= v
   /\ v <= quantile (DataPreparation.sort x) 10)%Q.
Proof.
  intros Hv. rewrite quantile_lowest, quantile_highest.
  apply in_sort in Hv.
  split; [apply sorted_first_least | apply sorted_last_greatest];
    auto using sort_sorted.
Qed.

Lemma filter_length_le {A} (f : A -> bool) l :
  (List.length (filter f l) <= List.length l)%nat.
Proof.
  induction l as [|a l IH]; simpl; [lia|]. destruct (f a); simpl; lia.
Qed.

Lemma count_between {A} (f : A -> bool) (a : A) (mid : list A) (z : A) :
  f a = true -> f z = false ->
  List.length (filter f (a :: mid ++ [z])) = S (List.length (filter f mid)).
Proof.
  intros Ha Hz. simpl. rewrite Ha, filter_app. simpl. rewrite Hz, app_nil_r. reflexivity.
Qed.

Lemma bin_edges_length x : List.length (bin_edges x) = 11%nat.
Proof. unfold bin_edges. rewrite length_map, length_seq. reflexivity. Qed.

(** Every value that was binned falls in one of the ten bins. *)
Lemma bin_of_in_range x v :
  In v x -> exists k, bin_of (bin_edges x) v = Some k /\ (k < 10)%nat.
Proof.
  intros Hv. destruct (edges_enclose x v Hv) as [Hlo Hhi].
  unfold bin_of. rewrite bin_edges_length.
  replace (hd 0%Q (bin_edges x)) with (quantile (DataPreparation.sort x) 0)
    by reflexivity.
  set (s := DataPreparation.sort x) in *.
  destruct (Qeq_bool v (quantile s 0)) eqn:E.
  - exists 0%nat. split; [reflexivity | lia].
  - assert (Hlt : (quantile s 0 < v)%Q).
    { destruct (Qlt_le_dec (quantile s 0) v) as [|Hge]; [assumption|].
      exfalso. assert (Heq : (v == quantile s 0)%Q) by lra.
      apply Qeq_bool_iff in Heq. congruence. }
    apply Qlt_bool_iff in Hlt.
    assert (Hlast : Qlt_bool (quantile s 10) v = false)
      by (apply Qlt_bool_false_iff; assumption).
    unfold searchsorted_left. rewrite bin_edges_shape. fold s.
    rewrite (count_between (fun b => Qlt_bool b v) _ _ _ Hlt Hlast).
    set (mid := filter (fun b => Qlt_bool b v) (map (quantile s) (seq 1 9))).
    assert (Hmid : (List.length mid <= 9)%nat).
    { unfold mid. etransitivity; [apply filter_length_le|].
      rewrite length_map, length_seq. lia. }
    exists (List.length mid). split; [|lia].
    replace (S (List.length mid) =? 0)%nat with false by reflexivity.
    destruct (S (List.length mid) =? 11)%nat eqn:E11.
    + apply Nat.eqb_eq in E11. lia.
    + simpl. rewrite Nat.sub_0_r. reflexivity.
Qed.

Lemma qcut_codes x codes :
  qcut x = Ok codes ->
  List.length codes = List.length x
  /\ forall c, In c codes -> exists k, c = Some k /\ (k < 10)%nat.
Proof.
  unfold qcut. destruct x as [|v0 x0] eqn:Ex; [discriminate|]. rewrite <- Ex.
  destruct (has_duplicates (bin_edges x)); [discriminate|].
  intros H; inversion H; subst codes; clear H. split.
  - apply length_map.
  - intros c Hc. apply in_map_iff in Hc. destruct Hc as [v [<- Hv]].
    apply bin_of_in_range; assumption.
Qed.

End QcutFacts.

Section GroupFacts.

Import Analysis.

Lemma code_eqb_eq a b : code_eqb a b = true <-> a = b.
Proof.
  destruct a as [i|], b as [j|]; simpl; try (split; congruence).
  rewrite Nat.eqb_eq. split; congruence.
Qed.

Lemma seen_In c seen : existsb (code_eqb c) seen = true <-> In c seen.
Proof.
  rewrite existsb_exists. split.
  - intros [x [Hx E]]. apply code_eqb_eq in E. subst; assumption.
  - intros H. exists c. split; [assumption | apply code_eqb_eq; reflexivity].
Qed.

Lemma unique_codes_spec codes : forall seen,
  NoDup (unique_codes seen codes)
  /\ forall c, In c (unique_codes seen codes) <-> In c codes /\ ~ In c seen.
Proof.
  induction codes as [|c0 codes IH]; intros seen; simpl.
  - split; [constructor | intros c; tauto].
  - destruct (existsb (code_eqb c0) seen) eqn:E.
    + apply seen_In in E. destruct (IH seen) as [Hnd Hin]. split; [assumption|].
      intros c. rewrite Hin. split; [tauto|].
      intros [[<-|Hc] Hs]; [contradiction | tauto].
    + assert (Hns : ~ In c0 seen) by (rewrite <- seen_In; congruence).
      destruct (IH (c0 :: seen)) as [Hnd Hin]. split.
      * constructor; [|assumption]. rewrite Hin. simpl. tauto.
      * intros c. simpl. rewrite Hin. simpl. split.
        -- intros [<-|[Hc Hs]]; tauto.
        -- intros [[<-|Hc] Hs]; [tauto|].
           destruct (code_eqb c0 c) eqn:Ec.
           ++ apply code_eqb_eq in Ec. tauto.
           ++ right. split; [assumption|]. intros [->|H]; [|tauto].
              rewrite (proj2 (code_eqb_eq c c) eq_refl) in Ec. discriminate.
Qed.

(** When ten distinct labels appear, each of the ten bins holds a row. *)
Lemma all_bins_observed codes :
  (forall c, In c codes -> exists k, c = Some k /\ (k < 10)%nat) ->
  List.length (unique_codes [] codes) = 10%nat ->
  forall k, (k < 10)%nat -> In (Some k) codes.
Proof.
  intros Hrange Hlen k Hk.
  destruct (unique_codes_spec codes []) as [Hnd Hin].
  assert (Hincl : incl (unique_codes [] codes) (map Some (seq 0 10))).
  { intros c Hc. apply Hin in Hc. destruct Hc as [Hc _].
    destruct (Hrange _ Hc) as [j [-> Hj]].
    apply in_map, in_seq. lia. }
  assert (Hback : incl (map Some (seq 0 10)) (unique_codes [] codes)).
  { apply NoDup_length_incl; [assumption | | assumption].
    rewrite Hlen, length_map, length_seq. lia. }
  apply (Hin (Some k)), Hback, in_map, in_seq. lia.
Qed.

Lemma group_cons k c codes v y :
  group k (c :: codes) (v :: y) =
  if code_eqb c (Some k) then v :: group k codes y else group k codes y.
Proof. reflexivity. Qed.

Lemma group_nonempty k codes : forall y,
  List.length y = List.length codes -> In (Some k) codes -> group k codes y <> [].
Proof.
  induction codes as [|c codes IH]; intros y Hlen Hin; [contradiction|].
  destruct y as [|v y]; [discriminate|]. rewrite group_cons.
  destruct (code_eqb c (Some k)) eqn:E; [discriminate|].
  destruct Hin as [->|Hin].
  - rewrite (proj2 (code_eqb_eq _ _) eq_refl) in E. discriminate.
  - apply IH; [simpl in Hlen; lia | assumption].
Qed.

Lemma one_bin_nat c : forall start len,
  (start <= c < start + len)%nat ->
  fold_right Nat.add 0%nat
    (map (fun k => if code_eqb (Some c) (Some k) then 1%nat else 0%nat) (seq start len))
  = 1%nat.
Proof.
  intros start len; revert start.
  induction len as [|len IH]; intros start H; [lia|]. simpl.
  destruct (c =? start)%nat eqn:E.
  - apply Nat.eqb_eq in E. subst c.
    assert (Hz : forall s l, (start < s)%nat ->
                fold_right Nat.add 0%nat
                  (map (fun k => if (start =? k)%nat then 1%nat else 0%nat) (seq s l))
                = 0%nat).
    { intros s l; revert s. induction l as [|l IHl]; intros s Hs; simpl; [reflexivity|].
      destruct (start =? s)%nat eqn:E'; [apply Nat.eqb_eq in E'; lia|].
      apply IHl. lia. }
    rewrite Hz by lia. reflexivity.
  - apply Nat.eqb_neq in E. rewrite IH by lia. reflexivity.
Qed.


Lemma sum_map_add (f g : nat -> nat) ks :
  fold_right Nat.add 0%nat (map (fun k => (f k + g k)%nat) ks)
  = (fold_right Nat.add 0%nat (map f ks) + fold_right Nat.add 0%nat (map g ks))%nat.
Proof. induction ks as [|k ks IH]; simpl; lia. Qed.





End GroupFacts.

Section TableFacts.

Import Analysis.





Lemma response_rates_inv y probs table :
  response_rates y probs = Ok table ->
  exists deciles,
    qcut probs = Ok deciles
    /\ List.length y = List.length deciles
    /\ List.length (unique_codes [] deciles) = 10%nat
    /\ table = map (table_row (mean y))
                 (combine (unique_codes [] deciles)
                    (combine (map (fun k => List.length (group k deciles y)) (seq 0 10))
                             (map (fun k => mean (group k deciles y)) (seq 0 10)))).
Proof.
  unfold response_rates.
  destruct (qcut probs) as [deciles|e]; simpl; [|discriminate].
  destruct (List.length y =? List.length deciles)%nat eqn:Hlen; simpl; [|discriminate].
  destruct (List.length (unique_codes [] deciles) =? 10)%nat eqn:Hten; simpl; [|discriminate].
  intros H; inversion H; subst table; clear H.
  apply Nat.eqb_eq in Hlen, Hten. exists deciles. auto.
Qed.

End TableFacts.



(** C3 on a hundred rows listed from the most probable to the least, of
    which the ten most probable responded. The ten rows of the top bin
    (D10) have mean 1 and those of the bottom bin (D1) mean 0; the table
    keeps the statistics in bin order, so its last record holds the top
    bin's rate, but the labels come in order of appearance: the first
    record is labelled D10 and carries the bottom bin's rate, the last is
    labelled D1 and carries the top bin's. *)
Theorem decile_labels_follow_appearance :
  exists deciles table,
    Analysis.qcut Samples.descending_probabilities = Ok deciles
    /\ Analysis.response_rates Samples.top_ten_respond Samples.descending_probabilities
       = Ok table
    /\ hd_error deciles = Some (Some 9%nat)
    /\ option_map Qred (Analysis.mean (Analysis.group 9 deciles Samples.top_ten_respond))
       = Some 1%Q
    /\ option_map Qred (Analysis.mean (Analysis.group 0 deciles Samples.top_ten_respond))
       = Some 0%Q
    /\ map Analysis.decile table
       = map Some ["D10"; "D9"; "D8"; "D7"; "D6"; "D5"; "D4"; "D3"; "D2"; "D1"]
    /\ map Analysis.count table = repeat 10%nat 10
    /\ map (fun r => option_map Qred (Analysis.response_rate r)) table
       = map Some [0; 0; 0; 0; 0; 0; 0; 0; 0; 1]%Q.
Proof.
  do 2 eexists. split; [vm_compute; reflexivity|].
  split; [vm_compute; reflexivity|].
  repeat split; vm_compute; reflexivity.
Qed.

(** ** The result object (analysis.py) *)

(** C4 on the code: the metrics of a successful run are the baseline rate
    and the top-decile rate, and nothing else; no AUC, average precision or
    cross-validated AUC is reported. *)
Theorem successful_run_reports_two_metrics :
  forall (str_of_number : Q -> string) (to_numeric_string : string -> option Q)
         (format_2f : Q -> string)
         (fit : DataFrame -> list cell ->
                result (list Q * list Analysis.FeatureRow * list Q))
         (df : DataFrame) (config : Config.t)
         metrics feature_importance scoring_rules response_rates,
    Analysis.run_analysis str_of_number to_numeric_string format_2f fit df config
    = Analysis.Success metrics feature_importance scoring_rules response_rates ->
    map fst metrics = ["baseline_rate"; "top_decile_rate"]
    /\ forall key, In key ["auc_score"; "avg_precision"; "cross_val_auc"] ->
                   ~ In key (map fst metrics).
Proof.
  intros sn tn fmt fit df config metrics fi rules rates H.
  assert (Hkeys : map fst metrics = ["baseline_rate"; "top_decile_rate"]).
  { unfold Analysis.run_analysis in H.
    destruct (Analysis.run_analysis_body sn tn fmt fit df config) as [r|e] eqn:Hbody;
      [subst r | discriminate].
    unfold Analysis.run_analysis_body in Hbody.
    destruct (Config.source_table config) as [table|]; [|discriminate].
    destruct (table =? ""); [discriminate|].
    destruct (nrows df =? 0)%nat; [discriminate|].
    destruct (reraise _ _) as [df_prep|e]; simpl in Hbody; [|discriminate].
    destruct (get_column _ df_prep) as [y|e]; simpl in Hbody; [|discriminate].
    destruct (DataPreparation.drop _ df_prep) as [X|e]; simpl in Hbody; [|discriminate].
    destruct (nrows X <? 100)%nat; [discriminate|].
    destruct (fit X (values y)) as [[[coef rows] scores]|e]; simpl in Hbody; [|discriminate].
    destruct (generate_scoring_rules _ _ _ _ _) as [rs|e]; simpl in Hbody; [|discriminate].
    destruct (apply_scoring_rules _ _) as [simple|e]; simpl in Hbody; [|discriminate].
    destruct (mapM Analysis.target_number _) as [yv|e]; simpl in Hbody; [|discriminate].
    destruct (Analysis.response_rates yv scores) as [t|e]; simpl in Hbody; [|discriminate].
    inversion Hbody; subst. reflexivity. }
  split; [assumption|].
  intros key Hkey. rewrite Hkeys. simpl in *.
  intros [E|[E|[]]]; subst key;
    destruct Hkey as [E|[E|[E|[]]]]; discriminate.
Qed.

Lemma successful_run_reports_two_metrics_witness :
  exists metrics feature_importance scoring_rules response_rates,
    Analysis.run_analysis Samples.decimal_str Samples.parse_decimal Samples.two_decimals
      Samples.fitted_model Samples.campaign_frame Samples.campaign_config
    = Analysis.Success metrics feature_importance scoring_rules response_rates
    /\ map fst metrics = ["baseline_rate"; "top_decile_rate"].
Proof.
  do 4 eexists. split; [vm_compute; reflexivity|].
  eapply (successful_run_reports_two_metrics Samples.decimal_str Samples.parse_decimal
            Samples.two_decimals Samples.fitted_model Samples.campaign_frame
            Samples.campaign_config).
  vm_compute; reflexivity.
Defined.

(* ================================================================== *)
(** * Part III: further properties of the code *)
(* ================================================================== *)

(** ** From the generator to the evaluator (scoring.py) *)

Section RuleSetFacts.

Variable format_2f : Q -> string.

Lemma threshold_rule_evaluable name base t adj :
  variable (threshold_rule format_2f name base t adj) = name
  /\ evaluable (threshold_rule format_2f name base t adj).
Proof.
  split; [reflexivity|]. left. split; [reflexivity | eexists; reflexivity].
Qed.

(** The rules of one feature: named after it, evaluable, and carrying the
    base adjustment or one of its two shares. *)
Lemma feature_rules_shape df config scale name c rs :
  feature_rules format_2f df config scale name c = Ok rs ->
  forall r, In r rs ->
    variable r = name /\ evaluable r
    /\ (1 # 100 <= Qabs c)%Q
    /\ exists adj,
        base_adjustment c scale = Ok adj
        /\ (adjustment r = adj
            \/ share adj (7 # 10) = Ok (adjustment r)
            \/ share adj (3 # 10) = Ok (adjustment r)).
Proof.
  unfold feature_rules. intros H r Hin.
  destruct (Qlt_bool (Qabs c) (1 # 100)) eqn:Hc.
  { inversion H; subst; contradiction. }
  apply Qlt_bool_false_iff in Hc.
  set (ty := match Config.type_ (Config.get_details config (before_underscore name))
             with Some t => t | None => "categorical" end) in H.
  destruct (base_adjustment c scale) as [adj|e] eqn:Hadj; simpl in H; [|discriminate].
  destruct (ty =? "numerical").
  - assert (Hne : rs <> []) by (intros ->; contradiction).
    destruct (numerical_rules_inv _ _ _ _ _ _ _ H Hne)
      as [col [cmin [cmax [lo [hi [high_adj [med_adj
          [_ [_ [_ [_ [Hhigh [Hmed Hrs]]]]]]]]]]]]].
    rewrite Hrs in Hin.
    destruct Hin as [<-|[<-|[]]];
      (split; [reflexivity|]); (split; [apply threshold_rule_evaluable|]);
      (split; [assumption|]); exists adj; (split; [reflexivity|]); simpl; auto.
  - assert (Hp : forall text,
               r = mkRule name "present" None adj text ->
               variable r = name /\ evaluable r /\ (1 # 100 <= Qabs c)%Q
               /\ exists adj0,
                   Ok adj = Ok adj0
                   /\ (adjustment r = adj0
                       \/ share adj0 (7 # 10) = Ok (adjustment r)
                       \/ share adj0 (3 # 10) = Ok (adjustment r))).
    { intros text ->. repeat split; auto.
      - right. split; reflexivity.
      - exists adj. split; [reflexivity | left; reflexivity]. }
    destruct (has_underscore name); inversion H; subst rs;
      destruct Hin as [<-|[]]; eapply Hp; reflexivity.
Qed.

Lemma feature_loop_shape df config scale names : forall coefs rs,
  feature_loop format_2f df config scale names coefs = Ok rs ->
  (List.length rs <= 2 * List.length names)%nat
  /\ forall r, In r rs -> In (variable r) names /\ evaluable r.
Proof.
  induction names as [|name names IH]; simpl; intros coefs rs H.
  - inversion H; subst. split; [simpl; lia | intros r []].
  - destruct coefs as [|c coefs]; [discriminate|].
    destruct (feature_rules format_2f df config scale name c) as [out|e] eqn:Hout;
      simpl in H; [|discriminate].
    destruct (feature_loop format_2f df config scale names coefs) as [rest|e] eqn:Hrest;
      simpl in H; [|discriminate].
    inversion H; subst rs; clear H.
    destruct (IH _ _ Hrest) as [Hlen Hall].
    assert (Hout_len : (List.length out <= 2)%nat).
    { unfold feature_rules in Hout.
      destruct (Qlt_bool (Qabs c) (1 # 100)); [inversion Hout; simpl; lia|].
      destruct (base_adjustment c scale) as [adj|e]; simpl in Hout; [|discriminate].
      destruct (_ =? "numerical").
      - destruct out as [|r0 out0] eqn:E; [simpl; lia|].
        rewrite <- E in Hout.
        destruct (numerical_rules_inv _ _ _ _ _ _ _ Hout ltac:(subst; discriminate))
          as [? [? [? [? [? [? [? [_ [_ [_ [_ [_ [_ Hrs]]]]]]]]]]]]].
        rewrite <- E, Hrs. simpl; lia.
      - destruct (has_underscore name); inversion Hout; simpl; lia. }
    split; [rewrite length_app; lia|].
    intros r Hr. apply in_app_or in Hr. destruct Hr as [Hr|Hr].
    + destruct (feature_rules_shape _ _ _ _ _ _ Hout r Hr) as [Hv [He _]].
      split; [left; symmetry; assumption | assumption].
    + destruct (Hall r Hr). split; [right|]; assumption.
Qed.

Lemma evaluable_ready (df : DataFrame) r :
  no_strings df = true -> evaluable r -> threshold_ready df r = true.
Proof.
  intros Hns He. unfold threshold_ready.
  destruct (is_base r); [reflexivity|]. simpl.
  destruct (find (fun p => fst p =? variable r) (columns df)) as [[l col]|] eqn:Hf;
    [|reflexivity].
  destruct He as [[Hp [t Ht]]|[Hc Ht]].
  - rewrite Hp, Ht. simpl.
    apply find_some in Hf. destruct Hf as [Hin _].
    unfold no_strings in Hns. rewrite forallb_forall in Hns. apply (Hns _ Hin).
  - rewrite Hc. reflexivity.
Qed.

End RuleSetFacts.

(** X1. A generated rule set is the base rule of 1000 points followed by at
    most two rules per feature, each named after a feature and of a kind the
    evaluator reads. Applied to any frame without string cells it never
    raises: it yields one score per row, the row's additive score over a
    base of 1000. *)
Theorem generated_rules_evaluate :
  forall (format_2f : Q -> string) (df : DataFrame) (coefs : list Q)
         (names : list string) (config : Config.t) (rules : list rule)
         (population : DataFrame),
    generate_scoring_rules format_2f df coefs names config = Ok rules ->
    no_strings population = true ->
    (exists rest,
        rules = base_score_rule 1000 :: rest
        /\ (List.length rest <= 2 * List.length names)%nat
        /\ forall r, In r rest -> In (variable r) names /\ evaluable r)
    /\ exists scores,
        apply_scoring_rules population rules = Ok scores
        /\ List.length scores = nrows population
        /\ forall i, (i < nrows population)%nat ->
                     nth i scores 0 = additive_score population rules 1000 i.
Proof.
  intros fmt df coefs names config rules population Hgen Hns.
  unfold generate_scoring_rules, generate_scoring_rules_with in Hgen.
  destruct (feature_loop fmt df config 1000 names coefs) as [rest|e] eqn:Hloop;
    simpl in Hgen; [|discriminate].
  inversion Hgen; subst rules; clear Hgen.
  destruct (feature_loop_shape _ _ _ _ _ _ _ Hloop) as [Hlen Hall].
  split; [exists rest; auto|].
  unfold apply_scoring_rules. simpl base_rule. simpl.
  assert (Hready : forallb (threshold_ready population) (base_score_rule 1000 :: rest) = true).
  { simpl. apply forallb_forall. intros r Hr.
    apply evaluable_ready; [assumption | apply Hall; assumption]. }
  destruct (apply_rules_total population (base_score_rule 1000 :: rest)
              (repeat 1000 (nrows population)) Hready) as [scores Hscores].
  exists scores. split; [exact Hscores|].
  destruct (apply_rules_sound _ _ _ _ Hscores) as [Hl Hnth].
  rewrite repeat_length in Hl. split; [assumption|].
  intros i Hi. unfold additive_score.
  rewrite Hnth by (rewrite repeat_length; assumption).
  rewrite nth_repeat_lt by assumption. reflexivity.
Qed.

Lemma generated_rules_evaluate_witness :
  exists rules scores,
    generate_scoring_rules Samples.two_decimals Samples.scaled_frame
      [1 # 2; -(156 # 10000)]%Q ["x"; "region_east"] Samples.campaign_config = Ok rules
    /\ apply_scoring_rules Samples.scaled_frame rules = Ok scores
    /\ List.length scores = 3%nat.
Proof.
  destruct (generate_scoring_rules Samples.two_decimals Samples.scaled_frame
              [1 # 2; -(156 # 10000)]%Q ["x"; "region_east"] Samples.campaign_config)
    as [rules|e] eqn:Hgen; [|vm_compute in Hgen; discriminate].
  exists rules.
  destruct (generated_rules_evaluate Samples.two_decimals Samples.scaled_frame
              [1 # 2; -(156 # 10000)]%Q ["x"; "region_east"] Samples.campaign_config
              rules Samples.scaled_frame Hgen eq_refl) as [_ [scores [Happly [Hlen _]]]].
  exists scores. split; [reflexivity|]. split; [exact Happly | exact Hlen].
Defined.

(** ** The sign of the adjustments (scoring.py) *)

(** X2. Every rule emitted for a feature moves the score the way its
    coefficient points, and never by zero: a positive coefficient gives an
    adjustment between 1 and the base adjustment [int(coefficient * 1000)],
    a negative one an adjustment between that and -1. The rendered rule
    therefore reads "Add" exactly for a positive coefficient and "Subtract"
    for a negative one. *)
Theorem adjustments_follow_coefficient :
  forall (format_2f : Q -> string) (df : DataFrame) (config : Config.t)
         (name : string) (c : Q) (rs : list rule) (r : rule),
    feature_rules format_2f df config 1000 name c = Ok rs ->
    In r rs ->
    exists adj,
      base_adjustment c 1000 = Ok adj
      /\ ((0 < c)%Q -> (0 < adjustment r <= adj)%Z)
      /\ ((c < 0)%Q -> (adj <= adjustment r < 0)%Z)
      /\ ~ (c == 0)%Q
      /\ (name <> "BASE" ->
          Analysis.format_rule_description r
          = description r ++ ", " ++ (if Qlt_bool 0 c then "Add" else "Subtract")
            ++ " " ++ str_of_Z (Z.abs (adjustment r)) ++ " points").
Proof.
  intros fmt df config name c rs r H Hin.
  destruct (feature_rules_shape _ _ _ _ _ _ _ H r Hin) as [Hv [_ [Habs [adj [Hbase Hadj]]]]].
  exists adj. split; [exact Hbase|].
  destruct float_fractions as [H07 H03].
  assert (Hpos : (0 < c)%Q -> (0 < adjustment r <= adj)%Z).
  { intros Hc. rewrite Qabs_pos in Habs by lra.
    pose proof (base_adjustment_positive c adj Habs Hbase) as Hnine.
    destruct Hadj as [->|[Hs|Hs]];
      [lia
      | exact (share_of_positive adj _ _ Hnine H07 Hs)
      | exact (share_of_positive adj _ _ Hnine H03 Hs)]. }
  assert (Hneg : (c < 0)%Q -> (adj <= adjustment r < 0)%Z).
  { intros Hc. rewrite Qabs_neg in Habs by lra.
    pose proof (base_adjustment_negative c adj ltac:(lra) Hbase) as Hnine.
    destruct Hadj as [->|[Hs|Hs]];
      [lia
      | exact (share_of_negative adj _ _ Hnine H07 Hs)
      | exact (share_of_negative adj _ _ Hnine H03 Hs)]. }
  assert (Hnz : ~ (c == 0)%Q).
  { intros E. rewrite E in Habs. revert Habs. unfold Qle; simpl. lia. }
  repeat split; try (apply Hpos; assumption); try (apply Hneg; assumption); auto.
  intros Hname. unfold Analysis.format_rule_description.
  rewrite Hv. apply String.eqb_neq in Hname. rewrite Hname.
  destruct (Qlt_bool 0 c) eqn:Hc.
  - apply Qlt_bool_iff in Hc. destruct (Hpos Hc) as [Hp _].
    apply Z.ltb_lt in Hp. rewrite Hp. reflexivity.
  - apply Qlt_bool_false_iff in Hc.
    assert (Hlt : (c < 0)%Q).
    { destruct (Qlt_le_dec c 0) as [|Hge]; [assumption|]. exfalso. apply Hnz. lra. }
    destruct (Hneg Hlt) as [_ Hn].
    assert (Hf : (0 <? adjustment r)%Z = false) by (apply Z.ltb_ge; lia).
    rewrite Hf. reflexivity.
Qed.

Lemma adjustments_follow_coefficient_witness :
  feature_rules Samples.two_decimals Samples.scaled_frame Samples.campaign_config
    1000 "x" (-(1 # 2))%Q
  = Ok [ threshold_rule Samples.two_decimals "x" "x" (0 + (7 # 10) * (1 - 0))%Q (-350);
         threshold_rule Samples.two_decimals "x" "x" (0 + (3 # 10) * (1 - 0))%Q (-150) ]
  /\ exists adj,
      base_adjustment (-(1 # 2)) 1000 = Ok adj /\ (adj <= -350 < 0)%Z.
Proof.
  assert (Hrs : feature_rules Samples.two_decimals Samples.scaled_frame
                  Samples.campaign_config 1000 "x" (-(1 # 2))%Q
                = Ok [ threshold_rule Samples.two_decimals "x" "x"
                         (0 + (7 # 10) * (1 - 0))%Q (-350);
                       threshold_rule Samples.two_decimals "x" "x"
                         (0 + (3 # 10) * (1 - 0))%Q (-150) ])
    by (vm_compute; reflexivity).
  split; [exact Hrs|].
  destruct (adjustments_follow_coefficient Samples.two_decimals Samples.scaled_frame
              Samples.campaign_config "x" (-(1 # 2))%Q _
              (threshold_rule Samples.two_decimals "x" "x"
                 (0 + (7 # 10) * (1 - 0))%Q (-350))
              Hrs (or_introl eq_refl)) as [adj [Hb [_ [Hneg _]]]].
  exists adj. split; [exact Hb|]. apply Hneg. reflexivity.
Defined.

(** X3. When no range is configured, the two thresholds of a numerical
    feature lie within the observed range of its column, the medium one
    below the high one; so on any frame a row that earns the high rule
    earns the medium rule as well. *)
Theorem high_rule_implies_medium_rule :
  forall (format_2f : Q -> string) (df : DataFrame) (config : Config.t)
         (name : string) (c : Q) (high medium : rule),
    feature_rules format_2f df config 1000 name c = Ok [high; medium] ->
    Config.range (Config.get_details config (before_underscore name)) = None ->
    (exists col lo hi t_high t_medium,
        get_column name df = Ok col
        /\ observed_min col lo /\ observed_max col hi
        /\ threshold high = Some t_high /\ threshold medium = Some t_medium
        /\ (lo <= t_medium /\ t_medium <= t_high /\ t_high <= hi)%Q)
    /\ forall (population : DataFrame) (i : nat),
        predicate_holds population high i = true ->
        predicate_holds population medium i = true.
Proof.
  intros fmt df config name c high medium H Hrange.
  unfold feature_rules in H.
  destruct (Qlt_bool (Qabs c) (1 # 100)); [discriminate|].
  destruct (base_adjustment c 1000) as [adj|e]; simpl in H; [|discriminate].
  destruct (_ =? "numerical");
    [|destruct (has_underscore name); discriminate].
  destruct (numerical_rules_inv _ _ _ _ _ _ _ H ltac:(discriminate))
    as [col [cmin [cmax [lo [hi [high_adj [med_adj
        [Hcol [Hr [Hlo [Hhi [_ [_ Hrs]]]]]]]]]]]]].
  rewrite Hrange in Hr. simpl in Hr. inversion Hr; subst cmin cmax; clear Hr.
  simpl in Hlo, Hhi.
  assert (Hle : (lo <= hi)%Q) by (destruct Hlo as [Hin _]; apply Hhi; assumption).
  inversion Hrs; subst high medium; clear Hrs.
  split.
  - exists col, lo, hi, (lo + (7 # 10) * (hi - lo))%Q, (lo + (3 # 10) * (hi - lo))%Q.
    split; [assumption|]. split; [assumption|]. split; [assumption|].
    split; [reflexivity|]. split; [reflexivity|].
    repeat split; lra.
  - intros population i. unfold predicate_holds. simpl.
    destruct (find _ (columns population)) as [[l pc]|]; [|discriminate].
    destruct (nth i (values pc) NaN); try discriminate.
    rewrite !Qlt_bool_iff. intros Hq. lra.
Qed.

Lemma high_rule_implies_medium_rule_witness :
  predicate_holds Samples.scaled_frame
    (threshold_rule Samples.two_decimals "x" "x" (0 + (3 # 10) * (1 - 0))%Q 150) 2
  = true.
Proof.
  assert (Hrs : feature_rules Samples.two_decimals Samples.scaled_frame
                  Samples.campaign_config 1000 "x" (1 # 2)%Q
                = Ok [ threshold_rule Samples.two_decimals "x" "x"
                         (0 + (7 # 10) * (1 - 0))%Q 350;
                       threshold_rule Samples.two_decimals "x" "x"
                         (0 + (3 # 10) * (1 - 0))%Q 150 ])
    by (vm_compute; reflexivity).
  apply (proj2 (high_rule_implies_medium_rule Samples.two_decimals Samples.scaled_frame
                  Samples.campaign_config "x" (1 # 2)%Q _ _ Hrs eq_refl)
           Samples.scaled_frame 2%nat).
  vm_compute. reflexivity.
Defined.

(** X4. A numerical feature whose configured range is a list, as the
    configuration page stores it, stops the generator: once the base
    adjustment is computed (which raises [OverflowError] only when the
    product of the coefficient and 1000 exceeds every float), reading
    ['min'] from the list raises [AttributeError], and no rule set is
    returned. *)
Theorem list_range_stops_the_generator :
  forall (format_2f : Q -> string) (df : DataFrame) (config : Config.t)
         (names : list string) (coefs : list Q) (k : nat)
         (name : string) (c : Q) (col : Series) (bounds : list Q),
    nth_error names k = Some name ->
    nth_error coefs k = Some c ->
    (1 # 100 <= Qabs c)%Q ->
    var_type_of config name = "numerical" ->
    Config.range (Config.get_details config (before_underscore name))
    = Some (Config.RangeList bounds) ->
    get_column name df = Ok col ->
    existsb notna (values col) = true ->
    (Float64.mul c (Float64.of_int 1000) <> None ->
     feature_rules format_2f df config 1000 name c = Raise AttributeError)
    /\ (Float64.mul c (Float64.of_int 1000) = None ->
        feature_rules format_2f df config 1000 name c = Raise OverflowError)
    /\ exists e, generate_scoring_rules format_2f df coefs names config = Raise e.
Proof.
  intros fmt df config names coefs k name c col bounds Hn Hc Habs Hty Hrange Hcol Hany.
  assert (Hfeat : feature_rules fmt df config 1000 name c
                  = Raise (match Float64.mul c (Float64.of_int 1000) with
                           | Some _ => AttributeError
                           | None => OverflowError
                           end)).
  { unfold feature_rules. apply Qlt_bool_false_iff in Habs. rewrite Habs.
    unfold var_type_of in Hty. rewrite Hty.
    unfold base_adjustment, Float64.truncated_product.
    destruct (Float64.mul c (Float64.of_int 1000)); [|reflexivity]. simpl.
    unfold numerical_rules. rewrite Hcol. simpl.
    destruct (filter notna (values col)) as [|c0 cs] eqn:Hf.
    - exfalso. apply existsb_exists in Hany. destruct Hany as [x [Hx Hnx]].
      assert (Hin : In x (filter notna (values col))) by (apply filter_In; auto).
      rewrite Hf in Hin. contradiction.
    - rewrite Hrange. reflexivity. }
  split; [|split].
  - intros Hfin. rewrite Hfeat.
    destruct (Float64.mul c (Float64.of_int 1000)); [reflexivity | contradiction].
  - intros Hinf. rewrite Hfeat, Hinf. reflexivity.
  - unfold generate_scoring_rules, generate_scoring_rules_with.
    assert (Hloop : exists e, feature_loop fmt df config 1000 names coefs = Raise e).
    { clear Hcol Hany Hrange Hty Habs. revert coefs k Hn Hc.
      induction names as [|n0 names IH]; intros coefs k Hn Hc.
      - destruct k; discriminate.
      - destruct coefs as [|c0 coefs]; [destruct k; discriminate|]. simpl.
        destruct k as [|k]; simpl in Hn, Hc.
        + inversion Hn; inversion Hc; subst. rewrite Hfeat. eexists; reflexivity.
        + destruct (feature_rules fmt df config 1000 n0 c0); simpl; [|eexists; reflexivity].
          destruct (IH coefs k Hn Hc) as [e He]. rewrite He. eexists; reflexivity. }
    destruct Hloop as [e He]. rewrite He. eexists; reflexivity.
Qed.

Lemma list_range_stops_the_generator_witness :
  feature_rules Samples.two_decimals
    (mkDataFrame 4 [("spend", mkSeries float64 [Num 1; Num 0; Num (1 # 2); Num (1 # 2)])])
    Samples.raw_config 1000 "spend" (1 # 2)%Q
  = Raise AttributeError.
Proof.
  apply (proj1 (list_range_stops_the_generator Samples.two_decimals
                  (mkDataFrame 4 [("spend", mkSeries float64
                                              [Num 1; Num 0; Num (1 # 2); Num (1 # 2)])])
                  Samples.raw_config
                  ["spend"] [1 # 2]%Q 0 "spend" (1 # 2)%Q _ [10; 50]%Q
                  eq_refl eq_refl ltac:(discriminate) eq_refl eq_refl eq_refl eq_refl)).
  vm_compute. discriminate.
Defined.

(** ** Score ranges (scoring.py) *)

Section ScoreRangeFacts.

Import ScoreRanges.

Lemma fold_min_Z rest : forall s,
  let m := fold_left Z.min rest s in
  (m = s \/ In m rest) /\ (m <= s)%Z /\ forall x, In x rest -> (m <= x)%Z.
Proof.
  induction rest as [|h rest IH]; simpl; intros s.
  - repeat split; auto; [lia | tauto].
  - destruct (IH (Z.min s h)) as [Hin [Hle Hall]]. repeat split.
    + destruct Hin as [E|Hin]; [|auto]. rewrite E.
      destruct (Z.min_spec s h) as [[_ ->]|[_ ->]]; auto.
    + lia.
    + intros x [<-|Hx]; [lia | auto].
Qed.

Lemma fold_max_Z rest : forall s,
  let m := fold_left Z.max rest s in
  (m = s \/ In m rest) /\ (s <= m)%Z /\ forall x, In x rest -> (x <= m)%Z.
Proof.
  induction rest as [|h rest IH]; simpl; intros s.
  - repeat split; auto; [lia | tauto].
  - destruct (IH (Z.max s h)) as [Hin [Hle Hall]]. repeat split.
    + destruct Hin as [E|Hin]; [|auto]. rewrite E.
      destruct (Z.max_spec s h) as [[_ ->]|[_ ->]]; auto.
    + lia.
    + intros x [<-|Hx]; [lia | auto].
Qed.

Lemma min_of_spec scores m :
  min_of scores = Some m -> In m scores /\ forall s, In s scores -> (m <= s)%Z.
Proof.
  destruct scores as [|s rest]; [discriminate|]. simpl. intros H; inversion H; subst m.
  destruct (fold_min_Z rest s) as [Hin [Hle Hall]]. split.
  - destruct Hin as [->|Hin]; auto.
  - intros x [<-|Hx]; auto.
Qed.

Lemma max_of_spec scores m :
  max_of scores = Some m -> In m scores /\ forall s, In s scores -> (s <= m)%Z.
Proof.
  destruct scores as [|s rest]; [discriminate|]. simpl. intros H; inversion H; subst m.
  destruct (fold_max_Z rest s) as [Hin [Hle Hall]]. split.
  - destruct Hin as [->|Hin]; auto.
  - intros x [<-|Hx]; auto.
Qed.

Lemma min_of_exists scores s :
  In s scores -> exists m, min_of scores = Some m.
Proof. destruct scores; [contradiction | eexists; reflexivity]. Qed.

Lemma max_of_exists scores s :
  In s scores -> exists m, max_of scores = Some m.
Proof. destruct scores; [contradiction | eexists; reflexivity]. Qed.

(** The edges written over the rationals [a] (the minimum), [b] (the
    maximum) and the step [r]. *)
Lemma bins_edges m M :
  exists r,
    (5 * r == inject_Z M - inject_Z m)%Q
    /\ exists e0 e5,
        (e0 == inject_Z m - 1)%Q /\ (e5 == inject_Z M + 1)%Q
        /\ bins m M = [ e0; inject_Z m + r; inject_Z m + 2 * r;
                        inject_Z m + 3 * r; inject_Z m + 4 * r; e5 ]%Q.
Proof.
  exists ((inject_Z M - inject_Z m) / 5)%Q. split; [field|].
  exists (inject_Z (m - 1)), (inject_Z (M + 1)). repeat split.
  - unfold Z.sub. rewrite inject_Z_plus. reflexivity.
  - rewrite inject_Z_plus. reflexivity.
Qed.

Lemma inject_Z_le a b : (a <= b)%Z -> (inject_Z a <= inject_Z b)%Q.
Proof. intros H. rewrite <- Zle_Qle. assumption. Qed.

Lemma inject_Z_lt a b : (a < b)%Z -> (inject_Z a < inject_Z b)%Q.
Proof. intros H. rewrite <- Zlt_Qlt. assumption. Qed.

Ltac qlt_decide :=
  repeat match goal with
         | |- Qlt_bool _ _ = true => apply Qlt_bool_iff
         | |- Qlt_bool _ _ = false => apply Qlt_bool_false_iff
         | |- Qeq_bool _ _ = true => apply Qeq_bool_iff
         | |- Qeq_bool _ _ = false =>
             apply not_true_iff_false; rewrite Qeq_bool_iff; intros ?
         end; try lra.

Lemma bins_not_decreasing m M :
  (m <= M)%Z -> decreases (bins m M) = false.
Proof.
  intros H. apply inject_Z_le in H.
  destruct (bins_edges m M) as [r [Hr [e0 [e5 [H0 [H5 ->]]]]]].
  simpl. repeat (apply orb_false_iff; split); auto; qlt_decide.
Qed.

Lemma bins_unique m M :
  (m < M)%Z -> Analysis.has_duplicates (bins m M) = false.
Proof.
  intros H. apply inject_Z_lt in H.
  destruct (bins_edges m M) as [r [Hr [e0 [e5 [H0 [H5 ->]]]]]].
  simpl. repeat (apply orb_false_iff; split); auto; qlt_decide.
Qed.

Lemma bins_collapse m : Analysis.has_duplicates (bins m m) = true.
Proof.
  destruct (bins_edges m m) as [r [Hr [e0 [e5 [H0 [H5 ->]]]]]].
  simpl. apply orb_true_iff. right. apply orb_true_iff. left.
  apply orb_true_iff. left. qlt_decide.
Qed.

(** Every score between the minimum and the maximum has a bin; the minimum
    falls in the first and the maximum in the last. *)
Lemma cut_in_range m M s :
  (m < M)%Z -> (m <= s <= M)%Z ->
  exists k, cut (bins m M) s = Some k /\ (k < 5)%nat
            /\ (s = m -> k = 0%nat) /\ (s = M -> k = 4%nat).
Proof.
  intros HmM [Hlo Hhi].
  pose proof (inject_Z_lt _ _ HmM) as HQ.
  pose proof (inject_Z_le _ _ Hlo) as HloQ.
  pose proof (inject_Z_le _ _ Hhi) as HhiQ.
  destruct (bins_edges m M) as [r [Hr [e0 [e5 [H0 [H5 Hb]]]]]].
  unfold cut. rewrite Hb. unfold Analysis.searchsorted_left.
  assert (Hfirst : Qlt_bool e0 (inject_Z s) = true) by qlt_decide.
  assert (Hlast : Qlt_bool e5 (inject_Z s) = false) by qlt_decide.
  change [e0; inject_Z m + r; inject_Z m + 2 * r; inject_Z m + 3 * r;
          inject_Z m + 4 * r; e5]%Q
    with (e0 :: [inject_Z m + r; inject_Z m + 2 * r; inject_Z m + 3 * r;
                 inject_Z m + 4 * r] ++ [e5])%Q%list.
  rewrite (count_between (fun b => Qlt_bool b (inject_Z s)) _ _ _ Hfirst Hlast).
  set (mid := filter (fun b => Qlt_bool b (inject_Z s))
                [inject_Z m + r; inject_Z m + 2 * r; inject_Z m + 3 * r;
                 inject_Z m + 4 * r]%Q).
  assert (Hmid : (List.length mid <= 4)%nat)
    by (unfold mid; etransitivity; [apply filter_length_le | simpl; lia]).
  exists (List.length mid).
  match goal with
  | |- context [List.length (e0 :: ?l)] => change (List.length (e0 :: l)) with 6%nat
  end.
  replace (S (List.length mid) =? 0)%nat with false by reflexivity.
  destruct (S (List.length mid) =? 6)%nat eqn:E6;
    [apply Nat.eqb_eq in E6; lia|].
  simpl. rewrite Nat.sub_0_r. repeat split; [lia | |].
  - intros ->. unfold mid. simpl.
    assert (E1 : Qlt_bool (inject_Z m + r) (inject_Z m) = false) by qlt_decide.
    assert (E2 : Qlt_bool (inject_Z m + 2 * r) (inject_Z m) = false) by qlt_decide.
    assert (E3 : Qlt_bool (inject_Z m + 3 * r) (inject_Z m) = false) by qlt_decide.
    assert (E4 : Qlt_bool (inject_Z m + 4 * r) (inject_Z m) = false) by qlt_decide.
    rewrite E1, E2, E3, E4. reflexivity.
  - intros ->. unfold mid. simpl.
    assert (E1 : Qlt_bool (inject_Z m + r) (inject_Z M) = true) by qlt_decide.
    assert (E2 : Qlt_bool (inject_Z m + 2 * r) (inject_Z M) = true) by qlt_decide.
    assert (E3 : Qlt_bool (inject_Z m + 3 * r) (inject_Z M) = true) by qlt_decide.
    assert (E4 : Qlt_bool (inject_Z m + 4 * r) (inject_Z M) = true) by qlt_decide.
    rewrite E1, E2, E3, E4. reflexivity.
Qed.

Lemma members_partition edges scores :
  (forall s, In s scores -> exists k, cut edges s = Some k /\ (k < 5)%nat) ->
  fold_right Nat.add 0%nat
    (map (fun k => List.length (members edges scores k)) (seq 0 5))
  = List.length scores.
Proof.
  induction scores as [|s scores IH]; intros Hall; [reflexivity|].
  destruct (Hall s (or_introl eq_refl)) as [j [Hj Hlt]].
  rewrite (map_ext _ (fun k => ((if Analysis.code_eqb (Some j) (Some k) then 1 else 0)
                                + List.length (members edges scores k))%nat)).
  - rewrite sum_map_add, one_bin_nat by lia.
    rewrite IH by (intros; apply Hall; simpl; auto). reflexivity.
  - intros k. unfold members. simpl. rewrite Hj. simpl.
    destruct (j =? k)%nat; reflexivity.
Qed.

End ScoreRangeFacts.

(** X5. Score ranges exist exactly when the scores differ: with at least
    two distinct scores the statistics are returned, while for scores that
    are all equal (or for no score at all) the middle edges coincide and the
    function raises "Bin edges must be unique". *)
Theorem score_ranges_need_two_scores :
  forall (scores : list Z),
    ((forall a b, In a scores -> In b scores -> a = b) ->
     ScoreRanges.get_score_ranges scores = Raise (ValueError "Bin edges must be unique"))
    /\ ((exists a b, In a scores /\ In b scores /\ a <> b) ->
        exists table, ScoreRanges.get_score_ranges scores = Ok table).
Proof.
  intros scores. unfold ScoreRanges.get_score_ranges. split.
  - intros Hsame.
    destruct (ScoreRanges.min_of scores) as [m|] eqn:Hm; [|reflexivity].
    destruct (ScoreRanges.max_of scores) as [M|] eqn:HM; [|reflexivity].
    destruct (min_of_spec _ _ Hm) as [Hmin _].
    destruct (max_of_spec _ _ HM) as [Hmax _].
    rewrite (Hsame M m Hmax Hmin).
    rewrite bins_not_decreasing by lia. rewrite bins_collapse. reflexivity.
  - intros [a [b [Ha [Hb Hab]]]].
    destruct (min_of_exists _ _ Ha) as [m Hm].
    destruct (max_of_exists _ _ Ha) as [M HM].
    rewrite Hm, HM.
    destruct (min_of_spec _ _ Hm) as [_ Hmin].
    destruct (max_of_spec _ _ HM) as [_ Hmax].
    pose proof (Hmin a Ha). pose proof (Hmin b Hb).
    pose proof (Hmax a Ha). pose proof (Hmax b Hb).
    rewrite bins_not_decreasing by lia. rewrite bins_unique by lia.
    eexists; reflexivity.
Qed.

Lemma score_ranges_need_two_scores_witness :
  ScoreRanges.get_score_ranges [1000; 1000; 1000]
  = Raise (ValueError "Bin edges must be unique")
  /\ exists table, ScoreRanges.get_score_ranges [985; 1070; 985] = Ok table.
Proof.
  split.
  - apply (score_ranges_need_two_scores [1000; 1000; 1000]).
    intros a b Ha Hb. simpl in Ha, Hb. lia.
  - apply (score_ranges_need_two_scores [985; 1070; 985]).
    exists 985, 1070. simpl. repeat split; auto. lia.
Defined.

(** X6. When score ranges are returned there is one row per label, every
    score is counted in exactly one of them (the counts add up to the number
    of scores), the lowest score is the minimum of "Very Low" and the
    highest score the maximum of "Very High". *)
Theorem score_ranges_cover_every_score :
  forall (scores : list Z) (table : list (string * ScoreRanges.range_row)),
    ScoreRanges.get_score_ranges scores = Ok table ->
    map fst table = ScoreRanges.labels
    /\ fold_right Nat.add 0%nat (map (fun p => ScoreRanges.count (snd p)) table)
       = List.length scores
    /\ exists m M lowest highest,
        ScoreRanges.min_of scores = Some m
        /\ ScoreRanges.max_of scores = Some M
        /\ nth_error table 0 = Some ("Very Low", lowest)
        /\ ScoreRanges.min_score lowest = Some m
        /\ (1 <= ScoreRanges.count lowest)%nat
        /\ nth_error table 4 = Some ("Very High", highest)
        /\ ScoreRanges.max_score highest = Some M
        /\ (1 <= ScoreRanges.count highest)%nat.
Proof.
  intros scores table H. unfold ScoreRanges.get_score_ranges in H.
  destruct (ScoreRanges.min_of scores) as [m|] eqn:Hm; [|discriminate].
  destruct (ScoreRanges.max_of scores) as [M|] eqn:HM; [|discriminate].
  destruct (ScoreRanges.decreases _); [discriminate|].
  destruct (Analysis.has_duplicates (ScoreRanges.bins m M)) eqn:Hdup; [discriminate|].
  inversion H; subst table; clear H.
  destruct (min_of_spec _ _ Hm) as [Hmin_in Hmin].
  destruct (max_of_spec _ _ HM) as [Hmax_in Hmax].
  assert (HmM : (m < M)%Z).
  { pose proof (Hmin M Hmax_in).
    destruct (Z.eq_dec m M) as [->|]; [|lia].
    rewrite bins_collapse in Hdup. discriminate. }
  assert (Hcut : forall s, In s scores ->
            exists k, ScoreRanges.cut (ScoreRanges.bins m M) s = Some k /\ (k < 5)%nat
                      /\ (s = m -> k = 0%nat) /\ (s = M -> k = 4%nat)).
  { intros s Hs. apply cut_in_range; [assumption|]. split; auto. }
  set (edges := ScoreRanges.bins m M) in *.
  assert (Hlow : In m (ScoreRanges.members edges scores 0)).
  { apply filter_In. split; [assumption|].
    destruct (Hcut m Hmin_in) as [k [Hk [_ [H0 _]]]]. rewrite Hk, (H0 eq_refl). reflexivity. }
  assert (Hhigh : In M (ScoreRanges.members edges scores 4)).
  { apply filter_In. split; [assumption|].
    destruct (Hcut M Hmax_in) as [k [Hk [_ [_ H4]]]]. rewrite Hk, (H4 eq_refl). reflexivity. }
  split; [reflexivity|]. split.
  - change (fold_right Nat.add 0%nat
              (map (fun k => List.length (ScoreRanges.members edges scores k)) (seq 0 5))
            = List.length scores).
    apply members_partition. intros s Hs.
    destruct (Hcut s Hs) as [k [Hk [Hlt _]]]. eauto.
  - exists m, M. do 2 eexists.
    split; [reflexivity|]. split; [reflexivity|].
    split; [reflexivity|]. split; [|split; [|split; [reflexivity|split]]].
    + simpl. destruct (min_of_exists _ _ Hlow) as [m' Hm'].
      rewrite Hm'. destruct (min_of_spec _ _ Hm') as [Hin' Hall'].
      pose proof (Hall' m Hlow).
      apply filter_In in Hin'. destruct Hin' as [Hin' _]. pose proof (Hmin _ Hin').
      f_equal. lia.
    + simpl. destruct (ScoreRanges.members edges scores 0); [contradiction | simpl; lia].
    + simpl. destruct (max_of_exists _ _ Hhigh) as [M' HM'].
      rewrite HM'. destruct (max_of_spec _ _ HM') as [Hin' Hall'].
      pose proof (Hall' M Hhigh).
      apply filter_In in Hin'. destruct Hin' as [Hin' _]. pose proof (Hmax _ Hin').
      f_equal. lia.
    + simpl. destruct (ScoreRanges.members edges scores 4); [contradiction | simpl; lia].
Qed.

Lemma score_ranges_cover_every_score_witness :
  exists table,
    ScoreRanges.get_score_ranges [985; 1070; 985; 1000; 1200] = Ok table
    /\ fold_right Nat.add 0%nat (map (fun p => ScoreRanges.count (snd p)) table) = 5%nat.
Proof.
  eexists. split; [reflexivity|].
  apply (score_ranges_cover_every_score [985; 1070; 985; 1000; 1200]).
  reflexivity.
Defined.

(** ** One-hot indicators (data_preparation.py) *)

Section DummyFacts.

Import DataPreparation.

Variable str_of_number : Q -> string.

Lemma cell_eqb_sym a b : cell_eqb a b = cell_eqb b a.
Proof.
  destruct a, b; simpl; try reflexivity.
  - destruct (Qeq_bool q q0) eqn:E; symmetry.
    + apply Qeq_bool_iff in E. apply Qeq_bool_iff. symmetry; assumption.
    + apply not_true_iff_false. intros E'. apply Qeq_bool_iff in E'.
      assert (Qeq_bool q q0 = true) by (apply Qeq_bool_iff; symmetry; assumption).
      congruence.
  - apply String.eqb_sym.
Qed.

Lemma cell_eqb_trans a b c :
  cell_eqb a b = true -> cell_eqb b c = true -> cell_eqb a c = true.
Proof.
  destruct a, b, c; simpl; try discriminate; auto.
  - rewrite !Qeq_bool_iff. intros H1 H2. rewrite H1. assumption.
  - rewrite !String.eqb_eq. congruence.
Qed.

Lemma seen_equiv c v seen :
  cell_eqb c v = true ->
  existsb (cell_eqb c) seen = existsb (cell_eqb v) seen.
Proof.
  intros Hcv. induction seen as [|s seen IH]; simpl; [reflexivity|].
  rewrite IH. f_equal.
  destruct (cell_eqb c s) eqn:E1, (cell_eqb v s) eqn:E2; try reflexivity.
  - rewrite cell_eqb_sym in Hcv.
    rewrite (cell_eqb_trans _ _ _ Hcv E1) in E2. discriminate.
  - rewrite (cell_eqb_trans _ _ _ Hcv E2) in E1. discriminate.
Qed.

(** A value occurs once in [unique()], unless it was seen before or does
    not occur at all. *)
Lemma unique_acc_once c vs : forall seen,
  List.length (filter (cell_eqb c) (unique_acc seen vs))
  = if existsb (cell_eqb c) seen then 0%nat
    else if existsb (cell_eqb c) vs then 1%nat else 0%nat.
Proof.
  induction vs as [|v vs IH]; intros seen; simpl.
  - destruct (existsb (cell_eqb c) seen); reflexivity.
  - destruct (existsb (cell_eqb v) seen) eqn:Hv.
    + rewrite IH. destruct (existsb (cell_eqb c) seen) eqn:Hc; [reflexivity|].
      destruct (cell_eqb c v) eqn:Hcv; [|reflexivity].
      rewrite (seen_equiv _ _ _ Hcv) in Hc. congruence.
    + simpl. destruct (cell_eqb c v) eqn:Hcv; simpl; rewrite IH; simpl; rewrite Hcv; simpl.
      * rewrite (seen_equiv _ _ _ Hcv), Hv. reflexivity.
      * destruct (existsb (cell_eqb c) seen); reflexivity.
Qed.

Lemma filter_insert_sorted (f : Q -> bool) q l :
  List.length (filter f (insert_sorted q l)) = List.length (filter f (q :: l)).
Proof.
  induction l as [|h t IH]; [reflexivity|]. simpl.
  destruct (Qle_bool q h); [reflexivity|]. simpl in *.
  destruct (f h), (f q); simpl in *; lia.
Qed.

Lemma filter_sort (f : Q -> bool) l :
  List.length (filter f (sort l)) = List.length (filter f l).
Proof.
  induction l as [|h t IH]; [reflexivity|]. simpl sort.
  rewrite filter_insert_sorted. simpl. destruct (f h); simpl; lia.
Qed.

Lemma filter_insert_string (f : string -> bool) x l :
  List.length (filter f (insert_string x l)) = List.length (filter f (x :: l)).
Proof.
  induction l as [|h t IH]; [reflexivity|]. simpl.
  destruct (String.leb x h); [reflexivity|]. simpl in *.
  destruct (f h), (f x); simpl in *; lia.
Qed.

Lemma filter_sort_strings (f : string -> bool) l :
  List.length (filter f (sort_strings l)) = List.length (filter f l).
Proof.
  induction l as [|h t IH]; [reflexivity|]. simpl sort_strings.
  rewrite filter_insert_string. simpl. destruct (f h); simpl; lia.
Qed.

Lemma filter_map_length {A B} (f : B -> bool) (g : A -> B) l :
  List.length (filter f (map g l)) = List.length (filter (fun a => f (g a)) l).
Proof.
  induction l as [|a l IH]; [reflexivity|]. simpl. destruct (f (g a)); simpl; lia.
Qed.

(** Sorting the distinct values into levels keeps each of them once. *)
Lemma levels_once c vs :
  c <> NaN -> In c vs ->
  List.length (filter (cell_eqb c) (levels vs)) = 1%nat.
Proof.
  intros Hc Hin. unfold levels.
  rewrite filter_app, length_app, !filter_map_length, filter_sort, filter_sort_strings.
  assert (Hu : List.length (filter (cell_eqb c) (unique vs)) = 1%nat).
  { unfold unique. rewrite unique_acc_once. simpl.
    assert (E : existsb (cell_eqb c) vs = true).
    { apply existsb_exists. exists c. split; [assumption | apply cell_eqb_refl]. }
    rewrite E. reflexivity. }
  rewrite <- Hu. clear Hu Hin.
  induction (unique vs) as [|u l IH]; [reflexivity|].
  destruct u as [q|s|]; simpl.
  - destruct (cell_eqb c (Num q)); simpl; lia.
  - destruct (cell_eqb c (Str s)); simpl; lia.
  - replace (cell_eqb c NaN) with false; [exact IH|].
    destruct c; try reflexivity. contradiction.
Qed.

Lemma fill_missing_values col c :
  In c (values (fill_missing col)) -> c <> NaN.
Proof.
  unfold fill_missing; simpl. rewrite in_map_iff.
  intros [x [<- _]]. destruct x; discriminate.
Qed.

Lemma prefix_append s t : prefix s (s ++ t) = true.
Proof.
  induction s as [|a s IH]; simpl.
  - destruct t; reflexivity.
  - destruct (ascii_dec a a); [exact IH | contradiction].
Qed.

Lemma prefix_separator s t : prefix (s ++ "_") (s ++ "_" ++ t) = true.
Proof.
  replace (s ++ "_" ++ t) with ((s ++ "_") ++ t); [apply prefix_append|].
  induction s as [|a s IH]; simpl; [reflexivity|]. rewrite IH. reflexivity.
Qed.

Lemma eq_one_indicator level c : eq_one (indicator level c) = cell_eqb c level.
Proof. unfold indicator. destruct (cell_eqb c level); reflexivity. Qed.

End DummyFacts.

(** X7. The indicator columns made for an unordered categorical variable:
    each is named after the variable followed by an underscore, is a float
    column of 0s and 1s with one cell per row, and in every row exactly one
    of them is 1 (missing values first become the category MISSING). *)
Theorem one_hot_rows_have_a_single_one :
  forall (str_of_number : Q -> string) (name : string) (col : Series),
    let dummies :=
      DataPreparation.get_dummies str_of_number name (DataPreparation.fill_missing col) in
    (forall p, In p dummies ->
        prefix (name ++ "_") (fst p) = true
        /\ dtype_of (snd p) = float64
        /\ List.length (values (snd p)) = List.length (values col)
        /\ forall c, In c (values (snd p)) -> c = Num 1 \/ c = Num 0)
    /\ forall i, (i < List.length (values col))%nat ->
         List.length (filter (fun p => eq_one (nth i (values (snd p)) NaN)) dummies)
         = 1%nat.
Proof.
  intros sn name col dummies. subst dummies. unfold DataPreparation.get_dummies. split.
  - intros p Hp. apply in_map_iff in Hp. destruct Hp as [level [<- _]]. simpl.
    repeat split.
    + apply prefix_separator.
    + rewrite !length_map. reflexivity.
    + intros c Hc. apply in_map_iff in Hc. destruct Hc as [x [<- _]].
      unfold DataPreparation.indicator.
      destruct (DataPreparation.cell_eqb x level); auto.
  - intros i Hi.
    set (vs := values (DataPreparation.fill_missing col)).
    assert (Hlen : List.length vs = List.length (values col))
      by (unfold vs; simpl; apply length_map).
    rewrite filter_map_length. simpl.
    assert (Hc : In (nth i vs NaN) vs) by (apply nth_In; lia).
    rewrite (filter_ext _ (DataPreparation.cell_eqb (nth i vs NaN))).
    + apply levels_once; [|assumption].
      apply (fill_missing_values col). assumption.
    + intros level. simpl. fold vs.
      rewrite (nth_indep _ NaN (DataPreparation.indicator level NaN))
        by (rewrite length_map; lia).
      rewrite map_nth. apply eq_one_indicator.
Qed.

Lemma one_hot_rows_have_a_single_one_witness :
  List.length
    (filter (fun p => eq_one (nth 3 (values (snd p)) NaN))
       (DataPreparation.get_dummies Samples.decimal_str "region"
          (DataPreparation.fill_missing
             (mkSeries object [Str "east"; Str "west"; Str "east"; NaN]))))
  = 1%nat.
Proof.
  apply (one_hot_rows_have_a_single_one Samples.decimal_str "region"
           (mkSeries object [Str "east"; Str "west"; Str "east"; NaN])).
  simpl. lia.
Defined.

(** ** Rank codes of an ordered categorical (data_preparation.py) *)

Lemma value_map_get_spec key order : forall idx found,
  let r := DataPreparation.value_map_get order key idx found in
  (~ In key order -> r = found)
  /\ (In key order ->
      (idx <= r < idx + Z.of_nat (List.length order))%Z
      /\ nth_error order (Z.to_nat (r - idx)) = Some key).
Proof.
  induction order as [|val rest IH]; intros idx found; simpl.
  - split; [reflexivity | contradiction].
  - destruct (IH (idx + 1)%Z (if val =? key then idx else found)) as [Hout Hin].
    destruct (in_dec string_dec key rest) as [Hr|Hr].
    + split; [intros Hn; exfalso; apply Hn; auto|]. intros _.
      destruct (Hin Hr) as [Hb Hnth]. split; [lia|].
      replace (Z.to_nat (DataPreparation.value_map_get rest key (idx + 1)
                           (if val =? key then idx else found) - idx))
        with (S (Z.to_nat (DataPreparation.value_map_get rest key (idx + 1)
                             (if val =? key then idx else found) - (idx + 1))))
        by lia.
      exact Hnth.
    + rewrite (Hout Hr). destruct (val =? key) eqn:E.
      * apply String.eqb_eq in E. subst val.
        split; [intros Hn; exfalso; apply Hn; auto|]. intros _.
        split; [lia|]. rewrite Z.sub_diag. reflexivity.
      * apply String.eqb_neq in E.
        split; [reflexivity|]. intros [->|Hk]; contradiction.
Qed.

(** X8. The codes of an ordered categorical variable form an int64 column
    with one code per row; a value listed in [value_order] gets a position
    at which the list holds it, between 0 and the length of the list, and
    a value that is not listed gets -1. *)
Theorem ordered_codes_are_positions :
  forall (str_of_number : Q -> string) (order : list string) (col : Series)
         (i : nat) (c : cell),
    nth_error (values col) i = Some c ->
    dtype_of (DataPreparation.ordered_codes str_of_number order col) = int64
    /\ List.length (values (DataPreparation.ordered_codes str_of_number order col))
       = List.length (values col)
    /\ exists r,
        nth_error (values (DataPreparation.ordered_codes str_of_number order col)) i
        = Some (Num (inject_Z r))
        /\ (-1 <= r < Z.of_nat (List.length order))%Z
        /\ (r = (-1)%Z <-> ~ In (DataPreparation.py_str str_of_number c) order)
        /\ ((0 <= r)%Z ->
            nth_error order (Z.to_nat r)
            = Some (DataPreparation.py_str str_of_number c)).
Proof.
  intros sn order col i c Hc. unfold DataPreparation.ordered_codes; simpl.
  split; [reflexivity|]. split; [apply length_map|].
  rewrite nth_error_map, Hc. simpl. unfold DataPreparation.rank_of.
  eexists. split; [reflexivity|].
  destruct (value_map_get_spec (DataPreparation.py_str sn c) order 0 (-1)) as [Hout Hin].
  simpl in Hout, Hin.
  destruct (in_dec string_dec (DataPreparation.py_str sn c) order) as [Hk|Hk].
  - destruct (Hin Hk) as [Hb Hnth]. rewrite Z.sub_0_r in Hnth.
    split; [lia|]. split; [split; [lia | contradiction] | intros _; exact Hnth].
  - rewrite (Hout Hk). split; [lia|]. split; [tauto | lia].
Qed.

Lemma ordered_codes_are_positions_witness :
  values (DataPreparation.ordered_codes Samples.decimal_str ["gold"; "silver"]
            (mkSeries object [Str "gold"; Str "silver"; Str "MISSING"; Str "gold"]))
  = [Num 0; Num 1; Num (-1); Num 0]
  /\ exists r,
      nth_error
        (values (DataPreparation.ordered_codes Samples.decimal_str ["gold"; "silver"]
                   (mkSeries object [Str "gold"; Str "silver"; Str "MISSING"; Str "gold"])))
        2
      = Some (Num (inject_Z r))
      /\ (-1 <= r < 2)%Z.
Proof.
  split; [reflexivity|].
  destruct (ordered_codes_are_positions Samples.decimal_str ["gold"; "silver"]
              (mkSeries object [Str "gold"; Str "silver"; Str "MISSING"; Str "gold"])
              2 (Str "MISSING") eq_refl) as [_ [_ [r [Hr [Hb _]]]]].
  exists r. split; [exact Hr | exact Hb].
Defined.

(** ** Direction, imputation and scaling, for any direction (data_preparation.py) *)

(** X9. What inversion, median imputation and min-max scaling do to a
    parsed numerical column, whatever its direction. The column keeps its
    length. When no cell parsed, every cell stays missing. When some cell
    parsed, no cell is missing afterwards; two rows whose parsed values are
    ordered end in the same order, and in the opposite order when the
    variable is declared "lower is better"; and when two parsed values
    differ, every cell ends in [0,1]. *)
Theorem numeric_column_is_completed_and_ordered :
  forall (direction : option string) (parsed : DataPreparation.float_col),
    let out := DataPreparation.transform_numeric direction parsed in
    List.length out = List.length parsed
    /\ ((forall x, In x parsed -> x = None) -> forall x, In x out -> x = None)
    /\ (forall v, In (Some v) parsed ->
          (forall x, In x out -> exists r, x = Some r)
          /\ (forall i j a b,
                 nth_error parsed i = Some (Some a) ->
                 nth_error parsed j = Some (Some b) ->
                 (a <= b)%Q ->
                 exists a' b',
                   nth_error out i = Some (Some a')
                   /\ nth_error out j = Some (Some b')
                   /\ (direction <> Some DataPreparation.lower_is_better -> (a' <= b')%Q)
                   /\ (direction = Some DataPreparation.lower_is_better -> (b' <= a')%Q))
          /\ (forall w, In (Some w) parsed -> ~ (v == w)%Q ->
                forall r, In (Some r) out -> (0 <= r /\ r <= 1)%Q)).
Proof.
  intros direction parsed out. split; [apply transform_numeric_length|].
  split; [apply all_missing_stay_missing|].
  intros v Hv. subst out. unfold DataPreparation.transform_numeric, DataPreparation.imputed.
  set (series := DataPreparation.inverted direction parsed).
  assert (Hdec : {direction = Some DataPreparation.lower_is_better}
                 + {direction <> Some DataPreparation.lower_is_better})
    by (decide equality; apply string_dec).
  destruct Hdec as [Hd|Hd].
  - (* lower is better: every value w becomes M - w *)
    destruct (inverted_lower parsed v Hv) as [M [HM Hinv]].
    assert (Hs : series = DataPreparation.invert (Some M) parsed)
      by (unfold series; rewrite Hd; exact Hinv).
    assert (Hin : forall w, In (Some w) parsed -> In (Some (M - w)%Q) series).
    { intros w Hw. rewrite Hs. apply in_invert. right. eauto. }
    split; [|split].
    + apply scale_complete. apply (fillna_complete series _ (Hin v Hv)).
    + intros i j a b Hi Hj Hab.
      assert (Hi' : nth_error (DataPreparation.fillna (DataPreparation.median series) series) i
                    = Some (Some (M - a)%Q))
        by (apply nth_error_fillna; rewrite Hs; apply nth_error_invert; assumption).
      assert (Hj' : nth_error (DataPreparation.fillna (DataPreparation.median series) series) j
                    = Some (Some (M - b)%Q))
        by (apply nth_error_fillna; rewrite Hs; apply nth_error_invert; assumption).
      destruct (scale_monotone _ j i (M - b)%Q (M - a)%Q Hj' Hi') as [b' [a' [Hb' [Ha' Hle]]]];
        [lra|].
      exists a', b'. split; [exact Ha'|]. split; [exact Hb'|].
      split; [intros Hn; contradiction | intros _; exact Hle].
    + intros w Hw Hvw.
      apply (scale_unit _ (M - v)%Q (M - w)%Q).
      * apply in_fillna_keep, Hin, Hv.
      * apply in_fillna_keep, Hin, Hw.
      * intros E. apply Hvw. lra.
  - (* any other direction: the values are kept *)
    assert (Hs : series = parsed) by (apply inverted_other; exact Hd).
    split; [|split].
    + apply scale_complete. apply (fillna_complete series v). rewrite Hs. exact Hv.
    + intros i j a b Hi Hj Hab.
      assert (Hi' : nth_error (DataPreparation.fillna (DataPreparation.median series) series) i
                    = Some (Some a))
        by (apply nth_error_fillna; rewrite Hs; assumption).
      assert (Hj' : nth_error (DataPreparation.fillna (DataPreparation.median series) series) j
                    = Some (Some b))
        by (apply nth_error_fillna; rewrite Hs; assumption).
      destruct (scale_monotone _ i j a b Hi' Hj' Hab) as [a' [b' [Ha' [Hb' Hle]]]].
      exists a', b'. split; [exact Ha'|]. split; [exact Hb'|].
      split; [intros _; exact Hle | intros Hn; contradiction].
    + intros w Hw Hvw.
      apply (scale_unit _ v w); [| |exact Hvw];
        apply in_fillna_keep; rewrite Hs; assumption.
Qed.

Lemma numeric_column_is_completed_and_ordered_witness :
  (exists a' b',
      nth_error (DataPreparation.transform_numeric (Some "Higher values are better")
                   [Some 10; None; Some 50; Some 30]%Q) 0 = Some (Some a')
      /\ nth_error (DataPreparation.transform_numeric (Some "Higher values are better")
                      [Some 10; None; Some 50; Some 30]%Q) 2 = Some (Some b')
      /\ (a' <= b')%Q)
  /\ (forall r,
         In (Some r) (DataPreparation.transform_numeric (Some "Higher values are better")
                        [Some 10; None; Some 50; Some 30]%Q) ->
         (0 <= r /\ r <= 1)%Q)
  /\ (forall x,
         In x (DataPreparation.transform_numeric (Some DataPreparation.lower_is_better)
                 [None; None]) ->
         x = None).
Proof.
  destruct (numeric_column_is_completed_and_ordered (Some "Higher values are better")
              [Some 10; None; Some 50; Some 30]%Q) as [_ [_ H]].
  destruct (H 10%Q (or_introl eq_refl)) as [_ [Hord Hunit]].
  split; [|split].
  - destruct (Hord 0%nat 2%nat 10%Q 50%Q eq_refl eq_refl) as [a' [b' [Ha [Hb [Hle _]]]]];
      [discriminate|].
    exists a', b'. split; [exact Ha|]. split; [exact Hb|]. apply Hle. discriminate.
  - apply (Hunit 50%Q); [simpl; auto | discriminate].
  - destruct (numeric_column_is_completed_and_ordered
                (Some DataPreparation.lower_is_better) [None; None]) as [_ [Hnone _]].
    apply Hnone. intros x [<-|[<-|[]]]; reflexivity.
Defined.

(** ** The prepared target (data_preparation.py) *)

(** X10. Whatever step 3 of the preparation accepts as a target column is
    binary afterwards: the column had at most two distinct values (a missing
    value counted as one), it keeps its length, and every cell of the result
    is a number equal to 0 or to 1, so that none is missing. In a column of
    strings a missing cell is not one of the accepted spellings of "yes" and
    becomes 0. *)
Theorem prepared_target_is_binary :
  forall (str_of_number : Q -> string) (col out : Series),
    DataPreparation.prepare_target str_of_number col = Ok out ->
    (List.length (DataPreparation.unique (values col)) <= 2)%nat
    /\ List.length (values out) = List.length (values col)
    /\ (forall c, In c (values out) -> exists q, c = Num q /\ (q == 0 \/ q == 1)%Q)
    /\ (dtype_of col = object ->
        forall i, nth_error (values col) i = Some NaN ->
                  nth_error (values out) i = Some (Num 0)).
Proof.
  intros sn col out H. unfold DataPreparation.prepare_target in H.
  destruct (2 <? List.length (DataPreparation.unique (values col)))%nat eqn:E;
    [discriminate|].
  apply Nat.ltb_ge in E. split; [exact E|].
  assert (Hnum : forallb DataPreparation.in_zero_one_nan
                   (DataPreparation.unique (values col)) = true ->
                 forall c, In c (values col) ->
                           exists q, c = Num q /\ (q == 0 \/ q == 1)%Q).
  { intros F c Hc.
    destruct (unique_acc_represents (values col) [] c Hc eq_refl) as [u [Hu Heq]].
    rewrite forallb_forall in F. specialize (F u Hu).
    destruct u as [q| |]; simpl in F; try discriminate.
    destruct c as [p| |]; simpl in Heq; try discriminate.
    apply Qeq_bool_iff in Heq. exists p. split; [reflexivity|].
    apply orb_true_iff in F. destruct F as [F|F]; apply Qeq_bool_iff in F;
      [left | right]; rewrite Heq; exact F. }
  destruct (dtype_of col) eqn:D.
  - destruct (forallb _ _) eqn:F; [|discriminate]. inversion H; subst out.
    split; [reflexivity|]. split; [apply Hnum; reflexivity | discriminate].
  - destruct (forallb _ _) eqn:F; [|discriminate]. inversion H; subst out.
    split; [reflexivity|]. split; [apply Hnum; reflexivity | discriminate].
  - inversion H; subst out. simpl. split; [apply length_map|]. split.
    + intros c Hc. apply in_map_iff in Hc. destruct Hc as [c0 [<- _]].
      destruct (DataPreparation.truthy sn c0); [exists 1%Q | exists 0%Q];
        split; try reflexivity; [right | left]; reflexivity.
    + intros _ i Hi. rewrite nth_error_map, Hi. reflexivity.
Qed.

Lemma prepared_target_is_binary_witness :
  exists out,
    DataPreparation.prepare_target Samples.decimal_str
      (mkSeries object [Str "Yes"; NaN; Str "Yes"; Str "Yes"]) = Ok out
    /\ values out = [Num 1; Num 0; Num 1; Num 1]
    /\ (forall c, In c (values out) -> exists q, c = Num q /\ (q == 0 \/ q == 1)%Q).
Proof.
  eexists. split; [vm_compute; reflexivity|]. split; [reflexivity|].
  apply (prepared_target_is_binary Samples.decimal_str
           (mkSeries object [Str "Yes"; NaN; Str "Yes"; Str "Yes"]) _ eq_refl).
Defined.

(** ** The frame returned by the preparation (data_preparation.py) *)

Section PreparedFrame.

Import DataPreparation.

Variable str_of_number : Q -> string.
Variable to_numeric_string : string -> option Q.

Lemma target_column_ok label df s :
  target_column label df = Ok s -> get_column label df = Ok s.
Proof.
  unfold target_column. destruct (duplicated label df); [discriminate | auto].
Qed.

Lemma uniform_columns_spec df :
  uniform_columns df = true
  <-> forall p, In p (columns df) -> List.length (values (snd p)) = nrows df.
Proof.
  unfold uniform_columns. rewrite forallb_forall.
  split; intros H p Hp; specialize (H p Hp); apply Nat.eqb_eq; exact H.
Qed.

Lemma set_in_In label s cols p :
  In p (set_in label s cols) -> In p cols \/ snd p = s.
Proof.
  induction cols as [|[l old] cols IH]; simpl.
  - intros [<-|[]]. right. reflexivity.
  - destruct (l =? label); simpl.
    + intros [<-|H]; [right; reflexivity | left; right; exact H].
    + intros [<-|H]; [left; left; reflexivity|].
      destruct (IH H) as [H'|H']; [left; right; exact H' | right; exact H'].
Qed.

Lemma uniform_set_column label s df :
  uniform_columns df = true -> List.length (values s) = nrows df ->
  uniform_columns (set_column label s df) = true.
Proof.
  rewrite !uniform_columns_spec. intros Hdf Hs p Hp. simpl in *.
  destruct (set_in_In _ _ _ _ Hp) as [H| ->]; [apply Hdf; exact H | exact Hs].
Qed.

Lemma get_column_In label df s :
  get_column label df = Ok s -> exists p, In p (columns df) /\ snd p = s.
Proof.
  rewrite get_column_find.
  destruct (find _ (columns df)) as [p|] eqn:F; [|discriminate].
  intros E. inversion E. exists p. split; [|reflexivity].
  apply find_some in F. apply F.
Qed.

Lemma get_column_length label df s :
  uniform_columns df = true -> get_column label df = Ok s ->
  List.length (values s) = nrows df.
Proof.
  intros Hdf Hs. destruct (get_column_In _ _ _ Hs) as [p [Hp <-]].
  apply uniform_columns_spec in Hp; assumption.
Qed.

Lemma categorical_step_frame config col df dummies df' dummies' :
  categorical_step str_of_number config col (df, dummies) = Ok (df', dummies') ->
  nrows df' = nrows df
  /\ (uniform_columns df = true ->
      (forall p, In p dummies -> List.length (values (snd p)) = nrows df) ->
      uniform_columns df' = true
      /\ forall p, In p dummies' -> List.length (values (snd p)) = nrows df').
Proof.
  unfold categorical_step. intros H.
  destruct (get_column col df) as [s|e] eqn:Hs; simpl in H; [|discriminate].
  destruct (Config.has_order (Config.get_details config col)).
  - destruct (Config.value_order (Config.get_details config col)) as [order|];
      [|discriminate].
    inversion H; subst df' dummies'. split; [reflexivity|].
    intros Hdf Hd. pose proof (get_column_length _ _ _ Hdf Hs) as Hlen. split; [|exact Hd].
    apply uniform_set_column.
    + apply uniform_set_column; [exact Hdf|]. simpl. rewrite length_map. exact Hlen.
    + simpl. rewrite !length_map. exact Hlen.
  - inversion H; subst df' dummies'. split; [reflexivity|].
    intros Hdf Hd. pose proof (get_column_length _ _ _ Hdf Hs) as Hlen. split.
    + apply uniform_set_column; [exact Hdf|]. simpl. rewrite length_map. exact Hlen.
    + intros p Hp. simpl. apply in_app_or in Hp. destruct Hp as [Hp|Hp]; [apply Hd; exact Hp|].
      unfold get_dummies in Hp. apply in_map_iff in Hp. destruct Hp as [level [<- _]].
      simpl. rewrite !length_map. exact Hlen.
Qed.

Lemma categorical_loop_frame config cols : forall df dummies df' dummies',
  categorical_loop str_of_number config cols (df, dummies) = Ok (df', dummies') ->
  nrows df' = nrows df
  /\ (uniform_columns df = true ->
      (forall p, In p dummies -> List.length (values (snd p)) = nrows df) ->
      uniform_columns df' = true
      /\ forall p, In p dummies' -> List.length (values (snd p)) = nrows df').
Proof.
  induction cols as [|col cols IH]; intros df dummies df' dummies' H;
    cbn [categorical_loop] in H.
  - inversion H; subst. split; [reflexivity|]. intros; split; assumption.
  - destruct (categorical_step str_of_number config col (df, dummies))
      as [[df1 d1]|e] eqn:Hstep; simpl in H; [|discriminate].
    destruct (categorical_step_frame _ _ _ _ _ _ Hstep) as [Hn1 Hu1].
    destruct (IH _ _ _ _ H) as [Hn Hu]. split; [congruence|].
    intros Hdf Hd. destruct (Hu1 Hdf Hd) as [Hdf1 Hd1]. apply Hu; assumption.
Qed.

Lemma numerical_step_frame config col df df' :
  numerical_step str_of_number to_numeric_string config col df = Ok df' ->
  nrows df' = nrows df /\ (uniform_columns df = true -> uniform_columns df' = true).
Proof.
  unfold numerical_step, numerical_column. intros H.
  destruct (duplicated col df); [discriminate|].
  destruct (get_column col df) as [s|e] eqn:Hs; simpl in H; [|discriminate].
  inversion H; subst df'. split; [reflexivity|]. intros Hdf.
  apply uniform_set_column; [exact Hdf|]. simpl.
  rewrite length_map, transform_numeric_length. unfold parse_column.
  rewrite length_map. eapply get_column_length; eauto.
Qed.

Lemma numerical_loop_frame config cols : forall df df',
  numerical_loop str_of_number to_numeric_string config cols df = Ok df' ->
  nrows df' = nrows df /\ (uniform_columns df = true -> uniform_columns df' = true).
Proof.
  induction cols as [|col cols IH]; intros df df' H; cbn [numerical_loop] in H.
  - inversion H; subst. split; auto.
  - destruct (numerical_step str_of_number to_numeric_string config col df)
      as [df1|e] eqn:Hstep; simpl in H; [|discriminate].
    destruct (numerical_step_frame _ _ _ _ Hstep) as [Hn1 Hu1].
    destruct (IH _ _ H) as [Hn Hu]. split; [congruence | auto].
Qed.

Lemma prepare_target_length col out :
  prepare_target str_of_number col = Ok out ->
  List.length (values out) = List.length (values col).
Proof.
  unfold prepare_target.
  destruct (2 <? _)%nat; [discriminate|].
  destruct (dtype_of col); try destruct (forallb _ _); intros H; inversion H;
    simpl; rewrite ?length_map; reflexivity.
Qed.

Lemma drop_frame labels df out :
  drop labels df = Ok out ->
  nrows out = nrows df /\ (uniform_columns df = true -> uniform_columns out = true).
Proof.
  unfold drop. destruct (find _ labels); [discriminate|].
  intros H; inversion H; subst out. split; [reflexivity|].
  rewrite !uniform_columns_spec. simpl. intros Hdf p Hp.
  apply filter_In in Hp. apply Hdf, Hp.
Qed.

Lemma mapM_select_In df labels : forall picked,
  mapM (select_one df) labels = Ok picked ->
  forall p, In p (List.concat picked) -> In p (columns df).
Proof.
  induction labels as [|l labels IH]; simpl; intros picked H p Hp.
  - inversion H; subst. contradiction.
  - destruct (select_one df l) as [cs|e] eqn:Hone; simpl in H; [|discriminate].
    destruct (mapM (select_one df) labels) as [rest|e]; simpl in H; [|discriminate].
    inversion H; subst picked. simpl in Hp. apply in_app_or in Hp.
    destruct Hp as [Hp|Hp]; [|eapply IH; eauto].
    unfold select_one in Hone.
    destruct (filter _ (columns df)) as [|c0 cs0] eqn:F; [discriminate|].
    inversion Hone; subst cs. rewrite <- F in Hp. apply filter_In in Hp. apply Hp.
Qed.

Lemma select_frame labels df out :
  select labels df = Ok out ->
  nrows out = nrows df
  /\ (forall p, In p (columns out) -> In p (columns df))
  /\ (uniform_columns df = true -> uniform_columns out = true).
Proof.
  unfold select. destruct (mapM (select_one df) labels) as [picked|e] eqn:Hm;
    simpl; [|discriminate].
  intros H; inversion H; subst out. simpl. split; [reflexivity|].
  pose proof (mapM_select_In _ _ _ Hm) as Hin. split; [exact Hin|].
  rewrite !uniform_columns_spec. simpl. intros Hdf p Hp. apply Hdf, Hin, Hp.
Qed.

Lemma names_of_filter_nil {A} (f : string * A -> bool) (l : list (string * A)) :
  map fst (filter f l) = [] -> forall p, In p l -> f p = false.
Proof.
  intros H p Hp. apply map_eq_nil in H.
  destruct (f p) eqn:E; [|reflexivity].
  assert (Hin : In p (filter f l)) by (apply filter_In; auto).
  rewrite H in Hin. contradiction.
Qed.

Lemma validated_frame df config :
  validate_prepared_data to_numeric_string df config = Ok tt ->
  (forall p, In p (columns df) ->
             (forall c, In c (values (snd p)) -> isna c = false)
             /\ coercible to_numeric_string (snd p) = true
             /\ nunique (snd p) <> 1%nat)
  /\ exists tcol,
      get_column (Config.target_variable config) df = Ok tcol
      /\ forall c, In c (values tcol) -> exists q, c = Num q /\ (q == 0 \/ q == 1)%Q.
Proof.
  unfold validate_prepared_data. intros H.
  destruct (null_counts_any df) eqn:Hnull; [discriminate|].
  destruct (non_numeric to_numeric_string df) as [|n0 ns] eqn:Hnon; [|discriminate].
  destruct (get_column (Config.target_variable config) df) as [tcol|e] eqn:Ht;
    simpl in H; [|discriminate].
  destruct (existsb is_str _ && existsb is_num _); [discriminate|].
  destruct (forallb in_zero_one (unique (values tcol))) eqn:Hbin; simpl in H;
    [|discriminate].
  destruct (constant_cols df) as [|c0 cs] eqn:Hconst; [|discriminate].
  split.
  - intros p Hp. split; [|split].
    + intros c Hc. destruct (isna c) eqn:E; [|reflexivity].
      unfold null_counts_any in Hnull.
      assert (X : existsb (fun p => existsb isna (values (snd p))) (columns df) = true).
      { apply existsb_exists. exists p. split; [exact Hp|].
        apply existsb_exists. exists c. split; assumption. }
      congruence.
    + pose proof (names_of_filter_nil _ _ Hnon p Hp) as E.
      apply orb_false_iff in E. destruct E as [_ E].
      apply negb_false_iff in E. exact E.
    + pose proof (names_of_filter_nil _ _ Hconst p Hp) as E.
      apply Nat.eqb_neq in E. exact E.
  - exists tcol. split; [reflexivity|]. intros c Hc.
    destruct (unique_acc_represents (values tcol) [] c Hc eq_refl) as [u [Hu Heq]].
    rewrite forallb_forall in Hbin. specialize (Hbin u Hu).
    destruct u as [q| |]; simpl in Hbin; try discriminate.
    destruct c as [r| |]; simpl in Heq; try discriminate.
    apply Qeq_bool_iff in Heq. exists r. split; [reflexivity|].
    apply orb_true_iff in Hbin. destruct Hbin as [F|F]; apply Qeq_bool_iff in F;
      [left | right]; rewrite Heq; exact F.
Qed.

Lemma prepare_analysis_data_frame df config out :
  prepare_analysis_data str_of_number to_numeric_string df config = Ok out ->
  nrows out = nrows df
  /\ (uniform_columns df = true -> uniform_columns out = true)
  /\ validate_prepared_data to_numeric_string out config = Ok tt.
Proof.
  intros H. unfold prepare_analysis_data in H.
  destruct (categorical_loop str_of_number config _ _) as [[df1 dummies]|e] eqn:Hcat;
    simpl in H; [|discriminate].
  destruct (numerical_loop str_of_number to_numeric_string config _ _) as [df2|e] eqn:Hnum;
    simpl in H; [|discriminate].
  destruct (target_column _ df2) as [tcol|e] eqn:Ht; simpl in H; [|discriminate].
  apply target_column_ok in Ht.
  destruct (prepare_target str_of_number tcol) as [tcol'|e] eqn:Hprep;
    simpl in H; [|discriminate].
  destruct (drop _ _) as [df4|e] eqn:Hdrop; simpl in H; [|discriminate].
  destruct (select _ df4) as [df5|e] eqn:Hsel; simpl in H; [|discriminate].
  destruct (validate_prepared_data to_numeric_string df5 config) as [[]|e] eqn:Hval;
    simpl in H; [|discriminate].
  inversion H; subst out; clear H.
  destruct (categorical_loop_frame _ _ _ _ _ _ Hcat) as [Hn1 Hu1].
  destruct (numerical_loop_frame _ _ _ _ Hnum) as [Hn2 Hu2]. simpl in Hn2.
  destruct (drop_frame _ _ _ Hdrop) as [Hn4 Hu4]. simpl in Hn4.
  destruct (select_frame _ _ _ Hsel) as [Hn5 [_ Hu5]].
  split; [congruence|]. split; [|exact Hval].
  intros Hdf. apply Hu5, Hu4.
  assert (Hdf2 : uniform_columns df2 = true).
  { apply Hu2. destruct (Hu1 Hdf) as [Hdf1 Hd1]; [intros p []|].
    apply uniform_columns_spec. simpl. intros p Hp. apply in_app_or in Hp.
    destruct Hp as [Hp|Hp]; [|apply Hd1; exact Hp].
    apply uniform_columns_spec in Hp; assumption. }
  apply uniform_set_column; [exact Hdf2|].
  rewrite (prepare_target_length _ _ Hprep). eapply get_column_length; eauto.
Qed.

End PreparedFrame.

(** X11. What a caller may rely on when the preparation returns a frame:
    it has as many rows as the input, and one cell per row in every column
    when the input had; no cell is missing; every column converts to
    numbers; no column holds a single distinct value; and the target column
    is there with every cell equal to 0 or to 1. *)
Theorem prepared_frame_is_clean :
  forall (str_of_number : Q -> string) (to_numeric_string : string -> option Q)
         (df : DataFrame) (config : Config.t) (out : DataFrame),
    DataPreparation.prepare_analysis_data str_of_number to_numeric_string df config
    = Ok out ->
    nrows out = nrows df
    /\ (uniform_columns df = true -> uniform_columns out = true)
    /\ (forall name s, In (name, s) (columns out) ->
          (forall c, In c (values s) -> isna c = false)
          /\ DataPreparation.coercible to_numeric_string s = true
          /\ DataPreparation.nunique s <> 1%nat)
    /\ exists tcol,
        get_column (Config.target_variable config) out = Ok tcol
        /\ forall c, In c (values tcol) -> exists q, c = Num q /\ (q == 0 \/ q == 1)%Q.
Proof.
  intros sn tn df config out H.
  destruct (prepare_analysis_data_frame sn tn df config out H) as [Hn [Hu Hval]].
  destruct (validated_frame tn out config Hval) as [Hcols Htarget].
  split; [exact Hn|]. split; [exact Hu|]. split; [|exact Htarget].
  intros name s Hin. apply (Hcols (name, s) Hin).
Qed.

Lemma prepared_frame_is_clean_witness :
  exists out,
    DataPreparation.prepare_analysis_data Samples.decimal_str Samples.parse_decimal
      Samples.raw_frame Samples.raw_config = Ok out
    /\ nrows out = nrows Samples.raw_frame
    /\ uniform_columns out = true
    /\ exists tcol,
        get_column "bought" out = Ok tcol
        /\ forall c, In c (values tcol) -> exists q, c = Num q /\ (q == 0 \/ q == 1)%Q.
Proof.
  eexists. split; [vm_compute; reflexivity|].
  destruct (prepared_frame_is_clean Samples.decimal_str Samples.parse_decimal
              Samples.raw_frame Samples.raw_config _ eq_refl) as [Hn [Hu [_ Ht]]].
  split; [exact Hn|]. split; [apply Hu; reflexivity | exact Ht].
Defined.

(** ** The errors of the preparation (data_preparation.py) *)

Section PreparationErrors.

Import DataPreparation.

Variable str_of_number : Q -> string.
Variable to_numeric_string : string -> option Q.

Lemma prepare_target_cells col out :
  prepare_target str_of_number col = Ok out ->
  forall c, In c (values out) -> exists q, c = Num q /\ (q == 0 \/ q == 1)%Q.
Proof.
  unfold prepare_target. destruct (2 <? _)%nat; [discriminate|].
  assert (Hnum : forallb in_zero_one_nan (unique (values col)) = true ->
                 forall c, In c (values col) ->
                           exists q, c = Num q /\ (q == 0 \/ q == 1)%Q).
  { intros F c Hc.
    destruct (unique_acc_represents (values col) [] c Hc eq_refl) as [u [Hu Heq]].
    rewrite forallb_forall in F. specialize (F u Hu).
    destruct u as [q| |]; simpl in F; try discriminate.
    destruct c as [p| |]; simpl in Heq; try discriminate.
    apply Qeq_bool_iff in Heq. exists p. split; [reflexivity|].
    apply orb_true_iff in F. destruct F as [F|F]; apply Qeq_bool_iff in F;
      [left | right]; rewrite Heq; exact F. }
  destruct (dtype_of col).
  - destruct (forallb _ _) eqn:F; [|discriminate]. intros H; inversion H; subst out.
    apply Hnum; reflexivity.
  - destruct (forallb _ _) eqn:F; [|discriminate]. intros H; inversion H; subst out.
    apply Hnum; reflexivity.
  - intros H; inversion H; subst out. simpl.
    intros c Hc. apply in_map_iff in Hc. destruct Hc as [c0 [<- _]].
    destruct (truthy str_of_number c0); [exists 1%Q | exists 0%Q];
      split; try reflexivity; [right | left]; reflexivity.
Qed.

Lemma unique_acc_In vs : forall seen u, In u (unique_acc seen vs) -> In u vs.
Proof.
  induction vs as [|v vs IH]; simpl; intros seen u Hu; [contradiction|].
  destruct (existsb (cell_eqb v) seen).
  - right. eapply IH; eauto.
  - destruct Hu as [<-|Hu]; [left; reflexivity | right; eapply IH; eauto].
Qed.

Lemma categorical_step_error config col st e :
  categorical_step str_of_number config col st = Raise e -> exists k, e = KeyError k.
Proof.
  destruct st as [df dummies]. unfold categorical_step.
  rewrite get_column_find.
  destruct (find _ (columns df)); simpl.
  - destruct (Config.has_order _); [|discriminate].
    destruct (Config.value_order _); [discriminate|].
    intros H; inversion H. eauto.
  - intros H; inversion H. eauto.
Qed.

Lemma categorical_loop_error config cols : forall st e,
  categorical_loop str_of_number config cols st = Raise e -> exists k, e = KeyError k.
Proof.
  induction cols as [|col cols IH]; intros st e H; cbn [categorical_loop] in H;
    [discriminate|].
  destruct (categorical_step str_of_number config col st) as [st'|e'] eqn:Hstep;
    simpl in H.
  - eapply IH; eauto.
  - inversion H; subst e'. eapply categorical_step_error; eauto.
Qed.

Lemma numerical_loop_error config cols : forall df e,
  numerical_loop str_of_number to_numeric_string config cols df = Raise e ->
  exists col, In col cols /\ e = ValueError ("Failed to process column " ++ col).
Proof.
  induction cols as [|col cols IH]; intros df e H; cbn [numerical_loop] in H;
    [discriminate|].
  destruct (numerical_step str_of_number to_numeric_string config col df)
    as [df'|e'] eqn:Hstep; simpl in H.
  - destruct (IH _ _ H) as [c [Hc He]]. exists c. split; [right; exact Hc | exact He].
  - inversion H; subst e'. exists col. split; [left; reflexivity|].
    unfold numerical_step, numerical_column in Hstep.
    destruct (duplicated col df); [inversion Hstep; reflexivity|].
    destruct (get_column col df); simpl in Hstep; inversion Hstep. reflexivity.
Qed.

Lemma get_column_error label df e :
  get_column label df = Raise e -> e = KeyError label.
Proof.
  rewrite get_column_find. destruct (find _ _); [discriminate|].
  intros H; inversion H. reflexivity.
Qed.

Lemma prepare_target_error col e :
  prepare_target str_of_number col = Raise e ->
  e = ValueError "Target variable must be binary"
  \/ e = ValueError "Target values must be binary (0/1)".
Proof.
  unfold prepare_target. destruct (2 <? _)%nat.
  - intros H; inversion H. left. reflexivity.
  - destruct (dtype_of col); try destruct (forallb _ _); try discriminate;
      intros H; inversion H; right; reflexivity.
Qed.

Lemma drop_error labels df e :
  drop labels df = Raise e -> exists k, e = KeyError k.
Proof.
  unfold drop. destruct (find _ labels); [|discriminate].
  intros H; inversion H. eauto.
Qed.

Lemma select_error labels df e :
  select labels df = Raise e -> exists k, e = KeyError k.
Proof.
  unfold select.
  assert (Hm : forall r, mapM (select_one df) labels = Raise r -> exists k, r = KeyError k).
  { induction labels as [|l labels IH]; simpl; intros r; [discriminate|].
    destruct (select_one df l) as [cs|e1] eqn:Hone; simpl.
    - destruct (mapM (select_one df) labels) as [rest|e2]; simpl; [discriminate|].
      intros H; inversion H; subst. apply IH. reflexivity.
    - intros H; inversion H; subst. unfold select_one in Hone.
      destruct (filter _ _); inversion Hone. eauto. }
  destruct (mapM (select_one df) labels) as [picked|r]; simpl; [discriminate|].
  intros H; inversion H; subst. apply Hm. reflexivity.
Qed.

Lemma find_filter_first {A} (f : A -> bool) (l : list A) :
  find f l = hd_error (filter f l).
Proof.
  induction l as [|a l IH]; simpl; [reflexivity|].
  destruct (f a); [reflexivity | exact IH].
Qed.

Lemma find_through_filter {A} (f g : A -> bool) (l : list A) :
  (forall x, f x = true -> g x = true) -> find f (filter g l) = find f l.
Proof.
  intros Hfg. induction l as [|a l IH]; simpl; [reflexivity|].
  destruct (g a) eqn:G; simpl.
  - destruct (f a); [reflexivity | exact IH].
  - destruct (f a) eqn:F; [|exact IH]. rewrite (Hfg a F) in G. discriminate.
Qed.

(** The column that the validator reads as the target is the one that
    step 3 stored. *)
Lemma kept_target target rest categorical df3 df4 df5 t :
  drop categorical df3 = Ok df4 ->
  select (target :: rest) df4 = Ok df5 ->
  get_column target df5 = Ok t ->
  get_column target df3 = Ok t.
Proof.
  unfold drop, select. destruct (find _ categorical); [discriminate|].
  intros H4; inversion H4; subst df4; clear H4. simpl.
  unfold select_one at 1. simpl.
  destruct (filter (fun p => fst p =? target) (filter _ (columns df3)))
    as [|c0 cs] eqn:F; simpl; [discriminate|].
  destruct (mapM _ rest) as [picked|e]; simpl; [|discriminate].
  intros H5; inversion H5; subst df5; clear H5.
  rewrite !get_column_find. simpl.
  assert (Hc0 : In c0 (filter (fun p => fst p =? target)
                         (filter (fun p => negb (mem (fst p) categorical)) (columns df3))))
    by (rewrite F; left; reflexivity).
  apply filter_In in Hc0. destruct Hc0 as [Hc0 Hname].
  apply filter_In in Hc0. destruct Hc0 as [_ Hkept].
  rewrite Hname. intros Ht; inversion Ht; subst t.
  assert (Hfind : find (fun p => fst p =? target) (columns df3) = Some c0).
  { rewrite <- (find_through_filter _ (fun p => negb (mem (fst p) categorical))).
    - rewrite find_filter_first, F. reflexivity.
    - intros x Hx. apply String.eqb_eq in Hx. apply String.eqb_eq in Hname.
      rewrite Hx, <- Hname. exact Hkept. }
  rewrite Hfind. reflexivity.
Qed.

Lemma validate_binary_target_error df config tcol e :
  get_column (Config.target_variable config) df = Ok tcol ->
  (forall c, In c (values tcol) -> exists q, c = Num q /\ (q == 0 \/ q == 1)%Q) ->
  validate_prepared_data to_numeric_string df config = Raise e ->
  In e [ValueError "Dataset contains missing values";
        ValueError "Non-numeric values found";
        ValueError "Constant columns found"].
Proof.
  intros Ht Hbin. unfold validate_prepared_data.
  destruct (null_counts_any df); [intros H; inversion H; simpl; auto|].
  destruct (non_numeric to_numeric_string df); [|intros H; inversion H; simpl; auto].
  rewrite Ht. simpl.
  assert (Hu : forall u, In u (unique (values tcol)) ->
                         exists q, u = Num q /\ (q == 0 \/ q == 1)%Q).
  { intros u Hu. apply Hbin. eapply unique_acc_In; eauto. }
  assert (Hstr : existsb is_str (unique (values tcol)) = false).
  { destruct (existsb is_str _) eqn:E; [|reflexivity].
    apply existsb_exists in E. destruct E as [u [Hin Hs]].
    destruct (Hu u Hin) as [q [-> _]]. discriminate. }
  assert (Hok : forallb in_zero_one (unique (values tcol)) = true).
  { apply forallb_forall. intros u Hin. destruct (Hu u Hin) as [q [-> [E|E]]]; simpl;
      apply Qeq_bool_iff in E; rewrite E; [reflexivity | apply orb_true_r]. }
  rewrite Hstr, Hok. simpl.
  destruct (constant_cols df); [discriminate|].
  intros H; inversion H; simpl; auto.
Qed.

End PreparationErrors.

(** X12. Every way in which the preparation of a frame with distinct
    column labels can fail. It raises a [KeyError] (a configured column or
    the [value_order] entry is absent), the [ValueError] that names a
    numerical variable whose column could not be processed, the
    [ValueError] of grouping by a target label that an indicator column
    duplicated, one of the two errors of the target step, or one of three
    errors of the validator: missing values, non-numeric values, constant
    columns. The validator's two checks of the target, the [TypeError] of
    sorting mixed values and "Target must be binary (0/1)", can never fire
    here, because the target column it reads is the one step 3 stored. *)
Theorem preparation_errors :
  forall (str_of_number : Q -> string) (to_numeric_string : string -> option Q)
         (df : DataFrame) (config : Config.t) (e : exn),
    NoDup (DataPreparation.column_names df) ->
    DataPreparation.prepare_analysis_data str_of_number to_numeric_string df config
    = Raise e ->
    ((exists k, e = KeyError k)
     \/ (exists col, In col (Config.numerical_variables config)
                     /\ e = ValueError ("Failed to process column " ++ col))
     \/ In e [ValueError ("Grouper for '" ++ Config.target_variable config
                          ++ "' not 1-dimensional");
              ValueError "Target variable must be binary";
              ValueError "Target values must be binary (0/1)";
              ValueError "Dataset contains missing values";
              ValueError "Non-numeric values found";
              ValueError "Constant columns found"])
    /\ e <> TypeError
    /\ e <> ValueError "Target must be binary (0/1)".
Proof.
  intros sn tn df config e _ H.
  assert (Hcases :
    (exists k, e = KeyError k)
    \/ (exists col, In col (Config.numerical_variables config)
                    /\ e = ValueError ("Failed to process column " ++ col))
    \/ In e [ValueError ("Grouper for '" ++ Config.target_variable config
                         ++ "' not 1-dimensional");
             ValueError "Target variable must be binary";
             ValueError "Target values must be binary (0/1)";
             ValueError "Dataset contains missing values";
             ValueError "Non-numeric values found";
             ValueError "Constant columns found"]).
  { unfold DataPreparation.prepare_analysis_data in H.
    destruct (DataPreparation.categorical_loop sn config _ _) as [[df1 dummies]|e1] eqn:Hcat;
      simpl in H.
    2:{ inversion H; subst e1. left. eapply categorical_loop_error; eauto. }
    destruct (DataPreparation.numerical_loop sn tn config _ _) as [df2|e2] eqn:Hnum;
      simpl in H.
    2:{ inversion H; subst e2. right; left. eapply numerical_loop_error; eauto. }
    destruct (DataPreparation.target_column (Config.target_variable config) df2)
      as [tcol|e3] eqn:Ht; simpl in H.
    2:{ inversion H; subst e3. unfold DataPreparation.target_column in Ht.
        destruct (duplicated _ df2).
        - inversion Ht. right; right. left. reflexivity.
        - left. apply get_column_error in Ht. eauto. }
    destruct (DataPreparation.prepare_target sn tcol) as [tcol'|e4] eqn:Hprep; simpl in H.
    2:{ inversion H; subst e4. right; right.
        destruct (prepare_target_error _ _ _ Hprep) as [-> | ->]; simpl; auto. }
    destruct (DataPreparation.drop _ _) as [df4|e5] eqn:Hdrop; simpl in H.
    2:{ inversion H; subst e5. left. eapply drop_error; eauto. }
    destruct (DataPreparation.select _ df4) as [df5|e6] eqn:Hsel; simpl in H.
    2:{ inversion H; subst e6. left. eapply select_error; eauto. }
    destruct (DataPreparation.validate_prepared_data tn df5 config) as [[]|e7] eqn:Hval;
      simpl in H; [discriminate|].
    inversion H; subst e7.
    destruct (get_column (Config.target_variable config) df5) as [t|e8] eqn:Ht5.
    - pose proof (kept_target _ _ _ _ _ _ _ Hdrop Hsel Ht5) as Ht3.
      rewrite get_set_column in Ht3. inversion Ht3; subst t.
      pose proof (validate_binary_target_error tn df5 config tcol' e Ht5
                    (prepare_target_cells sn tcol tcol' Hprep) Hval) as Hin.
      right; right. simpl in Hin. simpl. tauto.
    - unfold DataPreparation.validate_prepared_data in Hval.
      destruct (DataPreparation.null_counts_any df5);
        [inversion Hval; right; right; simpl; auto 10|].
      destruct (DataPreparation.non_numeric tn df5);
        [|inversion Hval; right; right; simpl; auto 10].
      rewrite Ht5 in Hval. simpl in Hval. inversion Hval; subst.
      left. apply get_column_error in Ht5. eauto. }
  split; [exact Hcases|].
  split; intros ->.
  - destruct Hcases as [[k Hk]|[[c [_ Hc]]|Hin]]; try discriminate.
    simpl in Hin. repeat (destruct Hin as [Hin|Hin]; [discriminate|]). contradiction.
  - destruct Hcases as [[k Hk]|[[c [_ Hc]]|Hin]]; try discriminate.
    simpl in Hin. repeat (destruct Hin as [Hin|Hin]; [discriminate|]). contradiction.
Qed.

Lemma preparation_errors_witness :
  DataPreparation.prepare_analysis_data Samples.decimal_str Samples.parse_decimal
    (mkDataFrame 3 [("a_b", mkSeries int64 [Num 0; Num 1; Num 1]);
                    ("a", mkSeries object [Str "b"; Str "c"; Str "b"])])
    (Config.mkConfig "a_b" ["a"] [] [] (Some "RAW_DATA.UPLOAD_1"))
  = Raise (ValueError "Grouper for 'a_b' not 1-dimensional")
  /\ ValueError "Grouper for 'a_b' not 1-dimensional" <> TypeError.
Proof.
  assert (H : DataPreparation.prepare_analysis_data Samples.decimal_str
                Samples.parse_decimal
                (mkDataFrame 3 [("a_b", mkSeries int64 [Num 0; Num 1; Num 1]);
                                ("a", mkSeries object [Str "b"; Str "c"; Str "b"])])
                (Config.mkConfig "a_b" ["a"] [] [] (Some "RAW_DATA.UPLOAD_1"))
              = Raise (ValueError "Grouper for 'a_b' not 1-dimensional"))
    by (vm_compute; reflexivity).
  split; [exact H|].
  refine (proj1 (proj2 (preparation_errors Samples.decimal_str Samples.parse_decimal
                          _ _ _ _ H))).
  simpl. constructor; [simpl; intuition discriminate|].
  constructor; [simpl; tauto | constructor].
Defined.

(** ** Decile binning (analysis.py) *)

Section BinningFacts.

Import Analysis.

Lemma filter_length_mono {A} (f g : A -> bool) (l : list A) :
  (forall a, f a = true -> g a = true) ->
  (List.length (filter f l) <= List.length (filter g l))%nat.
Proof.
  intros Hfg. induction l as [|a l IH]; simpl; [lia|].
  destruct (f a) eqn:F.
  - rewrite (Hfg a F). simpl. lia.
  - destruct (g a); simpl; lia.
Qed.

Lemma searchsorted_left_mono bins v w :
  (v <= w)%Q -> (searchsorted_left bins v <= searchsorted_left bins w)%nat.
Proof.
  intros Hvw. unfold searchsorted_left. apply filter_length_mono.
  intros b Hb. apply Qlt_bool_iff in Hb. apply Qlt_bool_iff. lra.
Qed.

Lemma bin_of_monotone x v w kv kw :
  In v x -> In w x -> (v <= w)%Q ->
  bin_of (bin_edges x) v = Some kv -> bin_of (bin_edges x) w = Some kw ->
  (kv <= kw)%nat.
Proof.
  intros Hv Hw Hvw. unfold bin_of.
  destruct (edges_enclose x v Hv) as [Hlo_v _].
  destruct (edges_enclose x w Hw) as [Hlo_w _].
  assert (Hhd : hd 0%Q (bin_edges x) = quantile (DataPreparation.sort x) 0)
    by (rewrite bin_edges_shape; reflexivity).
  rewrite Hhd.
  set (q0 := quantile (DataPreparation.sort x) 0) in *.
  assert (Hid : ((if Qeq_bool v q0 then 1 else searchsorted_left (bin_edges x) v)
                 <= (if Qeq_bool w q0 then 1 else searchsorted_left (bin_edges x) w))%nat).
  { destruct (Qeq_bool v q0) eqn:Ev; destruct (Qeq_bool w q0) eqn:Ew.
    - lia.
    - apply Qeq_bool_neq in Ew.
      unfold searchsorted_left. rewrite bin_edges_shape. fold q0. simpl.
      assert (Hlt : Qlt_bool q0 w = true).
      { apply Qlt_bool_iff. destruct (Qlt_le_dec q0 w) as [|Hge]; [assumption|].
        exfalso. apply Ew. lra. }
      rewrite Hlt. simpl. lia.
    - apply Qeq_bool_iff in Ew. apply Qeq_bool_neq in Ev. exfalso. apply Ev. lra.
    - apply searchsorted_left_mono. exact Hvw. }
  set (idv := if Qeq_bool v q0 then 1%nat else searchsorted_left (bin_edges x) v) in *.
  set (idw := if Qeq_bool w q0 then 1%nat else searchsorted_left (bin_edges x) w) in *.
  destruct (idv =? 0)%nat eqn:Cv; [discriminate|]. apply Nat.eqb_neq in Cv.
  destruct (idw =? 0)%nat eqn:Cw; [discriminate|]. apply Nat.eqb_neq in Cw.
  simpl. destruct (idv =? _)%nat; [discriminate|].
  destruct (idw =? _)%nat; [discriminate|].
  intros Ev Ew. inversion Ev; inversion Ew. lia.
Qed.

Lemma constant_edges_coincide x :
  x <> [] -> (forall a b, In a x -> In b x -> (a == b)%Q) ->
  has_duplicates (bin_edges x) = true.
Proof.
  intros Hne Hconst. rewrite bin_edges_shape. cbn [has_duplicates].
  apply orb_true_iff. left. rewrite existsb_app. apply orb_true_iff. right.
  cbn [existsb]. rewrite orb_false_r. apply Qeq_bool_iff.
  rewrite quantile_lowest, quantile_highest.
  assert (Hlen : (0 < List.length (DataPreparation.sort x))%nat).
  { rewrite sort_length. destruct x; [contradiction | simpl; lia]. }
  apply Hconst; apply in_sort; apply nth_In; lia.
Qed.

Lemma qcut_inv x codes :
  qcut x = Ok codes -> codes = map (bin_of (bin_edges x)) x.
Proof.
  unfold qcut. destruct x as [|x0 xs]; [discriminate|].
  destruct (has_duplicates _); [discriminate|].
  intros H. injection H as <-. reflexivity.
Qed.

End BinningFacts.

(** X13. Deciles follow the predicted probabilities: when the binning
    succeeds, every row gets one of the ten bins, and of two rows the one
    with the higher (or equal) probability is never in a lower bin. *)
Theorem deciles_follow_probabilities :
  forall (x : list Q) (codes : list (option nat)),
    Analysis.qcut x = Ok codes ->
    forall i j v w,
      nth_error x i = Some v -> nth_error x j = Some w -> (v <= w)%Q ->
      exists kv kw,
        nth_error codes i = Some (Some kv)
        /\ nth_error codes j = Some (Some kw)
        /\ (kv <= kw < 10)%nat.
Proof.
  intros x codes H i j v w Hi Hj Hvw.
  apply qcut_inv in H. subst codes.
  assert (Hv : In v x) by (eapply nth_error_In; eauto).
  assert (Hw : In w x) by (eapply nth_error_In; eauto).
  destruct (bin_of_in_range _ _ Hv) as [kv [Hkv _]].
  destruct (bin_of_in_range _ _ Hw) as [kw [Hkw Hlt]].
  exists kv, kw. rewrite !nth_error_map, Hi, Hj. simpl. rewrite Hkv, Hkw.
  split; [reflexivity|]. split; [reflexivity|]. split; [|exact Hlt].
  apply (bin_of_monotone x v w kv kw Hv Hw Hvw Hkv Hkw).
Qed.

Lemma deciles_follow_probabilities_witness :
  exists codes kv kw,
    Analysis.qcut [3 # 10; 1 # 10; 2 # 10; 9 # 10; 5 # 10]%Q = Ok codes
    /\ nth_error codes 1 = Some (Some kv)
    /\ nth_error codes 3 = Some (Some kw)
    /\ (kv <= kw < 10)%nat.
Proof.
  destruct (Analysis.qcut [3 # 10; 1 # 10; 2 # 10; 9 # 10; 5 # 10]%Q) as [codes|e] eqn:Hq;
    [|vm_compute in Hq; discriminate].
  exists codes.
  destruct (deciles_follow_probabilities _ codes Hq 1%nat 3%nat (1 # 10)%Q (9 # 10)%Q
              eq_refl eq_refl) as [kv [kw [Hv [Hw Hle]]]]; [discriminate|].
  exists kv, kw. split; [reflexivity|]. split; [exact Hv|]. split; [exact Hw | exact Hle].
Defined.

(** X14. Probabilities that are all equal cannot be cut into deciles: the
    bin edges coincide, the binning raises "Bin edges must be unique", and
    so does the computation of the decile table, whatever the targets. *)
Theorem equal_probabilities_cannot_be_binned :
  forall (y probs : list Q),
    (forall a b, In a probs -> In b probs -> (a == b)%Q) ->
    Analysis.qcut probs = Raise (ValueError "Bin edges must be unique")
    /\ Analysis.response_rates y probs = Raise (ValueError "Bin edges must be unique").
Proof.
  intros y probs Hconst.
  assert (Hq : Analysis.qcut probs = Raise (ValueError "Bin edges must be unique")).
  { unfold Analysis.qcut. destruct probs as [|p ps] eqn:E; [reflexivity|].
    rewrite constant_edges_coincide; [reflexivity | discriminate | exact Hconst]. }
  split; [exact Hq|]. unfold Analysis.response_rates. rewrite Hq. reflexivity.
Qed.

Lemma equal_probabilities_cannot_be_binned_witness :
  Analysis.response_rates (repeat 1%Q 120) (repeat (1 # 2)%Q 120)
  = Raise (ValueError "Bin edges must be unique").
Proof.
  apply (proj2 (equal_probabilities_cannot_be_binned
                  (repeat 1%Q 120) (repeat (1 # 2)%Q 120)
                  (fun a b Ha Hb =>
                     eq_ind_r (fun a0 => (a0 == b)%Q)
                       (eq_ind_r (fun b0 => ((1 # 2) == b0)%Q) (Qeq_refl (1 # 2))
                          (repeat_spec 120 (1 # 2)%Q b Hb))
                       (repeat_spec 120 (1 # 2)%Q a Ha)))).
Defined.

(** ** The pipeline (analysis.py) *)

(** X15. A table of fewer than 100 rows is always refused, and the model is
    never fitted on it: whatever the classifier, the run fails with the same
    error, one of "source table not specified", "table is empty", "data
    preparation failed" and "insufficient data". *)
Theorem small_tables_are_refused :
  forall (str_of_number : Q -> string) (to_numeric_string : string -> option Q)
         (format_2f : Q -> string) (df : DataFrame) (config : Config.t),
    (nrows df < 100)%nat ->
    exists e,
      In e [ValueError "Source table not specified in configuration";
            ValueError "Table is empty";
            ValueError "Data preparation failed";
            ValueError "Insufficient data for analysis. Minimum 100 rows required"]
      /\ forall fit,
          Analysis.run_analysis str_of_number to_numeric_string format_2f fit df config
          = Analysis.Failure e.
Proof.
  intros sn tn f2 df config Hsmall.
  unfold Analysis.run_analysis, Analysis.run_analysis_body.
  destruct (Config.source_table config) as [table|].
  2:{ eexists. split; [|intros fit; reflexivity]. simpl; auto. }
  destruct (table =? "").
  { eexists. split; [|intros fit; reflexivity]. simpl; auto. }
  destruct (nrows df =? 0)%nat.
  { eexists. split; [|intros fit; reflexivity]. simpl; auto. }
  destruct (DataPreparation.prepare_analysis_data sn tn df config) as [df_prep|e0] eqn:Hprep.
  2:{ eexists. split; [|intros fit; reflexivity]. simpl; auto. }
  destruct (prepare_analysis_data_frame sn tn df config df_prep Hprep) as [Hn [_ Hval]].
  destruct (validated_frame tn df_prep config Hval) as [_ [tcol [Ht _]]].
  assert (Hhas : has_column (Config.target_variable config) df_prep = true).
  { rewrite has_column_find. rewrite get_column_find in Ht.
    destruct (find _ (columns df_prep)); [reflexivity | discriminate]. }
  assert (Hlt : (nrows df_prep <? 100)%nat = true) by (apply Nat.ltb_lt; lia).
  exists (ValueError "Insufficient data for analysis. Minimum 100 rows required").
  split; [simpl; auto|]. intros fit. simpl. rewrite Ht. simpl.
  unfold DataPreparation.drop. simpl. rewrite Hhas. simpl. rewrite Hlt. reflexivity.
Qed.

Lemma small_tables_are_refused_witness :
  exists e,
    In e [ValueError "Source table not specified in configuration";
          ValueError "Table is empty";
          ValueError "Data preparation failed";
          ValueError "Insufficient data for analysis. Minimum 100 rows required"]
    /\ Analysis.run_analysis Samples.decimal_str Samples.parse_decimal Samples.two_decimals
         Samples.fitted_model Samples.raw_frame Samples.raw_config
       = Analysis.Failure e.
Proof.
  destruct (small_tables_are_refused Samples.decimal_str Samples.parse_decimal
              Samples.two_decimals Samples.raw_frame Samples.raw_config)
    as [e [He Hrun]]; [vm_compute; lia|].
  exists e. split; [exact He | apply Hrun].
Defined.

Section RunFacts.

Import Analysis.

Lemma Qsum_unit l :
  (forall v, In v l -> 0 <= v /\ v <= 1)%Q ->
  (0 <= Qsum l /\ Qsum l <= inject_Z (Z.of_nat (List.length l)))%Q.
Proof.
  induction l as [|a l IH]; intros H.
  - simpl. split; apply Qle_refl.
  - destruct (H a (or_introl eq_refl)) as [Ha0 Ha1].
    destruct IH as [I0 I1]; [intros v Hv; apply H; right; exact Hv|].
    change (Qsum (a :: l)) with (a + Qsum l)%Q.
    change (List.length (a :: l)) with (S (List.length l)).
    rewrite Nat2Z.inj_succ. unfold Z.succ. rewrite inject_Z_plus.
    change (inject_Z 1) with 1%Q. split; lra.
Qed.

Lemma mean_unit l :
  l <> [] -> (forall v, In v l -> 0 <= v /\ v <= 1)%Q ->
  exists m, mean l = Some m /\ (0 <= m /\ m <= 1)%Q.
Proof.
  intros Hne H. destruct (Qsum_unit l H) as [S0 S1].
  destruct l as [|a l]; [contradiction|].
  unfold mean. eexists. split; [reflexivity|].
  set (n := inject_Z (Z.of_nat (List.length (a :: l)))) in *.
  assert (Hn : (0 < n)%Q).
  { unfold n. change 0%Q with (inject_Z 0). rewrite <- Zlt_Qlt. simpl. lia. }
  split.
  - apply Qle_shift_div_l; [exact Hn | lra].
  - apply Qle_shift_div_r; [exact Hn | lra].
Qed.

Lemma group_In k codes : forall y v, In v (group k codes y) -> In v y.
Proof.
  induction codes as [|c codes IH]; intros [|w y] v Hv; simpl in Hv; try contradiction.
  destruct (code_eqb c (Some k)).
  - destruct Hv as [<-|Hv]; [left; reflexivity | right; eapply IH; eauto].
  - right. eapply IH; eauto.
Qed.

Lemma mapM_target_number cells : forall ys,
  mapM target_number cells = Ok ys -> forall v, In v ys -> In (Num v) cells.
Proof.
  induction cells as [|c cells IH]; intros ys H v Hv; simpl in H.
  - inversion H; subst. contradiction.
  - destruct (target_number c) as [q|e] eqn:Hc; simpl in H; [|discriminate].
    destruct (mapM target_number cells) as [qs|e] eqn:Hm; simpl in H; [|discriminate].
    inversion H; subst ys; clear H.
    destruct Hv as [<-|Hv].
    + destruct c; simpl in Hc; inversion Hc. left. reflexivity.
    + right. eapply IH; eauto.
Qed.

Lemma qcut_nonempty x codes : qcut x = Ok codes -> x <> [].
Proof. unfold qcut. destruct x; [discriminate|]. intros _. discriminate. Qed.

Lemma decile_rates_unit y probs table :
  (forall v, In v y -> 0 <= v /\ v <= 1)%Q ->
  response_rates y probs = Ok table ->
  (exists b, mean y = Some b /\ (0 <= b /\ b <= 1)%Q)
  /\ forall r, In r table -> exists q, response_rate r = Some q /\ (0 <= q /\ q <= 1)%Q.
Proof.
  intros Hy H.
  destruct (response_rates_inv _ _ _ H) as [deciles [Hq [Hlen [Hten Htable]]]].
  destruct (qcut_codes _ _ Hq) as [Hl Hcodes].
  pose proof (qcut_nonempty _ _ Hq) as Hne.
  split.
  - apply mean_unit; [|exact Hy].
    destruct y; [|discriminate]. destruct probs; [contradiction|].
    simpl in Hlen, Hl. rewrite <- Hlen in Hl. discriminate.
  - intros r Hr. subst table. apply in_map_iff in Hr.
    destruct Hr as [[lab [n rate]] [<- Hin]]. simpl.
    apply in_combine_r in Hin. apply in_combine_r in Hin.
    apply in_map_iff in Hin. destruct Hin as [k [<- Hk]].
    apply in_seq in Hk.
    apply mean_unit.
    + apply group_nonempty; [exact Hlen|].
      apply all_bins_observed; [exact Hcodes | exact Hten | lia].
    + intros v Hv. apply Hy. eapply group_In; eauto.
Qed.

End RunFacts.

(** X16. What a successful run returns. The table had at least 100 rows;
    the first scoring rule reads "Start with 1000 points"; the baseline
    rate and the response rate of every decile are numbers between 0 and 1,
    the second metric is the response rate of the last row of the decile
    table; and every feature is labelled "positive" when its coefficient is
    above zero and "negative" otherwise. *)
Theorem successful_run_is_consistent :
  forall (str_of_number : Q -> string) (to_numeric_string : string -> option Q)
         (format_2f : Q -> string)
         (fit : DataFrame -> list cell ->
                result (list Q * list Analysis.FeatureRow * list Q))
         (df : DataFrame) (config : Config.t)
         metrics feature_importance scoring_rules response_rates,
    Analysis.run_analysis str_of_number to_numeric_string format_2f fit df config
    = Analysis.Success metrics feature_importance scoring_rules response_rates ->
    (100 <= nrows df)%nat
    /\ hd_error scoring_rules = Some "Start with 1000 points"
    /\ (exists b,
          metrics = [("baseline_rate", Some b);
                     ("top_decile_rate",
                      last (map Analysis.response_rate response_rates) None)]
          /\ (0 <= b /\ b <= 1)%Q)
    /\ (forall r, In r response_rates ->
          exists q, Analysis.response_rate r = Some q /\ (0 <= q /\ q <= 1)%Q)
    /\ (forall row, In row feature_importance ->
          (Analysis.effect row = "positive" /\ (0 < Analysis.coefficient row)%Q)
          \/ (Analysis.effect row = "negative" /\ (Analysis.coefficient row <= 0)%Q)).
Proof.
  intros sn tn fmt fit df config metrics fi rules rates H.
  unfold Analysis.run_analysis in H.
  destruct (Analysis.run_analysis_body sn tn fmt fit df config) as [r|e] eqn:Hbody;
    [subst r | discriminate].
  unfold Analysis.run_analysis_body in Hbody.
  destruct (Config.source_table config) as [table|]; [|discriminate].
  destruct (table =? ""); [discriminate|].
  destruct (nrows df =? 0)%nat; [discriminate|].
  destruct (DataPreparation.prepare_analysis_data sn tn df config) as [df_prep|e] eqn:Hprep;
    simpl in Hbody; [|discriminate].
  destruct (get_column _ df_prep) as [y|e] eqn:Hy; simpl in Hbody; [|discriminate].
  destruct (DataPreparation.drop _ df_prep) as [X|e] eqn:Hdrop; simpl in Hbody;
    [|discriminate].
  destruct (nrows X <? 100)%nat eqn:Hsize; [discriminate|].
  destruct (fit X (values y)) as [[[coef rows] scores]|e]; simpl in Hbody; [|discriminate].
  destruct (generate_scoring_rules _ _ _ _ _) as [rs|e] eqn:Hgen; simpl in Hbody;
    [|discriminate].
  destruct (apply_scoring_rules _ _) as [simple|e]; simpl in Hbody; [|discriminate].
  destruct (mapM Analysis.target_number _) as [yv|e] eqn:Hyv; simpl in Hbody;
    [|discriminate].
  destruct (Analysis.response_rates yv scores) as [t|e] eqn:Hrates; simpl in Hbody;
    [|discriminate].
  inversion Hbody; subst; clear Hbody.
  destruct (prepare_analysis_data_frame sn tn df config df_prep Hprep) as [Hn [_ Hval]].
  destruct (validated_frame tn df_prep config Hval) as [_ [tcol [Ht Hbin]]].
  rewrite Hy in Ht. inversion Ht; subst tcol; clear Ht.
  assert (Hunit : forall v, In v yv -> (0 <= v /\ v <= 1)%Q).
  { intros v Hv. pose proof (mapM_target_number _ _ Hyv v Hv) as Hcell.
    destruct (Hbin _ Hcell) as [q [E [Hq|Hq]]]; inversion E; subst q; lra. }
  destruct (decile_rates_unit yv scores rates Hunit Hrates) as [[b [Hb Hb01]] Hdec].
  split; [|split; [|split; [|split]]].
  - destruct (drop_frame _ _ _ Hdrop) as [HnX _].
    apply Nat.ltb_ge in Hsize. lia.
  - unfold generate_scoring_rules, generate_scoring_rules_with in Hgen.
    destruct (feature_loop _ _ _ _ _ _) as [rest|e]; simpl in Hgen; [|discriminate].
    inversion Hgen; subst rs. reflexivity.
  - exists b. rewrite Hb. split; [reflexivity | exact Hb01].
  - exact Hdec.
  - intros row Hrow. unfold Analysis.interpret_feature_importance in Hrow.
    apply in_map_iff in Hrow. destruct Hrow as [r0 [<- _]]. simpl.
    destruct (Qlt_bool 0 (Analysis.coefficient r0)) eqn:E.
    + left. split; [reflexivity | apply Qlt_bool_iff; exact E].
    + right. split; [reflexivity | apply Qlt_bool_false_iff; exact E].
Qed.

Lemma successful_run_is_consistent_witness :
  exists metrics feature_importance scoring_rules response_rates,
    Analysis.run_analysis Samples.decimal_str Samples.parse_decimal Samples.two_decimals
      Samples.fitted_model Samples.campaign_frame Samples.campaign_config
    = Analysis.Success metrics feature_importance scoring_rules response_rates
    /\ hd_error scoring_rules = Some "Start with 1000 points"
    /\ (forall r, In r response_rates ->
          exists q, Analysis.response_rate r = Some q /\ (0 <= q /\ q <= 1)%Q).
Proof.
  do 4 eexists. split; [vm_compute; reflexivity|].
  eassert (Hrun : Analysis.run_analysis Samples.decimal_str Samples.parse_decimal
                    Samples.two_decimals Samples.fitted_model Samples.campaign_frame
                    Samples.campaign_config = Analysis.Success _ _ _ _)
    by (vm_compute; reflexivity).
  destruct (successful_run_is_consistent _ _ _ _ _ _ _ _ _ _ Hrun)
    as [_ [Hhd [_ [Hdec _]]]].
  split; [exact Hhd | exact Hdec].
Defined.

(** ** Normalized column names (data_utils.py) *)

Section NameFacts.

Import DataUtils.

Ltac by_character a :=
  destruct a as [[] [] [] [] [] [] [] []]; vm_compute; try reflexivity; try discriminate.

Lemma replaced_char_is_name_char a :
  name_char (if is_alnum (DataPreparation.lower_char a)
             then DataPreparation.lower_char a else underscore) = true.
Proof. by_character a. Qed.

Lemma name_char_lower a : name_char a = true -> DataPreparation.lower_char a = a.
Proof. by_character a. Qed.

Lemma name_char_replaced a :
  name_char a = true -> (if is_alnum a then a else underscore) = a.
Proof. by_character a. Qed.

Lemma all_chars_replaced s :
  all_chars name_char (replace_special (DataPreparation.lower s)) = true.
Proof.
  induction s as [|a s IH]; [reflexivity|].
  cbn [DataPreparation.lower replace_special all_chars].
  rewrite replaced_char_is_name_char, IH. reflexivity.
Qed.

Lemma all_chars_collapse p s :
  all_chars p s = true -> all_chars p (collapse_underscores s) = true.
Proof.
  induction s as [|a s IH]; [reflexivity|]. cbn [all_chars collapse_underscores].
  intros H. apply andb_true_iff in H. destruct H as [Ha Hs].
  destruct (Ascii.eqb a underscore && starts_with_underscore s); [apply IH; exact Hs|].
  cbn [all_chars]. rewrite Ha, (IH Hs). reflexivity.
Qed.

Lemma all_chars_lstrip p s :
  all_chars p s = true -> all_chars p (lstrip s) = true.
Proof.
  induction s as [|a s IH]; [reflexivity|]. cbn [lstrip]. intros H.
  destruct (Ascii.eqb a underscore); [|exact H].
  cbn [all_chars] in H. apply andb_true_iff in H. apply IH, H.
Qed.

Lemma all_chars_rstrip p s :
  all_chars p s = true -> all_chars p (rstrip s) = true.
Proof.
  induction s as [|a s IH]; [reflexivity|]. cbn [all_chars rstrip].
  intros H. apply andb_true_iff in H. destruct H as [Ha Hs]. specialize (IH Hs).
  destruct (rstrip s) as [|b r].
  - destruct (Ascii.eqb a underscore); [reflexivity|].
    cbn [all_chars]. rewrite Ha. reflexivity.
  - change (all_chars p (String a (String b r)))
      with (p a && all_chars p (String b r)).
    rewrite Ha, IH. reflexivity.
Qed.

Lemma collapse_head s :
  starts_with_underscore (collapse_underscores s) = starts_with_underscore s.
Proof.
  induction s as [|a s IH]; [reflexivity|]. cbn [collapse_underscores].
  destruct (Ascii.eqb a underscore) eqn:Ea;
    destruct (starts_with_underscore s) eqn:Es; cbn [andb];
    try reflexivity.
  rewrite IH. cbn [starts_with_underscore]. rewrite Ea. reflexivity.
Qed.

Lemma no_double_collapse s : no_double_underscore (collapse_underscores s) = true.
Proof.
  induction s as [|a s IH]; [reflexivity|]. cbn [collapse_underscores].
  destruct (Ascii.eqb a underscore && starts_with_underscore s) eqn:E; [exact IH|].
  cbn [no_double_underscore]. rewrite collapse_head, E, IH. reflexivity.
Qed.

Lemma no_double_lstrip s :
  no_double_underscore s = true -> no_double_underscore (lstrip s) = true.
Proof.
  induction s as [|a s IH]; [reflexivity|]. cbn [lstrip]. intros H.
  destruct (Ascii.eqb a underscore); [|exact H].
  cbn [no_double_underscore] in H. apply andb_true_iff in H. apply IH, H.
Qed.

Lemma rstrip_head s :
  starts_with_underscore (rstrip s) = true -> starts_with_underscore s = true.
Proof.
  destruct s as [|a s]; [discriminate|]. cbn [rstrip].
  destruct (rstrip s); [destruct (Ascii.eqb a underscore) eqn:E|]; simpl;
    try discriminate; auto; congruence.
Qed.

Lemma no_double_rstrip s :
  no_double_underscore s = true -> no_double_underscore (rstrip s) = true.
Proof.
  induction s as [|a s IH]; [reflexivity|]. cbn [no_double_underscore rstrip].
  intros H. apply andb_true_iff in H. destruct H as [Ha Hs]. specialize (IH Hs).
  destruct (rstrip s) as [|b r] eqn:R.
  - destruct (Ascii.eqb a underscore) eqn:Ea; [reflexivity|].
    cbn [no_double_underscore starts_with_underscore]. rewrite Ea. reflexivity.
  - change (no_double_underscore (String a (String b r)))
      with (negb (Ascii.eqb a underscore && starts_with_underscore (String b r))
            && no_double_underscore (String b r)).
    rewrite IH, andb_true_r.
    destruct (Ascii.eqb a underscore) eqn:Ea; [|reflexivity].
    destruct (starts_with_underscore (String b r)) eqn:Eb; [|reflexivity].
    rewrite <- R in Eb. apply rstrip_head in Eb.
    rewrite ?Ea, Eb in Ha. discriminate.
Qed.

Lemma lstrip_head s : starts_with_underscore (lstrip s) = false.
Proof.
  induction s as [|a s IH]; [reflexivity|]. cbn [lstrip].
  destruct (Ascii.eqb a underscore) eqn:E; [exact IH | exact E].
Qed.

Lemma rstrip_tail s : ends_with_underscore (rstrip s) = false.
Proof.
  induction s as [|a s IH]; [reflexivity|]. cbn [rstrip].
  destruct (rstrip s) as [|b r].
  - destruct (Ascii.eqb a underscore) eqn:E; [reflexivity | exact E].
  - exact IH.
Qed.

Lemma lower_fixed s :
  all_chars name_char s = true -> DataPreparation.lower s = s.
Proof.
  induction s as [|a s IH]; [reflexivity|]. cbn [all_chars DataPreparation.lower].
  intros H. apply andb_true_iff in H. destruct H as [Ha Hs].
  rewrite (name_char_lower a Ha), (IH Hs). reflexivity.
Qed.

Lemma replace_special_fixed s :
  all_chars name_char s = true -> replace_special s = s.
Proof.
  induction s as [|a s IH]; [reflexivity|]. cbn [all_chars replace_special].
  intros H. apply andb_true_iff in H. destruct H as [Ha Hs].
  rewrite (name_char_replaced a Ha), (IH Hs). reflexivity.
Qed.

Lemma collapse_fixed s :
  no_double_underscore s = true -> collapse_underscores s = s.
Proof.
  induction s as [|a s IH]; [reflexivity|].
  cbn [no_double_underscore collapse_underscores].
  intros H. apply andb_true_iff in H. destruct H as [Ha Hs].
  apply negb_true_iff in Ha. rewrite Ha, (IH Hs). reflexivity.
Qed.

Lemma lstrip_fixed s : starts_with_underscore s = false -> lstrip s = s.
Proof. destruct s as [|a s]; [reflexivity|]. simpl. intros ->. reflexivity. Qed.

Lemma rstrip_fixed s : ends_with_underscore s = false -> rstrip s = s.
Proof.
  induction s as [|a s IH]; [reflexivity|]. intros H. cbn [rstrip].
  destruct s as [|b s'].
  - simpl in *. rewrite H. reflexivity.
  - rewrite IH by exact H. reflexivity.
Qed.

Lemma normalize_name_shape name :
  all_chars name_char (normalize_name name) = true
  /\ no_double_underscore (normalize_name name) = true
  /\ starts_with_underscore (normalize_name name) = false
  /\ ends_with_underscore (normalize_name name) = false.
Proof.
  unfold normalize_name, strip.
  set (c := collapse_underscores (replace_special (DataPreparation.lower name))).
  split; [|split; [|split]].
  - apply all_chars_rstrip, all_chars_lstrip, all_chars_collapse, all_chars_replaced.
  - apply no_double_rstrip, no_double_lstrip, no_double_collapse.
  - destruct (starts_with_underscore (rstrip (lstrip c))) eqn:E; [|reflexivity].
    apply rstrip_head in E. rewrite lstrip_head in E. discriminate.
  - apply rstrip_tail.
Qed.

Lemma normalize_name_fixed n :
  all_chars name_char n = true -> no_double_underscore n = true ->
  starts_with_underscore n = false -> ends_with_underscore n = false ->
  normalize_name n = n.
Proof.
  intros Hc Hd Hs He. unfold normalize_name, strip.
  rewrite (lower_fixed n Hc), (replace_special_fixed n Hc), (collapse_fixed n Hd),
    (lstrip_fixed n Hs), (rstrip_fixed n He).
  reflexivity.
Qed.

End NameFacts.

(** X17. A normalized column name is made of lower-case letters, digits
    and underscores only, has no underscore at either end and no two
    underscores in a row; and normalizing it again changes nothing. *)
Theorem normalized_names_are_clean :
  forall (name : string),
    let n := DataUtils.normalize_name name in
    all_chars name_char n = true
    /\ no_double_underscore n = true
    /\ DataUtils.starts_with_underscore n = false
    /\ ends_with_underscore n = false
    /\ DataUtils.normalize_name n = n.
Proof.
  intros name n. destruct (normalize_name_shape name) as [Hc [Hd [Hs He]]].
  repeat split; try assumption.
  apply normalize_name_fixed; assumption.
Qed.

(** ** The two name mappings (data_utils.py) *)

Section MappingFacts.

Import DataUtils.

Lemma dict_get_set k k' v d :
  dict_get k (dict_set k' v d) = if k' =? k then Some v else dict_get k d.
Proof.
  unfold dict_get. induction d as [|[k0 v0] d IH]; simpl.
  - destruct (k' =? k); reflexivity.
  - destruct (k0 =? k') eqn:E0; simpl.
    + apply String.eqb_eq in E0. subst k0.
      destruct (k' =? k); reflexivity.
    + destruct (k0 =? k) eqn:E1; simpl.
      * apply String.eqb_eq in E1. subst k0.
        rewrite String.eqb_sym in E0. rewrite E0. reflexivity.
      * exact IH.
Qed.

Lemma find_app_first {A} (f : A -> bool) (xs ys : list A) :
  find f (xs ++ ys)%list
  = match find f xs with Some x => Some x | None => find f ys end.
Proof.
  induction xs as [|x xs IH]; [reflexivity|].
  simpl. destruct (f x); [reflexivity | exact IH].
Qed.

(** A dictionary filled by successive assignments holds, under a key, the
    value of the last assignment to it. *)
Lemma dict_get_fold {A} (key val : A -> string) (l : list A) : forall d k,
  dict_get k (fold_left (fun d a => dict_set (key a) (val a) d) l d)
  = match find (fun a => key a =? k) (rev l) with
    | Some a => Some (val a)
    | None => dict_get k d
    end.
Proof.
  induction l as [|a l IH]; intros d k; [reflexivity|].
  cbn [fold_left rev]. rewrite IH, find_app_first.
  destruct (find _ (rev l)); [reflexivity|].
  rewrite dict_get_set. simpl. destruct (key a =? k); reflexivity.
Qed.

Lemma dict_set_invariant (P : string * string -> Prop) k v d :
  P (k, v) -> (forall p, In p d -> P p) -> forall p, In p (dict_set k v d) -> P p.
Proof.
  intros Hkv. induction d as [|[k0 v0] d IH]; simpl; intros Hd p Hp.
  - destruct Hp as [<-|[]]. exact Hkv.
  - destruct (k0 =? k) eqn:E.
    + apply String.eqb_eq in E. subst k0.
      destruct Hp as [<-|Hp]; [exact Hkv | apply Hd; right; exact Hp].
    + destruct Hp as [<-|Hp]; [apply Hd; left; reflexivity|].
      apply IH; [intros q Hq; apply Hd; right; exact Hq | exact Hp].
Qed.

Lemma dict_fold_invariant {A} (P : string * string -> Prop)
    (key val : A -> string) (l : list A) : forall d,
  (forall a, In a l -> P (key a, val a)) -> (forall p, In p d -> P p) ->
  forall p, In p (fold_left (fun d a => dict_set (key a) (val a) d) l d) -> P p.
Proof.
  induction l as [|a l IH]; intros d Hl Hd p Hp; [apply Hd; exact Hp|].
  cbn [fold_left] in Hp. apply (IH (dict_set (key a) (val a) d)); [| |exact Hp].
  - intros a' Ha'. apply Hl. right. exact Ha'.
  - apply dict_set_invariant; [apply Hl; left; reflexivity | exact Hd].
Qed.

Lemma dict_get_In k d v : dict_get k d = Some v -> In (k, v) d.
Proof.
  unfold dict_get. destruct (find _ d) as [[k0 v0]|] eqn:F; [|discriminate].
  simpl. intros E. inversion E; subst v0.
  apply find_some in F. destruct F as [Hin Hk]. simpl in Hk.
  apply String.eqb_eq in Hk. subst k0. exact Hin.
Qed.

Lemma name_mapping_get cols c :
  In c cols -> dict_get c (name_mapping_of cols) = Some (normalize_name c).
Proof.
  intros Hc. unfold name_mapping_of.
  rewrite (dict_get_fold (fun col => col) normalize_name).
  destruct (find (fun a => a =? c) (rev cols)) as [a|] eqn:F.
  - apply find_some in F. destruct F as [_ E]. apply String.eqb_eq in E. subst a.
    reflexivity.
  - exfalso. apply in_rev in Hc. pose proof (find_none _ _ F c Hc) as E.
    simpl in E. rewrite String.eqb_refl in E. discriminate.
Qed.

Lemma name_mapping_items cols p :
  In p (name_mapping_of cols) -> In (fst p) cols /\ snd p = normalize_name (fst p).
Proof.
  unfold name_mapping_of.
  apply (dict_fold_invariant
           (fun p => In (fst p) cols /\ snd p = normalize_name (fst p))
           (fun col => col) normalize_name).
  - intros a Ha. simpl. split; [exact Ha | reflexivity].
  - intros q [].
Qed.

Lemma reverse_mapping_get cols c :
  In c cols ->
  exists c',
    dict_get (normalize_name c) (reverse_mapping_of (name_mapping_of cols)) = Some c'
    /\ In c' cols /\ normalize_name c' = normalize_name c.
Proof.
  intros Hc. unfold reverse_mapping_of.
  rewrite (dict_get_fold (fun item : string * string => snd item) (fun item => fst item)).
  destruct (find (fun a => snd a =? normalize_name c) (rev (name_mapping_of cols)))
    as [item|] eqn:F.
  - apply find_some in F. destruct F as [Hin E]. apply String.eqb_eq in E.
    apply in_rev in Hin. destruct (name_mapping_items _ _ Hin) as [Hcol Hsnd].
    exists (fst item). split; [reflexivity|]. split; [exact Hcol | congruence].
  - exfalso.
    pose proof (dict_get_In _ _ _ (name_mapping_get cols c Hc)) as Hitem.
    apply in_rev in Hitem. pose proof (find_none _ _ F _ Hitem) as E.
    simpl in E. rewrite String.eqb_refl in E. discriminate.
Qed.

End MappingFacts.

(** X18. The three results of [normalize_column_names]. The frame keeps
    its rows and its columns in order, each under its normalized name; the
    first mapping sends every column name to its normalized name; the
    reverse mapping sends a normalized name back to a column name that
    normalizes to it, and to the very name it came from when no two columns
    share a normalized name. *)
Theorem name_mappings_round_trip :
  forall (df df_normalized : DataFrame) (name_mapping reverse_mapping : DataUtils.dict),
    DataUtils.normalize_column_names df = (df_normalized, name_mapping, reverse_mapping) ->
    nrows df_normalized = nrows df
    /\ map snd (columns df_normalized) = map snd (columns df)
    /\ DataPreparation.column_names df_normalized
       = map DataUtils.normalize_name (DataPreparation.column_names df)
    /\ (forall c, In c (DataPreparation.column_names df) ->
          DataUtils.dict_get c name_mapping = Some (DataUtils.normalize_name c))
    /\ (forall c, In c (DataPreparation.column_names df) ->
          exists c',
            DataUtils.dict_get (DataUtils.normalize_name c) reverse_mapping = Some c'
            /\ In c' (DataPreparation.column_names df)
            /\ DataUtils.normalize_name c' = DataUtils.normalize_name c)
    /\ ((forall a b, In a (DataPreparation.column_names df) ->
                     In b (DataPreparation.column_names df) ->
                     DataUtils.normalize_name a = DataUtils.normalize_name b -> a = b) ->
        forall c, In c (DataPreparation.column_names df) ->
          DataUtils.dict_get (DataUtils.normalize_name c) reverse_mapping = Some c).
Proof.
  intros df df' nm rm H. unfold DataUtils.normalize_column_names in H.
  inversion H; subst df' nm rm; clear H.
  unfold DataPreparation.column_names. simpl.
  split; [reflexivity|]. split; [|split; [|split; [|split]]].
  - rewrite map_map. reflexivity.
  - rewrite !map_map. apply map_ext_in. intros p Hp. simpl.
    rewrite name_mapping_get; [reflexivity|]. apply in_map. exact Hp.
  - intros c Hc. apply name_mapping_get. exact Hc.
  - intros c Hc. apply reverse_mapping_get. exact Hc.
  - intros Hinj c Hc.
    destruct (reverse_mapping_get _ c Hc) as [c' [Hget [Hc' Hsame]]].
    rewrite Hget. f_equal. apply Hinj; assumption.
Qed.

Lemma name_mappings_round_trip_witness :
  exists df_normalized name_mapping reverse_mapping,
    DataUtils.normalize_column_names
      (mkDataFrame 1 [("Customer ID", mkSeries int64 [Num 7]);
                      ("Age (years)", mkSeries int64 [Num 41])])
    = (df_normalized, name_mapping, reverse_mapping)
    /\ DataPreparation.column_names df_normalized = ["customer_id"; "age_years"]
    /\ DataUtils.dict_get "age_years" reverse_mapping = Some "Age (years)".
Proof.
  do 3 eexists. split; [vm_compute; reflexivity|].
  destruct (name_mappings_round_trip
              (mkDataFrame 1 [("Customer ID", mkSeries int64 [Num 7]);
                              ("Age (years)", mkSeries int64 [Num 41])])
              _ _ _ eq_refl) as [_ [_ [Hnames [_ [_ Hback]]]]].
  split; [exact Hnames|].
  refine (Hback _ "Age (years)" _); [|simpl; auto].
  intros a b [<-|[<-|[]]] [<-|[<-|[]]] E; try reflexivity; vm_compute in E; discriminate.
Defined.

(** ** Retrying a warehouse operation (snowflake_utils.py) *)

Section RetryFacts.

Import Snowflake.

Lemma count_app p (a b : list event) :
  count p (a ++ b) = (count p a + count p b)%nat.
Proof. unfold count. rewrite filter_app, length_app. reflexivity. Qed.

Lemma attempt_log w sql many log :
  exists ext,
    snd (attempt w sql many log) = (log ++ ext)%list
    /\ count is_cursor ext = 1%nat
    /\ count is_connect ext = 0%nat
    /\ count is_close ext = count is_opened ext
    /\ count is_rollback ext = count is_failed_work ext
    /\ (forall e s, In e ext -> statement_of e = Some s -> s = sql)
    /\ (fst (attempt w sql many log) = None ->
        ext = [(Cursor, None);
               (if many then ExecuteMany sql else Execute sql, None);
               (Commit, None); (Close, None)]).
Proof.
  unfold attempt, invoke.
  destruct (w (List.length log) Cursor) as [e1|] eqn:E1.
  { exists [(Cursor, Some e1)]. repeat split; try reflexivity.
    - intros e s [<-|[]]; discriminate.
    - discriminate. }
  destruct many;
    repeat match goal with
           | |- context [w ?n ?c] => destruct (w n c) eqn:?
           end;
    cbn [fst snd]; rewrite <- ?app_assoc; cbn [app];
    (eexists; split; [reflexivity|]);
    (repeat split; try reflexivity; try discriminate;
     intros e s Hin Hs; cbn [In] in Hin;
     repeat (destruct Hin as [<-|Hin]; [cbn in Hs; congruence|]); contradiction).
Qed.

Lemma retry_loop_log w sql many : forall remaining log,
  exists ext,
    snd (retry_loop w sql many remaining log) = (log ++ ext)%list
    /\ (count is_cursor ext <= remaining)%nat
    /\ (count is_connect ext <= remaining - 1)%nat
    /\ (count is_connect ext <= count is_cursor ext)%nat
    /\ count is_close ext = count is_opened ext
    /\ count is_rollback ext = count is_failed_work ext
    /\ (forall e s, In e ext -> statement_of e = Some s -> s = sql)
    /\ (fst (retry_loop w sql many remaining log) = ReturnNone <-> remaining = 0%nat)
    /\ (fst (retry_loop w sql many remaining log) = ReturnCursor ->
        exists earlier,
          ext = (earlier ++ [(Cursor, None);
                             (if many then ExecuteMany sql else Execute sql, None);
                             (Commit, None); (Close, None)])%list).
Proof.
  induction remaining as [|k IH]; intros log.
  - exists []. cbn [retry_loop fst snd]. rewrite app_nil_r.
    repeat split; try reflexivity; try (cbn; lia); try discriminate.
  - cbn [retry_loop].
    destruct (attempt_log w sql many log)
      as [ext1 [Hlog [Hcur [Hcon [Hclose [Hroll [Hstmt Hok]]]]]]].
    destruct (attempt w sql many log) as [r log1] eqn:Hattempt.
    cbn [fst snd] in Hlog, Hok. subst log1.
    destruct r as [[id|id]|].
    + destruct k as [|k'].
      * exists ext1. cbn [fst snd].
        repeat split; auto; try lia; try discriminate.
      * unfold invoke.
        destruct (w (List.length (log ++ ext1)) Connect) as [e|] eqn:Econ.
        -- exists (ext1 ++ [(Connect, Some e)])%list. cbn [fst snd].
           rewrite <- app_assoc. rewrite !count_app, Hcur, Hcon, Hclose, Hroll.
           repeat split; try reflexivity; try (cbn; lia); try discriminate.
           intros ev s Hin Hs. apply in_app_or in Hin. destruct Hin as [Hin|[<-|[]]].
           ++ exact (Hstmt _ _ Hin Hs).
           ++ discriminate.
        -- destruct (IH ((log ++ ext1) ++ [(Connect, None)])%list)
             as [ext2 [Hlog2 [Hcur2 [Hcon2 [Hcc2 [Hclose2 [Hroll2 [Hstmt2 [Hnone2 Hok2]]]]]]]]].
           exists (ext1 ++ (Connect, None) :: ext2)%list.
           split.
           { rewrite Hlog2. rewrite <- !app_assoc. reflexivity. }
           change ((Connect, None) :: ext2) with ([(Connect, @None fault)] ++ ext2)%list.
           rewrite !count_app, Hcur, Hcon, Hclose, Hroll, Hclose2, Hroll2.
           repeat split; try (cbn; lia); try discriminate.
           ++ intros ev s Hin Hs. apply in_app_or in Hin.
              destruct Hin as [Hin|Hin]; [exact (Hstmt _ _ Hin Hs)|].
              apply in_app_or in Hin. destruct Hin as [[<-|[]]|Hin]; [discriminate|].
              exact (Hstmt2 _ _ Hin Hs).
           ++ intros Hn. apply Hnone2 in Hn. discriminate.
           ++ intros Hc. destruct (Hok2 Hc) as [earlier ->].
              exists (ext1 ++ [(Connect, None)] ++ earlier)%list.
              rewrite <- !app_assoc. reflexivity.
    + exists ext1. cbn [fst snd].
      repeat split; auto; try lia; try discriminate.
    + exists ext1. cbn [fst snd].
      repeat split; auto; try lia; try discriminate.
      intros _. exists []. apply Hok. reflexivity.
Qed.

Lemma outage_attempt w sql many id log :
  (forall n c, w n c = match c with
                       | Execute _ | ExecuteMany _ => Some (Operational id)
                       | _ => None
                       end) ->
  attempt w sql many log
  = (Some (Operational id),
     (log ++ [(Cursor, None);
              (if many then ExecuteMany sql else Execute sql, Some (Operational id));
              (Rollback, None); (Close, None)])%list).
Proof.
  intros Hw. unfold attempt, invoke. rewrite (Hw _ Cursor).
  destruct many.
  - rewrite (Hw _ (ExecuteMany sql)), (Hw _ Rollback), (Hw _ Close).
    rewrite <- !app_assoc. reflexivity.
  - rewrite (Hw _ (Execute sql)), (Hw _ Rollback), (Hw _ Close).
    rewrite <- !app_assoc. reflexivity.
Qed.

Lemma outage_loop w sql many id :
  (forall n c, w n c = match c with
                       | Execute _ | ExecuteMany _ => Some (Operational id)
                       | _ => None
                       end) ->
  forall k log,
  exists ext,
    retry_loop w sql many (S k) log = (Raises (Operational id), (log ++ ext)%list)
    /\ count is_cursor ext = S k
    /\ count is_statement ext = S k
    /\ count is_rollback ext = S k
    /\ count is_close ext = S k
    /\ count is_connect ext = k
    /\ count is_commit ext = 0%nat.
Proof.
  intros Hw. induction k as [|k IH]; intros log.
  - cbn [retry_loop]. rewrite (outage_attempt w sql many id log Hw).
    eexists. split; [reflexivity|]. destruct many; repeat split; reflexivity.
  - remember (S k) as n eqn:Hn. cbn [retry_loop].
    rewrite (outage_attempt w sql many id log Hw).
    subst n. cbv beta iota. unfold invoke. rewrite (Hw _ Connect). cbv beta iota.
    match goal with
    | |- context [retry_loop w sql many (S k) ?l] =>
        destruct (IH l) as [ext [Hrun [Hcur [Hst [Hroll [Hclose [Hcon Hcom]]]]]]]
    end.
    rewrite Hrun.
    eexists. split; [rewrite <- !app_assoc; reflexivity|].
    rewrite !count_app, Hcur, Hst, Hroll, Hclose, Hcon, Hcom.
    destruct many; repeat split; cbn; lia.
Qed.

Lemma committed_attempt (w : world) (sql : string) (many : bool)
    (log : list event) (r : option fault) :
  w (List.length log) Cursor = None ->
  w (List.length log + 1)%nat (if many then ExecuteMany sql else Execute sql) = None ->
  w (List.length log + 2)%nat Commit = None ->
  w (List.length log + 3)%nat Close = r ->
  attempt w sql many log
  = (r, (log ++ [(Cursor, None : option fault);
                 (if many then ExecuteMany sql else Execute sql, None);
                 (Commit, None); (Close, r)])%list).
Proof.
  intros Hc Hs Hm Hl. unfold attempt, invoke. rewrite Hc.
  repeat (cbv beta iota; rewrite ?length_app; cbn [List.length];
          rewrite <- ?Nat.add_assoc; cbn [Nat.add];
          first [rewrite Hs | rewrite Hm | rewrite Hl]).
  cbv beta iota. rewrite <- !app_assoc. cbn [app].
  destruct r; reflexivity.
Qed.

End RetryFacts.

(** X19. However the warehouse answers, [execute_with_retry] opens at most
    [max_retries] cursors and reconnects at most [max_retries - 1] times;
    every cursor it opened is closed once, every statement or commit that
    failed is followed by one rollback, and the only statement it sends is
    the given one with each [?] replaced by [%s]. It returns [None] exactly
    when [max_retries] is not positive. When it returns the cursor, the log
    ends with that cursor opened, the statement executed, the transaction
    committed and the cursor closed: the cursor handed back is a closed
    one. *)
Theorem retries_are_bounded :
  forall (w : Snowflake.world) (sql : string) (many : bool) (max_retries : Z),
    let run := Snowflake.execute_with_retry w sql many max_retries in
    let statement := Snowflake.replace_placeholders sql in
    (count is_cursor (snd run) <= Z.to_nat max_retries)%nat
    /\ (count is_connect (snd run) <= Z.to_nat max_retries - 1)%nat
    /\ count is_close (snd run) = count is_opened (snd run)
    /\ count is_rollback (snd run) = count is_failed_work (snd run)
    /\ (forall e s, In e (snd run) -> statement_of e = Some s -> s = statement)
    /\ (fst run = Snowflake.ReturnNone <-> (max_retries <= 0)%Z)
    /\ (fst run = Snowflake.ReturnCursor ->
        exists earlier,
          snd run
          = (earlier
             ++ [(Snowflake.Cursor, None);
                 (if many then Snowflake.ExecuteMany statement
                  else Snowflake.Execute statement, None);
                 (Snowflake.Commit, None); (Snowflake.Close, None)])%list).
Proof.
  intros w sql many max_retries run statement.
  unfold run, Snowflake.execute_with_retry. fold statement.
  destruct (retry_loop_log w statement many (Z.to_nat max_retries) [])
    as [ext [Hlog [Hcur [Hcon [_ [Hclose [Hroll [Hstmt [Hnone Hok]]]]]]]]].
  cbn [app] in Hlog. rewrite Hlog.
  repeat split; auto.
  - intros H. apply Hnone in H. lia.
  - intros H. apply Hnone. lia.
Qed.

(** X20. While every statement fails with the same [OperationalError] and
    all else succeeds, a call with a positive [max_retries] raises that
    error after exactly [max_retries] turns: each turn opens a cursor, sends
    the statement, rolls back and closes the cursor, nothing is committed,
    and a fresh connection is made between two turns. *)
Theorem persistent_outage_exhausts_retries :
  forall (w : Snowflake.world) (sql : string) (many : bool) (max_retries : Z)
         (id : nat),
    (0 < max_retries)%Z ->
    (forall n c, w n c = match c with
                         | Snowflake.Execute _ | Snowflake.ExecuteMany _ =>
                             Some (Snowflake.Operational id)
                         | _ => None
                         end) ->
    let run := Snowflake.execute_with_retry w sql many max_retries in
    fst run = Snowflake.Raises (Snowflake.Operational id)
    /\ count is_cursor (snd run) = Z.to_nat max_retries
    /\ count is_statement (snd run) = Z.to_nat max_retries
    /\ count is_rollback (snd run) = Z.to_nat max_retries
    /\ count is_close (snd run) = Z.to_nat max_retries
    /\ count is_connect (snd run) = (Z.to_nat max_retries - 1)%nat
    /\ count is_commit (snd run) = 0%nat.
Proof.
  intros w sql many max_retries id Hpos Hw run.
  unfold run, Snowflake.execute_with_retry.
  destruct (Z.to_nat max_retries) as [|k] eqn:Hk; [lia|].
  destruct (outage_loop w (Snowflake.replace_placeholders sql) many id Hw k [])
    as [ext [Hrun [Hcur [Hst [Hroll [Hclose [Hcon Hcom]]]]]]].
  rewrite Hrun. cbn [fst snd app].
  repeat split; auto. rewrite Hcon. lia.
Qed.

Lemma persistent_outage_exhausts_retries_witness :
  fst (Snowflake.execute_with_retry
         (fun _ c => match c with
                     | Snowflake.Execute _ | Snowflake.ExecuteMany _ =>
                         Some (Snowflake.Operational 0)
                     | _ => None
                     end)
         "INSERT INTO METADATA.JOBS VALUES (?, ?)" false 3)
  = Snowflake.Raises (Snowflake.Operational 0)
  /\ count is_connect
       (snd (Snowflake.execute_with_retry
               (fun _ c => match c with
                           | Snowflake.Execute _ | Snowflake.ExecuteMany _ =>
                               Some (Snowflake.Operational 0)
                           | _ => None
                           end)
               "INSERT INTO METADATA.JOBS VALUES (?, ?)" false 3))
     = 2%nat.
Proof.
  destruct (persistent_outage_exhausts_retries
              (fun _ c => match c with
                          | Snowflake.Execute _ | Snowflake.ExecuteMany _ =>
                              Some (Snowflake.Operational 0)
                          | _ => None
                          end)
              "INSERT INTO METADATA.JOBS VALUES (?, ?)" false 3 0%nat
              ltac:(lia) ltac:(intros n c; reflexivity))
    as [Hout [_ [_ [_ [_ [Hcon _]]]]]].
  split; [exact Hout | exact Hcon].
Defined.

(** X21. A cursor whose [close] raises an [OperationalError] after the
    commit went through makes the whole operation run again: with at least
    two turns allowed, the statement is executed and committed a second
    time on a fresh connection, and the cursor of the second turn is the
    one returned. *)
Theorem failed_close_repeats_committed_work :
  forall (w : Snowflake.world) (sql : string) (many : bool) (max_retries : Z)
         (id : nat),
    (2 <= max_retries)%Z ->
    let statement :=
      if many then Snowflake.ExecuteMany (Snowflake.replace_placeholders sql)
      else Snowflake.Execute (Snowflake.replace_placeholders sql) in
    w 0%nat Snowflake.Cursor = None ->
    w 1%nat statement = None ->
    w 2%nat Snowflake.Commit = None ->
    w 3%nat Snowflake.Close = Some (Snowflake.Operational id) ->
    w 4%nat Snowflake.Connect = None ->
    w 5%nat Snowflake.Cursor = None ->
    w 6%nat statement = None ->
    w 7%nat Snowflake.Commit = None ->
    w 8%nat Snowflake.Close = None ->
    Snowflake.execute_with_retry w sql many max_retries
    = (Snowflake.ReturnCursor,
       [(Snowflake.Cursor, None); (statement, None); (Snowflake.Commit, None);
        (Snowflake.Close, Some (Snowflake.Operational id));
        (Snowflake.Connect, None);
        (Snowflake.Cursor, None); (statement, None); (Snowflake.Commit, None);
        (Snowflake.Close, None)]).
Proof.
  intros w sql many max_retries id Hmax statement H0 H1 H2 H3 H4 H5 H6 H7 H8.
  unfold Snowflake.execute_with_retry.
  destruct (Z.to_nat max_retries) as [|[|k]] eqn:Hk; [lia | lia |].
  unfold statement in *. clear statement.
  cbn [Snowflake.retry_loop].
  rewrite (committed_attempt w _ many [] (Some (Snowflake.Operational id)) H0 H1 H2 H3).
  cbv beta iota. unfold Snowflake.invoke at 1. cbn [List.length app].
  rewrite H4. cbv beta iota.
  match goal with
  | |- context [Snowflake.attempt w ?s many ?l] =>
      rewrite (committed_attempt w s many l None H5 H6 H7 H8)
  end.
  reflexivity.
Qed.

Lemma failed_close_repeats_committed_work_witness :
  count is_commit
    (snd (Snowflake.execute_with_retry
            (fun n c => match n, c with
                        | 3%nat, Snowflake.Close => Some (Snowflake.Operational 1)
                        | _, _ => None
                        end)
            "UPDATE METADATA.JOBS SET status = ? WHERE job_id = ?" false 3))
  = 2%nat.
Proof.
  rewrite (failed_close_repeats_committed_work
             (fun n c => match n, c with
                         | 3%nat, Snowflake.Close => Some (Snowflake.Operational 1)
                         | _, _ => None
                         end)
             "UPDATE METADATA.JOBS SET status = ? WHERE job_id = ?" false 3 1%nat
             ltac:(lia) eq_refl eq_refl eq_refl eq_refl eq_refl eq_refl eq_refl
             eq_refl eq_refl).
  reflexivity.
Defined.
